(** * VCD 4.3.0: the document container of [vcd/core.py]

    A shallow embedding of the classes [FrameIntervals] and [VCD] of
    [vcd/core.py], with the properties of the container established on it.

    Conventions of the embedding.
    - Python integers are [Z]; strings are [string]; [None] is [None].
    - A Python [dict] used as a map is a [gmap]; a key that the code may or
      may not have set is an [option] field of a record.  The key order of a
      [dict] (its insertion order) is not represented: it only shows in the
      rendered text.
    - A method of [VCD] is a computation in the monad [M]: it threads the
      instance and ends either with a value or with a raised exception.  The
      state reached when an exception is raised is kept, as Python keeps it.
    - [warnings.warn] appends to a log carried by the state. *)

From Stdlib Require Import ZArith String Ascii DecimalString DecimalPos Lia.
From stdpp Require Import base option list sorting gmap strings fin_maps.

Local Open Scope string_scope.
Local Open Scope Z_scope.

(** ** Python values used by the container *)

Module Py.

(** The exceptions the modelled code can raise. *)
Inductive exn : Type :=
| KeyError
| AttributeError
| AssertionError
| TypeError.

(** [str(n)] for an integer [n]. *)
Definition str_of_int (n : Z) : string :=
  NilZero.string_of_int (Z.to_int n).

Definition is_digit (c : ascii) : bool :=
  let n := nat_of_ascii c in Nat.leb 48 n && Nat.leb n 57.

Definition is_hex (c : ascii) : bool :=
  let n := nat_of_ascii c in
  is_digit c || (Nat.leb 97 n && Nat.leb n 102) || (Nat.leb 65 n && Nat.leb n 70).

Fixpoint all_chars (p : ascii -> bool) (s : string) : bool :=
  match s with
  | EmptyString => true
  | String c r => p c && all_chars p r
  end.

(** [s.isascii()]: every character of the text is below 128. *)
Definition isascii (s : string) : bool :=
  all_chars (λ c, Nat.ltb (nat_of_ascii c) 128) s.

(** [s.isnumeric()] for a text [s] with [s.isascii()]: at least one
    character, and every character a decimal digit.  [str.isnumeric] also
    accepts numeric characters outside ASCII, which are not modelled: a
    statement that rests on the answer for an arbitrary text assumes
    [isascii] of it. *)
Definition isnumeric (s : string) : bool :=
  match s with
  | EmptyString => false
  | String _ _ => all_chars is_digit s
  end.

(** Consume exactly [n] hexadecimal digits: the regex [[0-9a-fA-F]{n}]. *)
Fixpoint match_hex (n : nat) (s : string) : option string :=
  match n with
  | O => Some s
  | S n' =>
      match s with
      | String c r => if is_hex c then match_hex n' r else None
      | EmptyString => None
      end
  end.

Definition match_dash (s : string) : option string :=
  match s with
  | String c r => if Ascii.eqb c "-"%char then Some r else None
  | EmptyString => None
  end.

(** The regex anchor [$]: the end of the text, or just before a newline
    that ends the text. *)
Definition match_end (s : string) : bool :=
  match s with
  | EmptyString => true
  | String c EmptyString => Ascii.eqb c "010"%char
  | String _ _ => false
  end.

(** Groups of hexadecimal digits of the given lengths, separated by [-]. *)
Fixpoint match_groups (gs : list nat) (s : string) : option string :=
  match gs with
  | [] => Some s
  | n :: gs' =>
      match match_hex n s with
      | None => None
      | Some r =>
          match gs' with
          | [] => Some r
          | _ :: _ =>
              match match_dash r with
              | None => None
              | Some r' => match_groups gs' r'
              end
          end
      end
  end.

(** [pattern_uuid.match(uid)] for
    [^[0-9a-fA-F]{8}-[0-9a-fA-F]{4}-[0-9a-fA-F]{4}-[0-9a-fA-F]{4}-[0-9a-fA-F]{12}$]. *)
Definition pattern_uuid_match (s : string) : bool :=
  match match_groups [8; 4; 4; 4; 12]%nat s with
  | Some r => match_end r
  | None => false
  end.

(** [range(a, b + 1)]. *)
Definition range_incl (a b : Z) : list Z :=
  (λ i : nat, a + Z.of_nat i) <$> seq 0 (Z.to_nat (b + 1 - a)).

End Py.

(** ** Frame intervals *)

(** The record [{'frame_start': a, 'frame_end': b}]. *)
Record fi_dict : Type := FiDict { frame_start : Z; frame_end : Z }.

#[global] Instance fi_dict_eq_dec : EqDecision fi_dict.
Proof. solve_decision. Defined.

(** *** [vcd/utils.py] *)

Module utils.

(** Modelled from the spec: [utils.as_frame_intervals_array_dict], the
    record view of a list of numeric pairs (section 3, FrameInterval: "a
    list of explicit start/end records ... and a list of numeric pairs"). *)
Definition as_frame_intervals_array_dict (l : list (Z * Z)) : list fi_dict :=
  (λ t, FiDict t.1 t.2) <$> l.

(** Modelled from the spec: [utils.as_frame_intervals_array_tuples], the
    numeric-pair view of a list of start/end records. *)
Definition as_frame_intervals_array_tuples (l : list fi_dict) : list (Z * Z) :=
  (λ d, (frame_start d, frame_end d)) <$> l.

(** Modelled from the spec: two intervals overlap when [max] of the starts
    [<=] [min] of the ends (section 4.1, the test of [intersection]). *)
Definition intersects (a b : fi_dict) : bool :=
  Z.max (frame_start a) (frame_start b) <=? Z.min (frame_end a) (frame_end b).

(** Modelled from the spec: two intervals are contiguous when the next one
    starts one frame after the end of the first (section 4.1, [fuse]). *)
Definition consecutive (a b : fi_dict) : bool :=
  frame_end a + 1 =? frame_start b.

(** Modelled from the spec: the single interval covering two intervals
    (section 4.1, [fuse]). *)
Definition covering (a b : fi_dict) : fi_dict :=
  FiDict (Z.min (frame_start a) (frame_start b)) (Z.max (frame_end a) (frame_end b)).

(** Modelled from the spec: one insertion of the sort by start. *)
Fixpoint insert_by_start (x : fi_dict) (l : list fi_dict) : list fi_dict :=
  match l with
  | [] => [x]
  | y :: r =>
      if frame_start x <=? frame_start y then x :: y :: r
      else y :: insert_by_start x r
  end.

(** Modelled from the spec: the stable sort on [frame_start] that [fuse]
    starts with (section 4.1: "sort by start"). *)
Definition sort_by_start (l : list fi_dict) : list fi_dict :=
  foldr insert_by_start [] l.

(** Modelled from the spec: the merge pass of [fuse] over intervals sorted
    by start, [cur] being the interval under construction. *)
Fixpoint merge_sorted (cur : fi_dict) (l : list fi_dict) : list fi_dict :=
  match l with
  | [] => [cur]
  | x :: r =>
      if intersects cur x || consecutive cur x
      then merge_sorted (covering cur x) r
      else cur :: merge_sorted x r
  end.

(** Modelled from the spec: [utils.fuse_frame_intervals] (section 4.1,
    [fuse]: "sort by start, then merge any two intervals that overlap or
    are contiguous ... into a single covering interval"). *)
Definition fuse_frame_intervals (l : list fi_dict) : list fi_dict :=
  match sort_by_start l with
  | [] => []
  | x :: r => merge_sorted x r
  end.

(** Modelled from the spec: [utils.intersection_between_frame_interval_arrays]
    (section 4.1, [intersection]: "for every pair (a, b), if
    max(a.start,b.start) <= min(a.end,b.end), emit that overlap").  The
    spec leaves the shape of an overlap open: the helper builds it as the
    two-item list [[start, end]], not as a tuple. *)
Definition intersection_between_frame_interval_arrays
    (A B : list (Z * Z)) : list (list Z) :=
  a ← A; b ← B;
  let s := Z.max a.1 b.1 in
  let e := Z.min a.2 b.2 in
  if s <=? e then [[s; e]] else [].

(** Modelled from the spec: [utils.is_inside_frame_intervals] (section 4.1,
    [has_frame]: "true iff any interval satisfies start <= n <= end"). *)
Definition is_inside_frame_intervals (n : Z) (l : list (Z * Z)) : bool :=
  existsb (λ t, (t.1 <=? n) && (n <=? t.2)) l.

(** Modelled from the spec: [utils.get_outer_frame_interval] (section 4.1,
    [get_outer]: "the single interval [min over all starts, max over all
    ends], or empty if the set is empty"). *)
Definition get_outer_frame_interval (l : list fi_dict) : option fi_dict :=
  match l with
  | [] => None
  | x :: r => Some (foldl covering x r)
  end.

(** Modelled from the spec: [rm_frame] on one interval (section 4.1). *)
Definition rm_frame_from_frame_interval (n : Z) (d : fi_dict) : list fi_dict :=
  let s := frame_start d in
  let e := frame_end d in
  if (s <=? n) && (n <=? e) then
    if s =? e then []
    else if n =? s then [FiDict (s + 1) e]
    else if n =? e then [FiDict s (e - 1)]
    else [FiDict s (n - 1); FiDict (n + 1) e]
  else [d].

(** Modelled from the spec: [utils.rm_frame_from_frame_intervals] (section
    4.1, [rm_frame]: the interval holding [n] is deleted when it is the
    single frame [n], shrunk at the start or at the end when [n] is that
    bound, split in two when [n] is strictly inside; the others are
    untouched). *)
Definition rm_frame_from_frame_intervals (l : list fi_dict) (n : Z) : list fi_dict :=
  d ← l; rm_frame_from_frame_interval n d.

End utils.

(** *** [class FrameIntervals] *)

(** One element of a list passed as [frame_value]: a tuple, a record, a
    list of numbers, or anything else. *)
Inductive fv_item : Type :=
| ItTuple (t : Z * Z)
| ItDict (d : fi_dict)
| ItList (l : list Z)
| ItOther.

(** The shapes of the argument [frame_value]. *)
Inductive frame_value : Type :=
| FvNone
| FvInt (n : Z)
| FvList (l : list fv_item)
| FvTuple (t : Z * Z)
| FvDict (d : fi_dict)
| FvOther.

Module FrameIntervals.

(** The two views an instance keeps: [self.fis_dict] and [self.fis_num]. *)
Record t : Type := Make { fis_dict : list fi_dict; fis_num : list (Z * Z) }.

Definition is_tuple (x : fv_item) : bool :=
  match x with ItTuple _ => true | _ => false end.
Definition is_dict (x : fv_item) : bool :=
  match x with ItDict _ => true | _ => false end.
Definition tuples_of (l : list fv_item) : list (Z * Z) :=
  omap (λ x, match x with ItTuple p => Some p | _ => None end) l.
Definition dicts_of (l : list fv_item) : list fi_dict :=
  omap (λ x, match x with ItDict d => Some d | _ => None end) l.

Definition unsupported_format : string :=
  "ERROR: Unsupported FrameInterval format.".

(** [FrameIntervals(frame_value)]: the instance built, and the warnings
    the constructor emits. *)
Definition init (frame_value : frame_value) : t * list string :=
  match frame_value with
  | FvNone => (Make [] [], [])
  | FvInt n => (Make [FiDict n n] [(n, n)], [])
  | FvList l =>
      if bool_decide (length l = 0%nat) then (Make [] [], [])
      else if forallb is_tuple l then
        let d := utils.fuse_frame_intervals
                   (utils.as_frame_intervals_array_dict (tuples_of l)) in
        (Make d (utils.as_frame_intervals_array_tuples d), [])
      else if forallb is_dict l then
        let d := utils.fuse_frame_intervals (dicts_of l) in
        (Make d (utils.as_frame_intervals_array_tuples d), [])
      else (Make [] [], [])
  | FvTuple p => (Make (utils.as_frame_intervals_array_dict [p]) [p], [])
  | FvDict d => (Make [d] (utils.as_frame_intervals_array_tuples [d]), [])
  | FvOther => (Make [] [], [unsupported_format])
  end.

(** [FrameIntervals(l)] for a list [l] of start/end records; it cannot
    warn. *)
Definition of_dicts (l : list fi_dict) : t := (init (FvList (ItDict <$> l))).1.

(** [FrameIntervals(x)] where [x] is [None] or a list of records, as read
    with [dict.get]. *)
Definition of_get (x : option (list fi_dict)) : t :=
  match x with
  | None => (init FvNone).1
  | Some l => of_dicts l
  end.

Definition empty (self : t) : bool :=
  bool_decide (length (fis_dict self) = 0%nat)
  || bool_decide (length (fis_num self) = 0%nat).

Definition get_dict (self : t) : list fi_dict := fis_dict self.
Definition get (self : t) : list (Z * Z) := fis_num self.

Definition rm_frame (self : t) (frame_num : Z) : t :=
  let d := utils.rm_frame_from_frame_intervals (fis_dict self) frame_num in
  Make d (utils.as_frame_intervals_array_tuples d).

Definition union (self frame_intervals : t) : t :=
  let fis_union :=
    utils.fuse_frame_intervals (get_dict frame_intervals ++ fis_dict self) in
  of_dicts fis_union.

(** [FrameIntervals(fis_int)] on the list the helper returns: its items
    are lists, which the constructor tests for tuples, then for records. *)
Definition intersection (self frame_intervals : t) : t :=
  let fis_int :=
    utils.intersection_between_frame_interval_arrays (fis_num self) (get frame_intervals) in
  (init (FvList (ItList <$> fis_int))).1.

Definition get_outer (self : t) : option fi_dict :=
  utils.get_outer_frame_interval (fis_dict self).

Definition has_frame (self : t) (frame_num : Z) : bool :=
  utils.is_inside_frame_intervals frame_num (fis_num self).

End FrameIntervals.

(** ** Enumerations of [core.py] *)

Module ElementType.

Inductive t : Type := object | action | event | context | relation.

(** [element_type.name]. *)
Definition name (e : t) : string :=
  match e with
  | object => "object"
  | action => "action"
  | event => "event"
  | context => "context"
  | relation => "relation"
  end.

(** [element_type.value]. *)
Definition value (e : t) : nat :=
  match e with
  | object => 1 | action => 2 | event => 3 | context => 4 | relation => 5
  end.

Definition of_value (n : nat) : t :=
  match n with
  | 1 => object | 2 => action | 3 => event | 4 => context | _ => relation
  end%nat.

#[global] Instance eq_dec : EqDecision t.
Proof. solve_decision. Defined.

#[global] Program Instance countable : Countable t :=
  inj_countable' value of_value _.
Next Obligation. by intros []. Qed.

(** Attribute access [ElementType.<attr>] on the class: the member of that
    name, or [AttributeError]. *)
Definition getattr (attr : string) : Py.exn + t :=
  if String.eqb attr "object" then inr object
  else if String.eqb attr "action" then inr action
  else if String.eqb attr "event" then inr event
  else if String.eqb attr "context" then inr context
  else if String.eqb attr "relation" then inr relation
  else inl Py.AttributeError.

End ElementType.

Module StreamType.

Inductive t : Type := camera | lidar | radar | gps_imu | other.

Definition name (e : t) : string :=
  match e with
  | camera => "camera"
  | lidar => "lidar"
  | radar => "radar"
  | gps_imu => "gps_imu"
  | other => "other"
  end.

(** [StreamType[key]]: the member named [key], or [KeyError]. *)
Definition getitem (key : string) : option t :=
  if String.eqb key "camera" then Some camera
  else if String.eqb key "lidar" then Some lidar
  else if String.eqb key "radar" then Some radar
  else if String.eqb key "gps_imu" then Some gps_imu
  else if String.eqb key "other" then Some other
  else None.

End StreamType.

(** ** The document *)

(** A key of an element map: text, or the [uuid.UUID] object that
    [uuid.uuid4()] returns (which is not a [str]). *)
Inductive uid_key : Type :=
| UidStr (s : string)
| UidUUID (u : string).

#[global] Instance uid_key_eq_dec : EqDecision uid_key.
Proof. solve_decision. Defined.

#[global] Program Instance uid_key_countable : Countable uid_key :=
  inj_countable'
    (λ k, match k with UidStr s => inl s | UidUUID u => inr u end)
    (λ x, match x with inl s => UidStr s | inr u => UidUUID u end) _.
Next Obligation. by intros []. Qed.

(** [str(uid)]. *)
Definition uid_key_str (k : uid_key) : string :=
  match k with UidStr s => s | UidUUID u => u end.

(** A value passed where a UID is expected. *)
Inductive uid_arg : Type :=
| UNone
| UInt (n : Z)
| UStr (s : string)
| UUuid (u : string)
| UOther.

(** The key of an element map that a value is equal to, if any: the keys
    are text or UUID objects, and an [int] or [None] equals neither. *)
Definition key_of_arg (a : uid_arg) : option uid_key :=
  match a with
  | UStr s => Some (UidStr s)
  | UUuid u => Some (UidUUID u)
  | UNone | UInt _ | UOther => None
  end.

(** A value used as a key in [k in d], for a [dict] [d] whose keys are
    text. *)
Inductive key_value : Type :=
| KeyText (s : string)
| KeyStreamType (m : StreamType.t).

(** [k in d]: a member of [StreamType] equals no string, so it is never
    found among text keys. *)
Definition dict_contains {V : Type} (d : gmap string V) (k : key_value) : bool :=
  match k with
  | KeyText s => bool_decide (is_Some (d !! s))
  | KeyStreamType _ => false
  end.

(** Modelled from the spec: the values of [vcd/types.py] (section 4.3).
    [core.py] stores payload values without inspecting them. *)
Inductive pyval : Type :=
| VNum (n : Z)
| VText (s : string)
| VBool (b : bool)
| VSeq (l : list Z).

(** Modelled from the spec: one nested attribute [{'name': .., 'val': ..}]. *)
Record Attribute : Type := { attr_name : string; attr_val : pyval }.

(** Modelled from the spec: a payload object of [vcd/types.py]: its kind
    [element_data.type.name] and the entries of [element_data.data]. *)
Record ElementData : Type := {
  ed_type : string;
  ed_name : string;
  ed_val : pyval;
  ed_attributes : option (list (string * list Attribute));
  ed_in_stream : option string }.

(** One entry of [<type>_data_pointers]. *)
Record ElementDataPointer : Type := {
  edp_type : string;
  edp_frame_intervals : list fi_dict;
  edp_attributes : option (gmap string string) }.

(** An element record of [data['vcd'][<type>s][uid]]; a field is [None]
    while its key is absent. *)
Record Element : Type := {
  el_name : option string;
  el_type : option string;
  el_frame_intervals : option (list fi_dict);
  el_ontology_uid : option string;
  el_stream : option string;
  el_data : option (gmap string (list ElementData));
  el_data_pointers : option (gmap string ElementDataPointer) }.

Definition empty_element : Element :=
  {| el_name := None; el_type := None; el_frame_intervals := None;
     el_ontology_uid := None; el_stream := None; el_data := None;
     el_data_pointers := None |}.

(** The shadow of an element inside one frame. *)
Record FrameElement : Type := {
  fe_data : option (gmap string (list ElementData)) }.

Definition empty_frame_element : FrameElement := {| fe_data := None |}.

(** [frame['frame_properties']['streams'][name]]. *)
Record FrameStream : Type := {
  fs_stream_properties : option (gmap string pyval) }.

(** [frame['frame_properties']]; the caller's property names are taken to
    differ from ['timestamp'] and ['streams']. *)
Record FrameProperties : Type := {
  fp_timestamp : option string;
  fp_properties : gmap string pyval;
  fp_streams : option (gmap string FrameStream) }.

Definition empty_frame_properties : FrameProperties :=
  {| fp_timestamp := None; fp_properties := ∅; fp_streams := None |}.

(** One entry of [data['vcd']['frames']]: the buckets ['objects'],
    ['actions'], ... and ['frame_properties']. *)
Record Frame : Type := {
  fr_elements : gmap ElementType.t (gmap uid_key FrameElement);
  fr_properties : option FrameProperties }.

Definition empty_frame : Frame := {| fr_elements := ∅; fr_properties := None |}.

(** [len(frame)]. *)
Definition frame_len (fr : Frame) : nat :=
  (size (fr_elements fr) + match fr_properties fr with Some _ => 1 | None => 0 end)%nat.

(** One entry of [metadata['streams']]. *)
Record Stream : Type := {
  st_description : option string;
  st_uri : option string;
  st_type : option string;
  st_stream_properties : option (gmap string pyval) }.

Definition empty_stream : Stream :=
  {| st_description := None; st_uri := None; st_type := None;
     st_stream_properties := None |}.

Record Metadata : Type := {
  md_annotator : option string;
  md_comment : option string;
  md_properties : option (gmap string pyval);
  md_streams : option (gmap string Stream) }.

Definition empty_metadata : Metadata :=
  {| md_annotator := None; md_comment := None; md_properties := None;
     md_streams := None |}.

(** [self.data['vcd']]. *)
Record Data : Type := {
  vcd_frames : option (gmap Z Frame);
  vcd_schema_version : option string;
  vcd_frame_intervals : option (list fi_dict);
  vcd_elements : gmap ElementType.t (gmap uid_key Element);
  vcd_ontologies : option (gmap string string);
  vcd_metadata : option Metadata;
  vcd_name : option string;
  vcd_file_version : option string }.

(** An instance of [VCD], with what its methods reach outside of it: the
    warnings emitted so far, and the values [uuid.uuid4()] is going to
    return. *)
Record State : Type := {
  use_uuid : bool;
  lastUID : gmap ElementType.t Z;
  data : Data;
  warnings : list string;
  uuid4_values : nat -> string;
  uuid4_calls : nat }.

(** *** Field updates *)

Definition set_el_name v (e : Element) : Element :=
  {| el_name := v; el_type := el_type e; el_frame_intervals := el_frame_intervals e;
     el_ontology_uid := el_ontology_uid e; el_stream := el_stream e;
     el_data := el_data e; el_data_pointers := el_data_pointers e |}.
Definition set_el_type v (e : Element) : Element :=
  {| el_name := el_name e; el_type := v; el_frame_intervals := el_frame_intervals e;
     el_ontology_uid := el_ontology_uid e; el_stream := el_stream e;
     el_data := el_data e; el_data_pointers := el_data_pointers e |}.
Definition set_el_frame_intervals v (e : Element) : Element :=
  {| el_name := el_name e; el_type := el_type e; el_frame_intervals := v;
     el_ontology_uid := el_ontology_uid e; el_stream := el_stream e;
     el_data := el_data e; el_data_pointers := el_data_pointers e |}.
Definition set_el_ontology_uid v (e : Element) : Element :=
  {| el_name := el_name e; el_type := el_type e; el_frame_intervals := el_frame_intervals e;
     el_ontology_uid := v; el_stream := el_stream e;
     el_data := el_data e; el_data_pointers := el_data_pointers e |}.
Definition set_el_stream v (e : Element) : Element :=
  {| el_name := el_name e; el_type := el_type e; el_frame_intervals := el_frame_intervals e;
     el_ontology_uid := el_ontology_uid e; el_stream := v;
     el_data := el_data e; el_data_pointers := el_data_pointers e |}.
Definition set_el_data v (e : Element) : Element :=
  {| el_name := el_name e; el_type := el_type e; el_frame_intervals := el_frame_intervals e;
     el_ontology_uid := el_ontology_uid e; el_stream := el_stream e;
     el_data := v; el_data_pointers := el_data_pointers e |}.
Definition set_el_data_pointers v (e : Element) : Element :=
  {| el_name := el_name e; el_type := el_type e; el_frame_intervals := el_frame_intervals e;
     el_ontology_uid := el_ontology_uid e; el_stream := el_stream e;
     el_data := el_data e; el_data_pointers := v |}.

Definition set_edp_frame_intervals v (p : ElementDataPointer) : ElementDataPointer :=
  {| edp_type := edp_type p; edp_frame_intervals := v; edp_attributes := edp_attributes p |}.

Definition set_fr_elements v (fr : Frame) : Frame :=
  {| fr_elements := v; fr_properties := fr_properties fr |}.
Definition set_fr_properties v (fr : Frame) : Frame :=
  {| fr_elements := fr_elements fr; fr_properties := v |}.

Definition set_fp_timestamp v (p : FrameProperties) : FrameProperties :=
  {| fp_timestamp := v; fp_properties := fp_properties p; fp_streams := fp_streams p |}.
Definition set_fp_properties v (p : FrameProperties) : FrameProperties :=
  {| fp_timestamp := fp_timestamp p; fp_properties := v; fp_streams := fp_streams p |}.
Definition set_fp_streams v (p : FrameProperties) : FrameProperties :=
  {| fp_timestamp := fp_timestamp p; fp_properties := fp_properties p; fp_streams := v |}.

Definition set_st_stream_properties v (st : Stream) : Stream :=
  {| st_description := st_description st; st_uri := st_uri st; st_type := st_type st;
     st_stream_properties := v |}.

Definition set_md_annotator v (m : Metadata) : Metadata :=
  {| md_annotator := v; md_comment := md_comment m; md_properties := md_properties m;
     md_streams := md_streams m |}.
Definition set_md_comment v (m : Metadata) : Metadata :=
  {| md_annotator := md_annotator m; md_comment := v; md_properties := md_properties m;
     md_streams := md_streams m |}.
Definition set_md_streams v (m : Metadata) : Metadata :=
  {| md_annotator := md_annotator m; md_comment := md_comment m;
     md_properties := md_properties m; md_streams := v |}.

Definition set_vcd_frames v (d : Data) : Data :=
  {| vcd_frames := v; vcd_schema_version := vcd_schema_version d;
     vcd_frame_intervals := vcd_frame_intervals d;
     vcd_elements := vcd_elements d; vcd_ontologies := vcd_ontologies d;
     vcd_metadata := vcd_metadata d;
     vcd_name := vcd_name d; vcd_file_version := vcd_file_version d |}.
Definition set_vcd_frame_intervals v (d : Data) : Data :=
  {| vcd_frames := vcd_frames d; vcd_schema_version := vcd_schema_version d;
     vcd_frame_intervals := v;
     vcd_elements := vcd_elements d; vcd_ontologies := vcd_ontologies d;
     vcd_metadata := vcd_metadata d;
     vcd_name := vcd_name d; vcd_file_version := vcd_file_version d |}.
Definition set_vcd_elements v (d : Data) : Data :=
  {| vcd_frames := vcd_frames d; vcd_schema_version := vcd_schema_version d;
     vcd_frame_intervals := vcd_frame_intervals d;
     vcd_elements := v; vcd_ontologies := vcd_ontologies d; vcd_metadata := vcd_metadata d;
     vcd_name := vcd_name d; vcd_file_version := vcd_file_version d |}.
Definition set_vcd_ontologies v (d : Data) : Data :=
  {| vcd_frames := vcd_frames d; vcd_schema_version := vcd_schema_version d;
     vcd_frame_intervals := vcd_frame_intervals d;
     vcd_elements := vcd_elements d; vcd_ontologies := v; vcd_metadata := vcd_metadata d;
     vcd_name := vcd_name d; vcd_file_version := vcd_file_version d |}.
Definition set_vcd_metadata v (d : Data) : Data :=
  {| vcd_frames := vcd_frames d; vcd_schema_version := vcd_schema_version d;
     vcd_frame_intervals := vcd_frame_intervals d;
     vcd_elements := vcd_elements d; vcd_ontologies := vcd_ontologies d; vcd_metadata := v;
     vcd_name := vcd_name d; vcd_file_version := vcd_file_version d |}.

Definition set_vcd_name v (d : Data) : Data :=
  {| vcd_frames := vcd_frames d; vcd_schema_version := vcd_schema_version d;
     vcd_frame_intervals := vcd_frame_intervals d;
     vcd_elements := vcd_elements d; vcd_ontologies := vcd_ontologies d;
     vcd_metadata := vcd_metadata d;
     vcd_name := v; vcd_file_version := vcd_file_version d |}.
Definition set_vcd_file_version v (d : Data) : Data :=
  {| vcd_frames := vcd_frames d; vcd_schema_version := vcd_schema_version d;
     vcd_frame_intervals := vcd_frame_intervals d;
     vcd_elements := vcd_elements d; vcd_ontologies := vcd_ontologies d;
     vcd_metadata := vcd_metadata d;
     vcd_name := vcd_name d; vcd_file_version := v |}.
Definition set_md_properties v (m : Metadata) : Metadata :=
  {| md_annotator := md_annotator m; md_comment := md_comment m;
     md_properties := v; md_streams := md_streams m |}.

Definition set_use_uuid_field v (s : State) : State :=
  {| use_uuid := v; lastUID := lastUID s; data := data s; warnings := warnings s;
     uuid4_values := uuid4_values s; uuid4_calls := uuid4_calls s |}.
Definition set_lastUID v (s : State) : State :=
  {| use_uuid := use_uuid s; lastUID := v; data := data s; warnings := warnings s;
     uuid4_values := uuid4_values s; uuid4_calls := uuid4_calls s |}.
Definition set_data v (s : State) : State :=
  {| use_uuid := use_uuid s; lastUID := lastUID s; data := v; warnings := warnings s;
     uuid4_values := uuid4_values s; uuid4_calls := uuid4_calls s |}.
Definition set_warnings v (s : State) : State :=
  {| use_uuid := use_uuid s; lastUID := lastUID s; data := data s; warnings := v;
     uuid4_values := uuid4_values s; uuid4_calls := uuid4_calls s |}.
Definition set_uuid4_calls v (s : State) : State :=
  {| use_uuid := use_uuid s; lastUID := lastUID s; data := data s; warnings := warnings s;
     uuid4_values := uuid4_values s; uuid4_calls := v |}.

(** ** The monad of methods: state and exceptions *)

Inductive result (A : Type) : Type :=
| Ok (a : A)
| Raise (e : Py.exn).
Arguments Ok {A} a.
Arguments Raise {A} e.

Definition M (A : Type) : Type := State -> result A * State.

Definition ret {A : Type} (a : A) : M A := λ s, (Ok a, s).

Definition bind {A B : Type} (m : M A) (k : A -> M B) : M B :=
  λ s, match m s with
       | (Ok a, s') => k a s'
       | (Raise e, s') => (Raise e, s')
       end.

Definition raise {A : Type} (e : Py.exn) : M A := λ s, (Raise e, s).

Definition gets {A : Type} (f : State -> A) : M A := λ s, (Ok (f s), s).

Definition modify (f : State -> State) : M unit := λ s, (Ok tt, f s).

Declare Scope py_scope.
Delimit Scope py_scope with py.
Notation "x <- m ;; k" := (bind m (λ x, k))
  (at level 100, m at next level, right associativity) : py_scope.
Notation "m ;;; k" := (bind m (λ _, k))
  (at level 100, right associativity) : py_scope.
Local Open Scope py_scope.

(** [warnings.warn(msg)]. *)
Definition warn (msg : string) : M unit :=
  modify (λ s, set_warnings (warnings s ++ [msg]) s).

(** [d[k]] on a [dict] read as an optional value: [KeyError] when absent. *)
Definition subscript {A : Type} (x : option A) : M A :=
  match x with
  | Some a => ret a
  | None => raise Py.KeyError
  end.

(** [for x in l: body(x)]. *)
Fixpoint for_each {A : Type} (l : list A) (body : A -> M unit) : M unit :=
  match l with
  | [] => ret tt
  | x :: r => body x ;;; for_each r body
  end.

Definition modify_data (f : Data -> Data) : M unit :=
  modify (λ s, set_data (f (data s)) s).

(** The state reached and the value or exception a call ends with. *)
Definition run {A : Type} (m : M A) (s : State) : result A * State := m s.
Definition exec {A : Type} (m : M A) (s : State) : State := (m s).2.
Definition eval {A : Type} (m : M A) (s : State) : result A := (m s).1.

(** [FrameIntervals(frame_value)] inside a method: the warnings of the
    constructor go to the log. *)
Definition new_FrameIntervals (fv : frame_value) : M FrameIntervals.t :=
  for_each (FrameIntervals.init fv).2 warn ;;;
  ret (FrameIntervals.init fv).1.

Module schema.

(** Modelled from the spec: [schema.vcd_schema_version], the current
    wire-format version constant (section 4.4: "e.g. 4.3.0"). *)
Definition vcd_schema_version : string := "4.3.0".

End schema.

(** ** [class VCD] *)

Module VCD.

Definition fresh_data : Data :=
  {| vcd_frames := Some ∅;
     vcd_schema_version := Some schema.vcd_schema_version;
     vcd_frame_intervals := Some [];
     vcd_elements := ∅;
     vcd_ontologies := None;
     vcd_metadata := None;
     vcd_name := None;
     vcd_file_version := None |}.

Definition fresh_lastUID : gmap ElementType.t Z :=
  <[ElementType.relation := -1]>
    (<[ElementType.context := -1]>
       (<[ElementType.event := -1]>
          (<[ElementType.action := -1]>
             (<[ElementType.object := -1]> ∅)))).

Definition reset : M unit :=
  modify (λ s, set_lastUID fresh_lastUID (set_data fresh_data s)).

(** [VCD()]: the instance made by [__init__] without a file name.  The
    argument fixes what [uuid.uuid4()] will return. *)
Definition init (uuid4 : nat -> string) : State :=
  {| use_uuid := false; lastUID := fresh_lastUID; data := fresh_data;
     warnings := []; uuid4_values := uuid4; uuid4_calls := 0 |}.

Definition set_use_uuid (val : bool) : M unit :=
  modify (set_use_uuid_field val).

(** *** Get / Read *)

Definition has (d : Data) (element_type : ElementType.t) (uid : uid_arg) : bool :=
  match vcd_elements d !! element_type with
  | None => false
  | Some m =>
      match key_of_arg uid with
      | Some k => bool_decide (is_Some (m !! k))
      | None => false
      end
  end.

Definition str_of_arg (uid : uid_arg) : string :=
  match uid with
  | UNone => "None"
  | UInt n => Py.str_of_int n
  | UStr s => s
  | UUuid u => u
  | UOther => ""
  end.

Definition get_element (element_type : ElementType.t) (uid : uid_arg)
    : M (option Element) :=
  d <- gets data ;;
  match vcd_elements d !! element_type with
  | None =>
      warn ("WARNING: trying to get a " ++ ElementType.name element_type
            ++ " but this VCD has none.") ;;;
      ret None
  | Some m =>
      match key_of_arg uid ≫= (m !!.) with
      | Some e => ret (Some e)
      | None =>
          warn ("WARNING: trying to get non-existing "
                ++ ElementType.name element_type ++ " with uid: "
                ++ str_of_arg uid) ;;;
          ret None
      end
  end.

Definition get_frame (d : Data) (frame_num : Z) : option Frame :=
  match vcd_frames d with
  | None => None
  | Some fs => fs !! frame_num
  end.

Definition get_ontology (d : Data) (ont_uid : string) : option string :=
  match vcd_ontologies d with
  | Some onts => onts !! ont_uid
  | None => None
  end.

Definition get_metadata (d : Data) : Metadata :=
  match vcd_metadata d with
  | Some md => md
  | None => empty_metadata
  end.

(** [has_stream]: [True], [False], or [None] when it falls off its end. *)
Definition has_stream (stream : string) : M (option bool) :=
  d <- gets data ;;
  let md := get_metadata d in
  match md_streams md with
  | Some streams =>
      stream_name <- subscript (StreamType.getitem stream) ;;
      if dict_contains streams (KeyStreamType stream_name)
      then ret (Some true)
      else ret (Some false)
  | None => ret None
  end.

Definition get_frame_intervals (d : Data) : FrameIntervals.t :=
  match vcd_frame_intervals d with
  | Some l => FrameIntervals.of_dicts l
  | None => (FrameIntervals.init FvNone).1
  end.

Definition get_element_frame_intervals
    (d : Data) (element_type : ElementType.t) (uid : uid_arg) : FrameIntervals.t :=
  match vcd_elements d !! element_type with
  | None => (FrameIntervals.init FvNone).1
  | Some m =>
      match key_of_arg uid ≫= (m !!.) with
      | None => (FrameIntervals.init FvNone).1
      | Some e => FrameIntervals.of_get (el_frame_intervals e)
      end
  end.

(** Truth value of a text or [None], and of a Boolean or [None]. *)
Definition truthy_str (x : option string) : bool :=
  match x with
  | Some s => negb (String.eqb s "")
  | None => false
  end.
Definition truthy_bool (x : option bool) : bool :=
  match x with
  | Some b => b
  | None => false
  end.

(** *** Private API: inner functions *)

Definition uuid4 : M uid_key :=
  s <- gets id ;;
  modify (set_uuid4_calls (S (uuid4_calls s))) ;;;
  ret (UidUUID (uuid4_values s (uuid4_calls s))).

Definition unsupported_uid : string :=
  "ERROR: User provided UID of unsupported type, please use string, either a quoted"
  ++ "int or a UUID".

Definition __get_uid_to_assign (element_type : ElementType.t) (uid : uid_arg)
    : M uid_key :=
  match uid with
  | UNone =>
      use <- gets use_uuid ;;
      if use then uuid4
      else
        last <- gets lastUID ;;
        n <- subscript (last !! element_type) ;;
        modify (set_lastUID (<[element_type := n + 1]> last)) ;;;
        ret (UidStr (Py.str_of_int (n + 1)))
  | UInt uid_number =>
      last <- gets lastUID ;;
      n <- subscript (last !! element_type) ;;
      if uid_number >? n then
        modify (set_lastUID (<[element_type := uid_number]> last)) ;;;
        ret (UidStr (Py.str_of_int uid_number))
      else ret (UidStr (Py.str_of_int uid_number))
  | UStr uid =>
      if Py.isnumeric uid then ret (UidStr uid)
      else if Py.pattern_uuid_match uid then
        modify (set_use_uuid_field true) ;;;
        ret (UidStr uid)
      else
        warn unsupported_uid ;;;
        ret (UidStr "")
  | UUuid _ | UOther =>
      warn unsupported_uid ;;;
      ret (UidStr "")
  end.

Definition __set_vcd_frame_intervals (frame_intervals : FrameIntervals.t) : M unit :=
  if negb (FrameIntervals.empty frame_intervals) then
    modify_data (set_vcd_frame_intervals (Some (FrameIntervals.get_dict frame_intervals)))
  else ret tt.

Definition __update_vcd_frame_intervals (frame_intervals : FrameIntervals.t) : M unit :=
  if negb (FrameIntervals.empty frame_intervals) then
    d <- gets data ;;
    l <- subscript (vcd_frame_intervals d) ;;
    let fis_current := FrameIntervals.of_dicts l in
    let fis_union := FrameIntervals.union fis_current frame_intervals in
    __set_vcd_frame_intervals fis_union
  else ret tt.

(** [self.data['vcd']['frames'][frame_num] = fr]. *)
Definition put_frame (frame_num : Z) (fr : Frame) : M unit :=
  d <- gets data ;;
  fs <- subscript (vcd_frames d) ;;
  modify_data (set_vcd_frames (Some (<[frame_num := fr]> fs))).

Definition __add_frame (frame_num : Z) : M unit :=
  d <- gets data ;;
  fs <- subscript (vcd_frames d) ;;
  match fs !! frame_num with
  | None => put_frame frame_num empty_frame
  | Some _ => ret tt
  end.

(** [frame.setdefault(<type>s, {})] then
    [frame[<type>s].setdefault(uid, {})]. *)
Definition frame_setdefault_element
    (element_type : ElementType.t) (uid : uid_key) (fr : Frame) : Frame :=
  let bucket := default ∅ (fr_elements fr !! element_type) in
  let bucket' :=
    match bucket !! uid with
    | Some _ => bucket
    | None => <[uid := empty_frame_element]> bucket
    end in
  set_fr_elements (<[element_type := bucket']> (fr_elements fr)) fr.

Definition __add_frames (frame_intervals : FrameIntervals.t)
    (element_type : ElementType.t) (uid : uid_arg) : M unit :=
  match uid with
  | UStr uid_s =>
      if FrameIntervals.empty frame_intervals then ret tt
      else
        for_each (FrameIntervals.get frame_intervals) (λ fi,
          for_each (Py.range_incl fi.1 fi.2) (λ f,
            __add_frame f ;;;
            d <- gets data ;;
            match get_frame d f with
            | None => raise Py.AttributeError
            | Some frame =>
                put_frame f (frame_setdefault_element element_type (UidStr uid_s) frame)
            end))
  | _ => raise Py.AssertionError
  end.

Definition __rm_frame (frame_num : Z) : M unit :=
  d <- gets data ;;
  match vcd_frames d with
  | Some fs =>
      match fs !! frame_num with
      | Some _ =>
          modify_data (set_vcd_frames (Some (delete frame_num fs))) ;;;
          let fis_dict := default [] (vcd_frame_intervals d) in
          let fis_dict_new := utils.rm_frame_from_frame_intervals fis_dict frame_num in
          modify_data (set_vcd_frame_intervals (Some fis_dict_new))
      | None => ret tt
      end
  | None => ret tt
  end.

(** [self.data['vcd'][<type>s][uid]] updated in place by [g]. *)
Definition update_element
    (element_type : ElementType.t) (uid : uid_key) (g : Element -> Element) : M unit :=
  modify_data (λ d, set_vcd_elements (alter (alter g uid) element_type (vcd_elements d)) d).

(** The new interval of one data pointer when its element takes the
    interval [frame_intervals]: the body of the loop of step 3 of
    [__create_update_element]. *)
Definition reshape_pointer
    (frame_intervals : FrameIntervals.t) (p : ElementDataPointer) : ElementDataPointer :=
  let fis_int :=
    FrameIntervals.intersection frame_intervals
      (FrameIntervals.of_dicts (edp_frame_intervals p)) in
  if negb (FrameIntervals.empty fis_int)
  then set_edp_frame_intervals (FrameIntervals.get_dict fis_int) p
  else p.

Definition __create_update_element
    (element_type : ElementType.t) (name semantic_type : option string)
    (frame_intervals : FrameIntervals.t) (uid : uid_key)
    (ont_uid : option string) (stream : option string) : M unit :=
  (* 1.- Copy from existing or create new entry *)
  modify_data (λ d,
    let m := default ∅ (vcd_elements d !! element_type) in
    let m' := match m !! uid with
              | Some _ => m
              | None => <[uid := empty_element]> m
              end in
    set_vcd_elements (<[element_type := m']> (vcd_elements d)) d) ;;;
  (* 2.- Copy from arguments *)
  (match name with
   | Some _ => update_element element_type uid (set_el_name name)
   | None => ret tt
   end) ;;;
  (match semantic_type with
   | Some _ => update_element element_type uid (set_el_type semantic_type)
   | None => ret tt
   end) ;;;
  (if negb (FrameIntervals.empty frame_intervals) then
     update_element element_type uid
       (set_el_frame_intervals (Some (FrameIntervals.get_dict frame_intervals)))
   else ret tt) ;;;
  (match ont_uid with
   | Some o =>
       d <- gets data ;;
       if truthy_str (get_ontology d o)
       then update_element element_type uid (set_el_ontology_uid ont_uid)
       else ret tt
   | None => ret tt
   end) ;;;
  (match stream with
   | Some st =>
       b <- has_stream st ;;
       if truthy_bool b
       then update_element element_type uid (set_el_stream stream)
       else ret tt
   | None => ret tt
   end) ;;;
  (* 3.- Reshape element_data_pointers according to this new frame intervals *)
  if negb (FrameIntervals.empty frame_intervals) then
    update_element element_type uid (λ element,
      match el_data_pointers element with
      | Some edps =>
          set_el_data_pointers (Some (reshape_pointer frame_intervals <$> edps)) element
      | None => element
      end)
  else ret tt.

Definition uids_as_strings : string :=
  "WARNING: UIDs should be provided as strings, with quotes.".
Definition unsupported_uid_format : string :=
  "ERROR: Unsupported UID format. Must be a string.".

(** The first lines of [__add_element], for [uid_] and again for
    [ont_uid_]: the text to use ([None] when none was given), or no result
    when the method returns at once. *)
Definition coerce_uid (a : uid_arg) : M (option (option string)) :=
  match a with
  | UNone => ret (Some None)
  | UInt n => warn uids_as_strings ;;; ret (Some (Some (Py.str_of_int n)))
  | UStr s => ret (Some (Some s))
  | UUuid _ | UOther => warn unsupported_uid_format ;;; ret None
  end.

Definition arg_of_text (x : option string) : uid_arg :=
  match x with
  | Some s => UStr s
  | None => UNone
  end.

Definition arg_of_key (k : uid_key) : uid_arg :=
  match k with
  | UidStr s => UStr s
  | UidUUID u => UUuid u
  end.

(** Step 3.1.2 of [__add_element] for one frame [f] of the old interval
    that the new one leaves out. *)
Definition remove_shadow
    (element_type : ElementType.t) (uid : uid_arg) (f : Z) : M unit :=
  d <- gets data ;;
  fs <- subscript (vcd_frames d) ;;
  frame <- subscript (fs !! f) ;;
  elements_in_frame <- subscript (fr_elements frame !! element_type) ;;
  k <- subscript (key_of_arg uid) ;;
  _ <- subscript (elements_in_frame !! k) ;;
  let elements_in_frame' := delete k elements_in_frame in
  let frame' :=
    set_fr_elements (<[element_type := elements_in_frame']> (fr_elements frame)) frame in
  put_frame f frame' ;;;
  if bool_decide (size elements_in_frame' = 0%nat) then
    let frame'' := set_fr_elements (delete element_type (fr_elements frame)) frame in
    put_frame f frame'' ;;;
    if bool_decide (frame_len frame'' = 0%nat) then __rm_frame f else ret tt
  else ret tt.

Definition __add_element
    (element_type : ElementType.t) (name semantic_type : option string)
    (frame_intervals : FrameIntervals.t) (uid_ ont_uid_ : uid_arg)
    (stream : option string) : M (option uid_key) :=
  r <- coerce_uid uid_ ;;
  match r with
  | None => ret None
  | Some uid_text =>
  r' <- coerce_uid ont_uid_ ;;
  match r' with
  | None => ret None
  | Some ont_uid =>
      let uid := arg_of_text uid_text in
      (* 0.- Check if element already exists *)
      d <- gets data ;;
      let element_exists := has d element_type uid in
      (* 1.- Get uid to assign *)
      uid_to_assign <- __get_uid_to_assign element_type uid ;;
      (* 2.- Update Root element *)
      d <- gets data ;;
      let fis_old := get_element_frame_intervals d element_type uid in
      __create_update_element element_type name semantic_type frame_intervals
        uid_to_assign ont_uid stream ;;;
      (* 3.- Update frames entries and VCD frame intervals *)
      (if negb (FrameIntervals.empty frame_intervals) then
         if element_exists then
           let fis_new := frame_intervals in
           for_each (FrameIntervals.get fis_new) (λ fi,
             for_each (Py.range_incl fi.1 fi.2) (λ f,
               let is_inside := FrameIntervals.has_frame fis_old f in
               if negb is_inside then
                 let fi_ := (FrameIntervals.init (FvInt f)).1 in
                 __add_frames fi_ element_type uid ;;;
                 __update_vcd_frame_intervals fi_
               else ret tt)) ;;;
           for_each (FrameIntervals.get fis_old) (λ fi,
             for_each (Py.range_incl fi.1 fi.2) (λ f,
               let is_inside := FrameIntervals.has_frame fis_new f in
               if negb is_inside then remove_shadow element_type uid f
               else ret tt))
         else
           __add_frames frame_intervals element_type (arg_of_key uid_to_assign) ;;;
           __update_vcd_frame_intervals frame_intervals
       else
         d <- gets data ;;
         let vcd_frame_intervals := get_frame_intervals d in
         if FrameIntervals.empty vcd_frame_intervals then
           __add_frames vcd_frame_intervals element_type (arg_of_key uid_to_assign)
         else ret tt) ;;;
      ret (Some uid_to_assign)
  end
  end.

Definition __modify_element
    (element_type : ElementType.t) (uid : uid_arg) (name semantic_type : option string)
    (frame_intervals : FrameIntervals.t) (ont_uid : uid_arg) (stream : option string)
    : M unit :=
  __add_element element_type name semantic_type frame_intervals uid ont_uid stream ;;;
  ret tt.

(** The index of the first payload of [list_aux] named [n], as
    [pos_list[0]], and the list with [x] put there or appended. *)
Definition upsert_by_name (x : ElementData) (list_aux : list ElementData)
    : list ElementData :=
  match list_find (λ val, ed_name val = ed_name x) list_aux with
  | Some (pos, _) => <[pos := x]> list_aux
  | None => list_aux ++ [x]
  end.

(** [setdefault] of the [<type>_data] bucket and of the list of the kind
    of [x], then replace or append. *)
Definition data_upsert (x : ElementData)
    (bucket : option (gmap string (list ElementData)))
    : option (gmap string (list ElementData)) :=
  let b := default ∅ bucket in
  let list_aux := default [] (b !! ed_type x) in
  Some (<[ed_type x := upsert_by_name x list_aux]> b).

Definition __create_update_element_data
    (element_type : ElementType.t) (uid : uid_key) (element_data : ElementData)
    (frame_intervals : FrameIntervals.t) : M unit :=
  (* 0.- Check if element_data *)
  proceed <-
    match ed_in_stream element_data with
    | Some st => b <- has_stream st ;; ret (truthy_bool b)
    | None => ret true
    end ;;
  if negb proceed then ret tt
  else if FrameIntervals.empty frame_intervals then
    (* 1.1.- Static *)
    element <- get_element element_type (arg_of_key uid) ;;
    match element with
    | Some _ =>
        update_element element_type uid
          (λ e, set_el_data (data_upsert element_data (el_data e)) e)
    | None =>
        warn ("WARNING: trying to add objectdata to non-existing object, uid"
              ++ uid_key_str uid)
    end
  else
    (* 1.2.- Dynamic *)
    for_each (FrameIntervals.get frame_intervals) (λ fi,
      for_each (Py.range_incl fi.1 fi.2) (λ f,
        d <- gets data ;;
        (match get_frame d f with
         | None => __add_frame f
         | Some _ => ret tt
         end) ;;;
        d <- gets data ;;
        match get_frame d f with
        | None => raise Py.AttributeError
        | Some frame =>
            let frame1 := frame_setdefault_element element_type uid frame in
            let bucket := default ∅ (fr_elements frame1 !! element_type) in
            let element := default empty_frame_element (bucket !! uid) in
            let element' :=
              {| fe_data := data_upsert element_data (fe_data element) |} in
            put_frame f
              (set_fr_elements
                 (<[element_type := <[uid := element']> bucket]> (fr_elements frame1))
                 frame1)
        end)).

(** [edp[name]['attributes']]: every nested attribute name mapped to its
    kind, a later entry replacing an earlier one of the same name. *)
Definition flatten_attributes (attributes : list (string * list Attribute))
    : gmap string string :=
  foldl (λ acc kv,
           foldl (λ acc' attr, <[attr_name attr := kv.1]> acc') acc kv.2)
        ∅ attributes.

Definition __create_update_element_data_pointers
    (element_type : ElementType.t) (uid : uid_key) (element_data : ElementData)
    (frame_intervals : FrameIntervals.t) : M unit :=
  d <- gets data ;;
  m <- subscript (vcd_elements d !! element_type) ;;
  element <- subscript (m !! uid) ;;
  let edp := default ∅ (el_data_pointers element) in
  let entry :=
    {| edp_type := ed_type element_data;
       edp_frame_intervals := FrameIntervals.get_dict frame_intervals;
       edp_attributes := flatten_attributes <$> ed_attributes element_data |} in
  update_element element_type uid
    (set_el_data_pointers (Some (<[ed_name element_data := entry]> edp))).

(** The callers pass a [FrameIntervals] object for [frame_intervals],
    never [None].  Past the first test [uid] is a key of the element map. *)
Definition __add_element_data
    (element_type : ElementType.t) (uid : uid_arg) (element_data : ElementData)
    (frame_intervals : FrameIntervals.t) : M unit :=
  (* 0.- Check if element *)
  d <- gets data ;;
  if negb (has d element_type uid) then ret tt
  else
    match key_of_arg uid with
    | None => ret tt
    | Some k =>
    (* 1.- If new frameinterval, update root element, frames and vcd *)
    (if negb (FrameIntervals.empty frame_intervals) then
       r <- get_element element_type uid ;;
       match r with
       | None => raise Py.TypeError
       | Some element =>
           let ont_uid := arg_of_text (el_ontology_uid element) in
           let stream := el_stream element in
           d <- gets data ;;
           let fis_element := get_element_frame_intervals d element_type uid in
           let fis_union := FrameIntervals.union fis_element frame_intervals in
           name <- subscript (el_name element) ;;
           type <- subscript (el_type element) ;;
           __add_element element_type (Some name) (Some type) fis_union uid ont_uid
             stream ;;;
           ret tt
       end
     else ret tt) ;;;
    (* 2.- Inject/substitute Element_data *)
    __create_update_element_data element_type k element_data frame_intervals ;;;
    (* 3.- Update element_data_pointers *)
    __create_update_element_data_pointers element_type k element_data frame_intervals
    end.

(** *** Remove *)

(** The body of the inner loop of [rm_element] for one frame. *)
Definition rm_element_from_frame
    (element_type : ElementType.t) (uid : uid_key) (frame_num : Z) : M unit :=
  d <- gets data ;;
  fs <- subscript (vcd_frames d) ;;
  frame <- subscript (fs !! frame_num) ;;
  elements_in_frame <- subscript (fr_elements frame !! element_type) ;;
  let elements_in_frame' := delete uid elements_in_frame in
  put_frame frame_num
    (set_fr_elements (<[element_type := elements_in_frame']> (fr_elements frame)) frame) ;;;
  if bool_decide (size elements_in_frame' = 0%nat) then
    let frame' := set_fr_elements (delete element_type (fr_elements frame)) frame in
    put_frame frame_num frame' ;;;
    if bool_decide (frame_len frame' = 0%nat)
    then modify_data (λ d', set_vcd_frames (delete frame_num <$> vcd_frames d') d')
    else ret tt
  else ret tt.

Definition rm_element (element_type : ElementType.t) (uid : uid_arg) : M unit :=
  d <- gets data ;;
  elements <- subscript (vcd_elements d !! element_type) ;;
  (* Get element from summary *)
  if negb (has d element_type uid) then ret tt
  else
    k <- subscript (key_of_arg uid) ;;
    (* Remove from frames: let's read frame_intervals from summary *)
    element <- subscript (elements !! k) ;;
    fis <- subscript (el_frame_intervals element) ;;
    for_each fis (λ fi,
      for_each (Py.range_incl (frame_start fi) (frame_end fi))
        (rm_element_from_frame element_type k)) ;;;
    (* Delete this element from summary *)
    modify_data (λ d', set_vcd_elements (alter (delete k) element_type (vcd_elements d')) d').

Definition rm_object := rm_element ElementType.object.
Definition rm_action := rm_element ElementType.action.
Definition rm_event := rm_element ElementType.event.
Definition rm_context := rm_element ElementType.context.
Definition rm_relation := rm_element ElementType.relation.

(** *** Public API: add, update *)

Definition add_ontology (ontology_name : string) : M (option string) :=
  modify_data (λ d,
    match vcd_ontologies d with
    | Some _ => d
    | None => set_vcd_ontologies (Some ∅) d
    end) ;;;
  d <- gets data ;;
  onts <- subscript (vcd_ontologies d) ;;
  if existsb (λ kv, String.eqb kv.2 ontology_name) (map_to_list onts) then
    warn "WARNING: adding an already existing ontology" ;;;
    ret None
  else
    let length := Z.of_nat (size onts) in
    modify_data (set_vcd_ontologies (Some (<[Py.str_of_int length := ontology_name]> onts))) ;;;
    ret (Some (Py.str_of_int length)).

(** The argument [stream_type] of [add_stream]. *)
Inductive stream_type_arg : Type :=
| StMember (m : StreamType.t)
| StText (s : string)
| StOther.

Definition add_stream (stream_name uri description : string)
    (stream_type : stream_type_arg) : M unit :=
  modify_data (λ d,
    let md := default empty_metadata (vcd_metadata d) in
    let streams := default ∅ (md_streams md) in
    let streams1 :=
      match streams !! stream_name with
      | Some _ => streams
      | None => <[stream_name := empty_stream]> streams
      end in
    let entry (ty : string) : Stream :=
      {| st_description := Some description; st_uri := Some uri;
         st_type := Some ty; st_stream_properties := None |} in
    let streams2 :=
      match stream_type with
      | StMember m => <[stream_name := entry (StreamType.name m)]> streams1
      | StText ty => <[stream_name := entry ty]> streams1
      | StOther => streams1
      end in
    set_vcd_metadata (Some (set_md_streams (Some streams2) md)) d).

(** [self.data['vcd']['frames'][frame_num]] updated in place by [g]. *)
Definition update_frame (frame_num : Z) (g : Frame -> Frame) : M unit :=
  d <- gets data ;;
  fs <- subscript (vcd_frames d) ;;
  frame <- subscript (fs !! frame_num) ;;
  put_frame frame_num (g frame).

(** [frame.setdefault('frame_properties', dict())] and then [g] on it. *)
Definition update_frame_properties
    (g : FrameProperties -> FrameProperties) (frame : Frame) : Frame :=
  set_fr_properties
    (Some (g (default empty_frame_properties (fr_properties frame)))) frame.

Definition add_frame_properties (frame_num : Z) (timestamp : option string)
    (properties : option (gmap string pyval)) : M unit :=
  __add_frame frame_num ;;;
  update_frame frame_num (update_frame_properties id) ;;;
  (match timestamp with
   | Some _ => update_frame frame_num (update_frame_properties (set_fp_timestamp timestamp))
   | None => ret tt
   end) ;;;
  match properties with
  | Some props =>
      update_frame frame_num
        (update_frame_properties (λ p, set_fp_properties (props ∪ fp_properties p) p))
  | None => ret tt
  end.

(** Modelled from the spec: a [types.Odometry] object, by its [data]
    entries (section 4.3: "pose/motion fields merged directly into a
    frame's property map"). *)
Record Odometry : Type := { odometry_data : gmap string pyval }.

Definition add_odometry (frame_num : Z) (odometry : Odometry) : M unit :=
  __add_frame frame_num ;;;
  update_frame frame_num (update_frame_properties id) ;;;
  update_frame frame_num
    (update_frame_properties
       (λ p, set_fp_properties (odometry_data odometry ∪ fp_properties p) p)).

(** Modelled from the spec: [types.Intrinsics], [types.Extrinsics] and
    [types.StreamSync] objects, by what [core.py] reads of them (section
    4.3, stream/pose helpers). *)
Record Intrinsics : Type := { intrinsics_data : gmap string pyval }.
Record Extrinsics : Type := { extrinsics_data : gmap string pyval }.
Record StreamSync : Type := { frame_vcd : option Z; sync_data : gmap string pyval }.

(** The successive [update] calls on a [stream_properties] map. *)
Definition merge_stream_properties
    (properties : option (gmap string pyval)) (intrinsics : option Intrinsics)
    (extrinsics : option Extrinsics) (stream_sync : option StreamSync)
    (m : gmap string pyval) : gmap string pyval :=
  let m1 := match properties with Some p => p ∪ m | None => m end in
  let m2 := match intrinsics with Some i => intrinsics_data i ∪ m1 | None => m1 end in
  let m3 := match extrinsics with Some e => extrinsics_data e ∪ m2 | None => m2 end in
  match stream_sync with
  | Some ss => if bool_decide (sync_data ss = ∅) then m3 else sync_data ss ∪ m3
  | None => m3
  end.

Definition add_stream_properties (stream_name : string)
    (properties : option (gmap string pyval)) (intrinsics : option Intrinsics)
    (extrinsics : option Extrinsics) (stream_sync : option StreamSync) : M unit :=
  let has_arguments :=
    bool_decide (is_Some intrinsics) || bool_decide (is_Some extrinsics)
    || bool_decide (is_Some properties) || bool_decide (is_Some stream_sync) in
  let frame_num := stream_sync ≫= frame_vcd in
  if negb has_arguments then ret tt
  else
    d <- gets data ;;
    (* Find if this stream is declared *)
    match vcd_metadata d with
    | None => ret tt
    | Some md =>
        match md_streams md with
        | None => ret tt
        | Some streams =>
            if dict_contains streams (KeyText stream_name) then
              match frame_num with
              | None =>
                  (* This information is static *)
                  let upd (st : Stream) : Stream :=
                    set_st_stream_properties
                      (Some (merge_stream_properties properties intrinsics extrinsics
                               stream_sync (default ∅ (st_stream_properties st)))) st in
                  modify_data
                    (set_vcd_metadata
                       (Some (set_md_streams (Some (alter upd stream_name streams)) md)))
              | Some frame_num =>
                  (* This is information of the stream for a specific frame *)
                  __add_frame frame_num ;;;
                  update_frame frame_num (update_frame_properties (λ p,
                    let fstreams := default ∅ (fp_streams p) in
                    let entry :=
                      default {| fs_stream_properties := None |} (fstreams !! stream_name) in
                    let props :=
                      merge_stream_properties properties intrinsics extrinsics stream_sync
                        (default ∅ (fs_stream_properties entry)) in
                    set_fp_streams
                      (Some (<[stream_name := {| fs_stream_properties := Some props |}]>
                               fstreams)) p))
              end
            else
              warn ("WARNING: Trying to add stream properties for non-existing stream. "
                    ++ "Use add_stream first.")
        end
    end.

Definition add_object (name semantic_type : string) (frame_value : frame_value)
    (uid ont_uid : uid_arg) (stream : option string) : M (option uid_key) :=
  fi <- new_FrameIntervals frame_value ;;
  __add_element ElementType.object (Some name) (Some semantic_type) fi uid ont_uid stream.

Definition add_action (name semantic_type : string) (frame_value : frame_value)
    (uid ont_uid : uid_arg) (stream : option string) : M (option uid_key) :=
  fi <- new_FrameIntervals frame_value ;;
  __add_element ElementType.action (Some name) (Some semantic_type) fi uid ont_uid stream.

Definition add_event (name semantic_type : string) (frame_value : frame_value)
    (uid ont_uid : uid_arg) (stream : option string) : M (option uid_key) :=
  fi <- new_FrameIntervals frame_value ;;
  __add_element ElementType.event (Some name) (Some semantic_type) fi uid ont_uid stream.

Definition add_context (name semantic_type : string) (frame_value : frame_value)
    (uid ont_uid : uid_arg) (stream : option string) : M (option uid_key) :=
  fi <- new_FrameIntervals frame_value ;;
  __add_element ElementType.context (Some name) (Some semantic_type) fi uid ont_uid stream.

Definition add_relation (name semantic_type : string) (frame_value : frame_value)
    (uid ont_uid : uid_arg) : M (option uid_key) :=
  fi <- new_FrameIntervals frame_value ;;
  __add_element ElementType.relation (Some name) (Some semantic_type) fi uid ont_uid None.

Definition add_object_data (uid : uid_arg) (object_data : ElementData)
    (frame_value : frame_value) : M unit :=
  fi <- new_FrameIntervals frame_value ;;
  __add_element_data ElementType.object uid object_data fi.

Definition add_action_data (uid : uid_arg) (action_data : ElementData)
    (frame_value : frame_value) : M unit :=
  fi <- new_FrameIntervals frame_value ;;
  __add_element_data ElementType.action uid action_data fi.

(** The source names the element type [ElementType.evevt]; the arguments
    of the call are evaluated from left to right, this one first. *)
Definition add_event_data (uid : uid_arg) (event_data : ElementData)
    (frame_value : frame_value) : M unit :=
  match ElementType.getattr "evevt" with
  | inl e => raise e
  | inr element_type =>
      fi <- new_FrameIntervals frame_value ;;
      __add_element_data element_type uid event_data fi
  end.

Definition add_context_data (uid : uid_arg) (context_data : ElementData)
    (frame_value : frame_value) : M unit :=
  fi <- new_FrameIntervals frame_value ;;
  __add_element_data ElementType.context uid context_data fi.

Definition modify_action (uid : uid_arg) (name semantic_type : option string)
    (frame_value : frame_value) (ont_uid : uid_arg) (stream : option string) : M unit :=
  fi <- new_FrameIntervals frame_value ;;
  __modify_element ElementType.action uid name semantic_type fi ont_uid stream.

Definition modify_object (uid : uid_arg) (name semantic_type : option string)
    (frame_value : frame_value) (ont_uid : uid_arg) (stream : option string) : M unit :=
  fi <- new_FrameIntervals frame_value ;;
  __modify_element ElementType.object uid name semantic_type fi ont_uid stream.

Definition modify_event (uid : uid_arg) (name semantic_type : option string)
    (frame_value : frame_value) (ont_uid : uid_arg) (stream : option string) : M unit :=
  fi <- new_FrameIntervals frame_value ;;
  __modify_element ElementType.event uid name semantic_type fi ont_uid stream.

Definition modify_context (uid : uid_arg) (name semantic_type : option string)
    (frame_value : frame_value) (ont_uid : uid_arg) (stream : option string) : M unit :=
  fi <- new_FrameIntervals frame_value ;;
  __modify_element ElementType.context uid name semantic_type fi ont_uid stream.

Definition modify_relation (uid : uid_arg) (name semantic_type : option string)
    (frame_value : frame_value) (ont_uid : uid_arg) (stream : option string) : M unit :=
  fi <- new_FrameIntervals frame_value ;;
  __modify_element ElementType.relation uid name semantic_type fi ont_uid stream.

(** *** Public API: metadata *)

Definition add_file_version (version : string) : M unit :=
  modify_data (set_vcd_file_version (Some version)).

Definition add_metadata_properties (properties : gmap string pyval) : M unit :=
  d <- gets data ;;
  md <- subscript (vcd_metadata d) ;;
  modify_data
    (set_vcd_metadata
       (Some (set_md_properties (Some (properties ∪ default ∅ (md_properties md))) md))).

Definition add_name (name : string) : M unit :=
  modify_data (set_vcd_name (Some name)).

Definition add_annotator (annotator : string) : M unit :=
  modify_data (λ d,
    let md := default empty_metadata (vcd_metadata d) in
    set_vcd_metadata (Some (set_md_annotator (Some annotator) md)) d).

Definition add_comment (comment : string) : M unit :=
  modify_data (λ d,
    let md := default empty_metadata (vcd_metadata d) in
    set_vcd_metadata (Some (set_md_comment (Some comment) md)) d).

(** *** Public API: update *)

(** [__update_element]: [False] after the warning, and [None] when it
    falls off its end. *)
Definition __update_element (element_type : ElementType.t) (uid : uid_arg)
    (frame_intervals : FrameIntervals.t) : M (option bool) :=
  match uid with
  | UStr uid_s =>
      (* Check if this uid exists *)
      d <- gets data ;;
      m <- subscript (vcd_elements d !! element_type) ;;
      match m !! UidStr uid_s with
      | None =>
          warn "WARNING: trying to update a non-existing Element." ;;;
          ret (Some false)
      | Some element =>
          (* Read existing data about this element *)
          name <- subscript (el_name element) ;;
          semantic_type <- subscript (el_type element) ;;
          let ont_uid := arg_of_text (el_ontology_uid element) in
          let stream := el_stream element in
          (* Call __add_element (which internally creates OR updates) *)
          d <- gets data ;;
          let fis_existing := get_element_frame_intervals d element_type uid in
          let fis_union := FrameIntervals.union fis_existing frame_intervals in
          __add_element element_type (Some name) (Some semantic_type) fis_union uid
            ont_uid stream ;;;
          ret None
      end
  | _ => raise Py.AssertionError
  end.

Definition update_object (uid : uid_arg) (frame_value : frame_value) : M (option bool) :=
  fi <- new_FrameIntervals frame_value ;;
  __update_element ElementType.object uid fi.

Definition update_action (uid : uid_arg) (frame_value : frame_value) : M (option bool) :=
  fi <- new_FrameIntervals frame_value ;;
  __update_element ElementType.action uid fi.

Definition update_context (uid : uid_arg) (frame_value : frame_value) : M (option bool) :=
  fi <- new_FrameIntervals frame_value ;;
  __update_element ElementType.context uid fi.

Definition get_relation (uid : uid_arg) : M (option Element) :=
  get_element ElementType.relation uid.

(** [relation_has_frame_intervals]: a Boolean, or [None] after the warning
    on a relation that does not exist. *)
Definition relation_has_frame_intervals (relation_uid : uid_arg) : M (option bool) :=
  relation <- get_relation relation_uid ;;
  match relation with
  | None =>
      warn ("WARNING: Non-existing relation " ++ str_of_arg relation_uid) ;;;
      ret None
  | Some relation =>
      match el_frame_intervals relation with
      | None => ret (Some false)
      | Some l =>
          if bool_decide (length l = 0%nat) then ret (Some false) else ret (Some true)
      end
  end.

Definition update_relation (uid : uid_arg) (frame_value : frame_value)
    : M (option bool) :=
  r <- get_relation uid ;;
  match r with
  | Some _ =>
      b <- relation_has_frame_intervals uid ;;
      if negb (truthy_bool b) then
        warn ("WARNING: Trying to update the frame information of a Relation defined "
              ++ "as frame-less. Ignoring command.") ;;;
        ret None
      else
        fi <- new_FrameIntervals frame_value ;;
        __update_element ElementType.relation uid fi
  | None => ret None
  end.

Definition modify_action_data (uid : uid_arg) (action_data : ElementData)
    (frame_value : frame_value) : M unit :=
  add_action_data uid action_data frame_value.

Definition modify_object_data (uid : uid_arg) (object_data : ElementData)
    (frame_value : frame_value) : M unit :=
  add_object_data uid object_data frame_value.

Definition modify_event_data (uid : uid_arg) (event_data : ElementData)
    (frame_value : frame_value) : M unit :=
  add_event_data uid event_data frame_value.

Definition modify_context_data (uid : uid_arg) (context_data : ElementData)
    (frame_value : frame_value) : M unit :=
  add_context_data uid context_data frame_value.

(** [update_element_data]; the payload is taken to be an instance of
    [types.ObjectData], as the second assertion asks. *)
Definition update_element_data (element_type : ElementType.t) (uid : uid_arg)
    (element_data : ElementData) (frame_value : frame_value) : M unit :=
  match uid with
  | UStr uid_s =>
      element <- get_element element_type uid ;;
      match frame_value with
      | FvNone =>
          (* Static: so wa can't fuse frame intervals, this is a substitution *)
          match element with
          | Some _ =>
              fi <- new_FrameIntervals frame_value ;;
              __add_element_data element_type uid element_data fi
          | None => ret tt
          end
      | _ =>
          (* Dynamic *)
          match element with
          | Some element =>
              match el_data_pointers element with
              | Some edps =>
                  match edps !! ed_name element_data with
                  | Some _ =>
                      (* 1.- Update Root element, farmes and VCD *)
                      l <- subscript (el_frame_intervals element) ;;
                      let fis_existing := FrameIntervals.of_dicts l in
                      fis_new <- new_FrameIntervals frame_value ;;
                      let fis_union := FrameIntervals.union fis_existing fis_new in
                      let ont_uid := arg_of_text (el_ontology_uid element) in
                      let stream := el_stream element in
                      name <- subscript (el_name element) ;;
                      type <- subscript (el_type element) ;;
                      __add_element element_type (Some name) (Some type) fis_union uid
                        ont_uid stream ;;;
                      (* 2.- Inject the new elementdata using the framevalue *)
                      __create_update_element_data element_type (UidStr uid_s) element_data
                        fis_new ;;;
                      (* 3.- Update element_data_pointers *)
                      __create_update_element_data_pointers element_type (UidStr uid_s)
                        element_data fis_new
                  | None => ret tt
                  end
              | None => ret tt
              end
          | None => ret tt
          end
      end
  | _ => raise Py.AssertionError
  end.

Definition update_action_data (uid : uid_arg) (action_data : ElementData)
    (frame_value : frame_value) : M unit :=
  update_element_data ElementType.action uid action_data frame_value.

Definition update_object_data (uid : uid_arg) (object_data : ElementData)
    (frame_value : frame_value) : M unit :=
  update_element_data ElementType.object uid object_data frame_value.

Definition update_event_data (uid : uid_arg) (event_data : ElementData)
    (frame_value : frame_value) : M unit :=
  update_element_data ElementType.event uid event_data frame_value.

Definition update_context_data (uid : uid_arg) (context_data : ElementData)
    (frame_value : frame_value) : M unit :=
  update_element_data ElementType.context uid context_data frame_value.

(** *** Get / Read: payloads and counts *)

Definition get_all (d : Data) (element_type : ElementType.t)
    : option (gmap uid_key Element) :=
  vcd_elements d !! element_type.

Definition get_element_data_pointer (element_type : ElementType.t) (uid : uid_arg)
    (data_name : string) : M (option ElementDataPointer) :=
  d <- gets data ;;
  if has d element_type uid then
    m <- subscript (vcd_elements d !! element_type) ;;
    k <- subscript (key_of_arg uid) ;;
    element <- subscript (m !! k) ;;
    match el_data_pointers element with
    | Some edps => ret (edps !! data_name)
    | None => ret None
    end
  else
    warn "WARNING: Asking element data from a non-existing Element." ;;;
    ret None.

Definition get_element_data_frame_intervals (element_type : ElementType.t)
    (uid : uid_arg) (data_name : string) : M FrameIntervals.t :=
  p <- get_element_data_pointer element_type uid data_name ;;
  match p with
  | Some p => ret (FrameIntervals.of_dicts (edp_frame_intervals p))
  | None => raise Py.TypeError
  end.

Definition get_frames_with_element_data_name (element_type : ElementType.t)
    (uid : uid_arg) (data_name : string) : M (option FrameIntervals.t) :=
  d <- gets data ;;
  m <- subscript (vcd_elements d !! element_type) ;;
  match key_of_arg uid ≫= (m !!.) with
  | Some element =>
      match el_data_pointers element with
      | Some edps =>
          match edps !! data_name with
          | Some p => ret (Some (FrameIntervals.of_dicts (edp_frame_intervals p)))
          | None => ret None
          end
      | None => ret None
      end
  | None => ret None
  end.

Definition get_num_elements (element_type : ElementType.t) : M nat :=
  d <- gets data ;;
  m <- subscript (vcd_elements d !! element_type) ;;
  ret (size m).

Definition get_num_objects : M nat := get_num_elements ElementType.object.
Definition get_num_actions : M nat := get_num_elements ElementType.action.
Definition get_num_events : M nat := get_num_elements ElementType.event.
Definition get_num_contexts : M nat := get_num_elements ElementType.context.
Definition get_num_relations : M nat := get_num_elements ElementType.relation.

(** *** Attribute lookup *)

(** The names the body of [class VCD] binds with [def]. *)
Definition methods : list string :=
  [ "__init__"; "set_use_uuid"; "reset"; "__get_uid_to_assign";
    "__set_vcd_frame_intervals"; "__update_vcd_frame_intervals"; "__add_frame";
    "__compute_last_uid"; "__add_frames"; "__add_element"; "__update_element";
    "__modify_element"; "__create_update_element"; "__add_element_data";
    "__create_update_element_data_pointers"; "__create_update_element_data";
    "__rm_frame"; "add_file_version"; "add_metadata_properties"; "add_name";
    "add_annotator"; "add_comment"; "add_ontology"; "add_stream";
    "add_frame_properties"; "add_odometry"; "add_stream_properties"; "save_frame";
    "save"; "validate"; "stringify"; "stringify_frame"; "update_object";
    "update_action"; "update_context"; "update_relation"; "add_object"; "add_action";
    "add_event"; "add_context"; "add_relation"; "add_rdf";
    "add_relation_object_action"; "add_relation_action_action";
    "add_relation_object_object"; "add_relation_action_object";
    "add_relation_subject_object"; "add_object_data"; "add_action_data";
    "add_event_data"; "add_context_data"; "modify_action"; "modify_object";
    "modify_event"; "modify_context"; "modify_relation"; "modify_action_data";
    "modify_object_data"; "modify_event_data"; "modify_context_data";
    "update_element_data"; "update_action_data"; "update_object_data";
    "update_event_data"; "update_context_data"; "get_data"; "has_objects";
    "has_actions"; "has_contexts"; "has_events"; "has_relations"; "has"; "get_all";
    "get_element"; "get_object"; "get_action"; "get_event"; "get_context";
    "get_relation"; "get_frame"; "get_elements_of_type";
    "get_elements_with_element_data_name"; "get_objects_with_object_data_name";
    "get_actions_with_action_data_name"; "get_events_with_event_data_name";
    "get_contexts_with_context_data_name"; "get_frames_with_element_data_name";
    "get_frames_with_object_data_name"; "get_frames_with_action_data_name";
    "get_frames_with_event_data_name"; "get_frames_with_context_data_name";
    "get_element_data"; "get_object_data"; "get_action_data"; "get_event_data";
    "get_context_data"; "get_element_data_pointer";
    "get_element_data_frame_intervals"; "get_object_data_frame_intervals";
    "get_action_data_frame_intervals"; "get_event_data_frame_intervals";
    "get_context_data_frame_intervals"; "get_num_elements"; "get_num_objects";
    "get_num_actions"; "get_num_events"; "get_num_contexts"; "get_num_relations";
    "get_ontology"; "get_metadata"; "has_stream"; "get_frame_intervals";
    "get_element_frame_intervals"; "relation_has_frame_intervals";
    "rm_element_by_type"; "rm_object_by_type"; "rm_action_by_type";
    "rm_event_by_type"; "rm_context_by_type"; "rm_relation_by_type"; "rm_element";
    "rm_object"; "rm_action"; "rm_event"; "rm_context"; "rm_relation" ].

(** [vcd.<attr>(...)] for a method name: the call goes on when the class
    binds [attr], and raises [AttributeError] otherwise. *)
Definition lookup_method (attr : string) : M unit :=
  if bool_decide (attr ∈ methods) then ret tt else raise Py.AttributeError.

End VCD.

(** ** Vocabulary of the properties *)

(** Frame [n] lies in the interval [d]. *)
Definition inside (n : Z) (d : fi_dict) : Prop :=
  frame_start d <= n <= frame_end d.

(** Frame [n] lies in some interval of [l]. *)
Definition covers (l : list fi_dict) (n : Z) : Prop :=
  Exists (inside n) l.

(** Every frame of [l1] is a frame of [l2]. *)
Definition contained (l1 l2 : list fi_dict) : Prop :=
  ∀ n, covers l1 n → covers l2 n.

(** A canonical interval set: every interval has [frame_start <= frame_end],
    and each interval ends more than one frame before the next one starts
    (so the set is sorted, disjoint and without contiguous intervals). *)
Fixpoint canonical (l : list fi_dict) : bool :=
  match l with
  | [] => true
  | x :: r =>
      (frame_start x <=? frame_end x)
      && match r with
         | [] => true
         | y :: _ => frame_end x + 1 <? frame_start y
         end
      && canonical r
  end.

(** The order [fuse] sorts by. *)
Definition le_start (a b : fi_dict) : Prop := frame_start a <= frame_start b.

(** The two views of a [FrameIntervals] instance agree. *)
Definition coherent (fi : FrameIntervals.t) : Prop :=
  FrameIntervals.fis_num fi
  = utils.as_frame_intervals_array_tuples (FrameIntervals.fis_dict fi).

(** The element [uid] of type [element_type] in a document. *)
Definition element_at (d : Data) (element_type : ElementType.t) (uid : uid_key)
    : option Element :=
  match vcd_elements d !! element_type with
  | Some m => m !! uid
  | None => None
  end.

(** The shadow of the element [uid] of type [element_type] in frame [f]. *)
Definition shadow_at (d : Data) (f : Z) (element_type : ElementType.t) (uid : uid_key)
    : option FrameElement :=
  match VCD.get_frame d f with
  | Some frame =>
      match fr_elements frame !! element_type with
      | Some m => m !! uid
      | None => None
      end
  | None => None
  end.

(** The data pointer named [data_name] of an element. *)
Definition pointer_at (e : Element) (data_name : string) : option ElementDataPointer :=
  match el_data_pointers e with
  | Some edps => edps !! data_name
  | None => None
  end.

(** The invariant of the data model on data pointers: the interval of every
    pointer is contained in the interval of its element. *)
Definition pointers_within_elements (d : Data) : Prop :=
  ∀ element_type uid e data_name p,
    element_at d element_type uid = Some e →
    pointer_at e data_name = Some p →
    contained (edp_frame_intervals p) (default [] (el_frame_intervals e)).

(** The invariant of the data model on the document-wide interval list: it
    covers every frame number that is a key of the frames map. *)
Definition frames_within_frame_intervals (d : Data) : Prop :=
  ∀ f fs fr, vcd_frames d = Some fs → fs !! f = Some fr →
    covers (default [] (vcd_frame_intervals d)) f.

(** A computation leaves the observation [f] of the state as it is, whether
    it returns or raises. *)
Definition preserves {A X : Type} (f : State → X) (m : M A) : Prop :=
  ∀ s, f (exec m s) = f s.

(** The document-wide interval list of an instance. *)
Definition doc_frame_intervals (s : State) : option (list fi_dict) :=
  vcd_frame_intervals (data s).

(** A method started in a state satisfying [P] returns (it does not raise),
    with a value and in a state satisfying [Q]. *)
Definition returns {A : Type}
    (P : State → Prop) (m : M A) (Q : A → State → Prop) : Prop :=
  ∀ s, P s → ∃ a s', run m s = (Ok a, s') ∧ Q a s'.

(** A method started in a state satisfying [P], if it returns, does so with
    a value and in a state satisfying [Q]. *)
Definition ensures {A : Type}
    (P : State → Prop) (m : M A) (Q : A → State → Prop) : Prop :=
  ∀ s a s', P s → run m s = (Ok a, s') → Q a s'.

(** The element [uid] of type [element_type] exists in the element maps
    [els], with the interval field [fi] and the pointer map [ptrs]. *)
Definition element_has (element_type : ElementType.t) (uid : uid_key)
    (fi : option (list fi_dict)) (ptrs : option (gmap string ElementDataPointer))
    (els : gmap ElementType.t (gmap uid_key Element)) : Prop :=
  ∃ m e, els !! element_type = Some m ∧ m !! uid = Some e
         ∧ el_frame_intervals e = fi ∧ el_data_pointers e = ptrs.

(** Every pointer of a pointer map reshaped for the interval [fi]. *)
Definition reshape_pointers (fi : FrameIntervals.t)
    (ptrs : option (gmap string ElementDataPointer))
    : option (gmap string ElementDataPointer) :=
  match ptrs with
  | Some edps => Some (VCD.reshape_pointer fi <$> edps)
  | None => None
  end.

(** Frame [n] is a key of the frames map. *)
Definition frame_exists (n : Z) (s : State) : Prop :=
  is_Some (VCD.get_frame (data s) n).

(** The stream [stream_name] is declared in the metadata. *)
Definition stream_declared (stream_name : string) (s : State) : Prop :=
  ∃ md streams, vcd_metadata (data s) = Some md ∧ md_streams md = Some streams
                ∧ is_Some (streams !! stream_name).

(** The frames map together with the document-wide interval list. *)
Definition doc_span (s : State) : option (gmap Z Frame) * option (list fi_dict) :=
  (vcd_frames (data s), vcd_frame_intervals (data s)).

(** The element maps of an instance. *)
Definition doc_elements (s : State) : gmap ElementType.t (gmap uid_key Element) :=
  vcd_elements (data s).

(** *** Scenarios *)

(** The payloads of the scenario. *)
Definition bbox_position : ElementData :=
  {| ed_type := "bbox"; ed_name := "position"; ed_val := VSeq [100; 100; 200; 400];
     ed_attributes := None; ed_in_stream := None |}.
Definition text_color : ElementData :=
  {| ed_type := "text"; ed_name := "color"; ed_val := VText "red";
     ed_attributes := None; ed_in_stream := None |}.

(** An object with a bounding box over [(0,10)] and a text over [(6,10)]. *)
Definition car_scenario : M unit :=
  VCD.add_object "BMW" "#Car" FvNone UNone UNone None ;;;
  VCD.add_object_data (UStr "0") bbox_position (FvTuple (0, 10)) ;;;
  VCD.add_object_data (UStr "0") text_color (FvTuple (6, 10)).

(** An object with a text payload over [(6,10)], before and after its
    interval is replaced by [(0,5)]. *)
Definition shrink_before : State :=
  exec (VCD.add_object "BMW" "#Car" FvNone UNone UNone None ;;;
        VCD.add_object_data (UStr "0") text_color (FvTuple (6, 10)))
       (VCD.init (λ _, "")).
Definition shrink_after : State :=
  exec (VCD.modify_object (UStr "0") None None (FvTuple (0, 5)) UNone None) shrink_before.

(** *** Triples *)

(** A method started in a state satisfying [P] either returns, with a value
    and in a state satisfying [Q], or raises, with an exception and in a
    state satisfying [R]. *)
Definition triple {A : Type} (P : State → Prop) (m : M A)
    (Q : A → State → Prop) (R : Py.exn → State → Prop) : Prop :=
  ∀ s, P s →
    match run m s with
    | (Ok a, s') => Q a s'
    | (Raise e, s') => R e s'
    end.

(** A method that never raises. *)
Definition total {A : Type} (m : M A) : Prop :=
  ∀ s, ∃ a s', run m s = (Ok a, s').

(** The URI [uri] is a value of the ontology map. *)
Definition registered (d : Data) (uri : string) : Prop :=
  ∃ onts k, vcd_ontologies d = Some onts ∧ onts !! k = Some uri.

(** The declared streams of a document (none when there is no metadata or
    no stream map). *)
Definition streams_of (d : Data) : gmap string Stream :=
  default ∅ (md_streams (VCD.get_metadata d)).


(** The state of the UID allocator: the mode, the counters, and the number
    of UUIDs drawn. *)
Definition allocator (s : State) : bool * gmap ElementType.t Z * nat :=
  (use_uuid s, lastUID s, uuid4_calls s).

(** The root record that an upsert with the given arguments makes of the
    record [e], in a document whose ontologies are those of [d]. *)
Definition upserted (d : Data) (name semantic_type : option string)
    (fi : FrameIntervals.t) (ont_uid : option string) (e : Element) : Element :=
  {| el_name := match name with Some _ => name | None => el_name e end;
     el_type := match semantic_type with Some _ => semantic_type | None => el_type e end;
     el_frame_intervals :=
       if FrameIntervals.empty fi then el_frame_intervals e
       else Some (FrameIntervals.get_dict fi);
     el_ontology_uid :=
       match ont_uid with
       | Some o =>
           if VCD.truthy_str (VCD.get_ontology d o) then ont_uid else el_ontology_uid e
       | None => el_ontology_uid e
       end;
     el_stream := el_stream e;
     el_data := el_data e;
     el_data_pointers :=
       if FrameIntervals.empty fi then el_data_pointers e
       else reshape_pointers fi (el_data_pointers e) |}.

(** The element maps once the record [e] is stored under [uid]. *)
Definition with_element (els : gmap ElementType.t (gmap uid_key Element))
    (element_type : ElementType.t) (uid : uid_key) (e : Element)
    : gmap ElementType.t (gmap uid_key Element) :=
  <[element_type := <[uid := e]> (default ∅ (els !! element_type))]> els.

(** The frames of [d'] extend those of [d]: every shadow of [d] is in [d']
    with the same content, and every frame of [d] is in [d'] with the same
    frame properties. *)
Definition frames_extend (d d' : Data) : Prop :=
  (∀ f element_type uid x,
     shadow_at d f element_type uid = Some x →
     shadow_at d' f element_type uid = Some x)
  ∧ (∀ f fr, VCD.get_frame d f = Some fr →
       ∃ fr', VCD.get_frame d' f = Some fr' ∧ fr_properties fr' = fr_properties fr).

(** The payload that the code finds under the name [n] in a payload list:
    the first one of that name. *)
Definition payload_named (n : string) (l : list ElementData) : option ElementData :=
  snd <$> list_find (λ val, ed_name val = n) l.

(** One turn of the inner loop of [__add_frames], for the frame [f]. *)
Definition add_frames_body (element_type : ElementType.t) (uid_s : string) (f : Z)
    : M unit :=
  VCD.__add_frame f ;;;
  d <- gets data ;;
  match VCD.get_frame d f with
  | None => raise Py.AttributeError
  | Some frame =>
      VCD.put_frame f (VCD.frame_setdefault_element element_type (UidStr uid_s) frame)
  end.

(** One turn of the inner loop of the dynamic branch of
    [__create_update_element_data], for the frame [f]. *)
Definition frame_data_body (element_type : ElementType.t) (uid : uid_key)
    (element_data : ElementData) (f : Z) : M unit :=
  d <- gets data ;;
  (match VCD.get_frame d f with
   | None => VCD.__add_frame f
   | Some _ => ret tt
   end) ;;;
  d <- gets data ;;
  match VCD.get_frame d f with
  | None => raise Py.AttributeError
  | Some frame =>
      let frame1 := VCD.frame_setdefault_element element_type uid frame in
      let bucket := default ∅ (fr_elements frame1 !! element_type) in
      let element := default empty_frame_element (bucket !! uid) in
      let element' :=
        {| fe_data := VCD.data_upsert element_data (fe_data element) |} in
      VCD.put_frame f
        (set_fr_elements
           (<[element_type := <[uid := element']> bucket]> (fr_elements frame1))
           frame1)
  end.

(** The shadow of the element in frame [f] holds the payload [x]: it is the
    one found under its name in the list of its kind. *)
Definition frame_holds (d : Data) (f : Z) (element_type : ElementType.t)
    (uid : uid_key) (x : ElementData) : Prop :=
  ∃ fe, shadow_at d f element_type uid = Some fe
        ∧ payload_named (ed_name x) (default [] (default ∅ (fe_data fe) !! ed_type x))
          = Some x.

(** The frame that one turn of that loop makes of [frame]. *)
Definition frame_with_payload (element_type : ElementType.t) (uid : uid_key)
    (element_data : ElementData) (frame : Frame) : Frame :=
  let frame1 := VCD.frame_setdefault_element element_type uid frame in
  let bucket := default ∅ (fr_elements frame1 !! element_type) in
  let element := default empty_frame_element (bucket !! uid) in
  let element' :=
    {| fe_data := VCD.data_upsert element_data (fe_data element) |} in
  set_fr_elements
    (<[element_type := <[uid := element']> bucket]> (fr_elements frame1))
    frame1.

(** ** Frame-interval algebra *)

Section interval_algebra.

Implicit Types (d x y cur : fi_dict) (l r : list fi_dict) (n : Z).

Lemma covers_nil n : covers [] n ↔ False.
Proof. unfold covers. rewrite Exists_nil. tauto. Qed.

Lemma covers_cons n x l : covers (x :: l) n ↔ inside n x ∨ covers l n.
Proof. unfold covers. apply Exists_cons. Qed.

Lemma covers_app n l r : covers (l ++ r) n ↔ covers l n ∨ covers r n.
Proof. unfold covers. apply Exists_app. Qed.

Lemma covers_insert_by_start n x l :
  covers (utils.insert_by_start x l) n ↔ inside n x ∨ covers l n.
Proof.
  induction l as [|y r IH]; simpl.
  - rewrite covers_cons. reflexivity.
  - destruct (frame_start x <=? frame_start y).
    + rewrite !covers_cons. tauto.
    + rewrite !covers_cons, IH. tauto.
Qed.

Lemma covers_sort_by_start n l :
  covers (utils.sort_by_start l) n ↔ covers l n.
Proof.
  induction l as [|x r IH]; simpl.
  - reflexivity.
  - rewrite covers_insert_by_start, covers_cons, IH. tauto.
Qed.

Lemma insert_by_start_sorted x l :
  StronglySorted le_start l → StronglySorted le_start (utils.insert_by_start x l).
Proof.
  induction 1 as [|y r Hr IH Hy]; simpl.
  - repeat constructor.
  - destruct (Z.leb_spec (frame_start x) (frame_start y)) as [Hle|Hgt].
    + constructor; [by constructor|].
      constructor; [exact Hle|].
      eapply Forall_impl; [exact Hy|]. unfold le_start. intros; lia.
    + constructor; [exact IH|].
      apply Forall_forall. intros z Hz.
      assert (covers_like : z = x ∨ z ∈ r).
      { clear -Hz. induction r as [|w r IHr]; simpl in Hz.
        - apply list_elem_of_singleton in Hz. by left.
        - destruct (frame_start x <=? frame_start w).
          + apply elem_of_cons in Hz as [->|Hz]; [by left|by right].
          + apply elem_of_cons in Hz as [->|Hz]; [right; left|].
            destruct (IHr Hz) as [->|?]; [by left|right; by right]. }
      destruct covers_like as [->|Hz'].
      * unfold le_start. lia.
      * rewrite Forall_forall in Hy. by apply Hy.
Qed.

Lemma sort_by_start_sorted l : StronglySorted le_start (utils.sort_by_start l).
Proof.
  induction l as [|x r IH]; simpl.
  - constructor.
  - by apply insert_by_start_sorted.
Qed.

(** Where a merge happens, the covering interval holds exactly the frames
    of the two intervals. *)
Lemma inside_covering n cur x :
  frame_start cur <= frame_start x →
  utils.intersects cur x || utils.consecutive cur x = true →
  inside n (utils.covering cur x) ↔ inside n cur ∨ inside n x.
Proof.
  unfold utils.intersects, utils.consecutive, utils.covering, inside; simpl.
  intros Hle Ht. apply orb_true_iff in Ht as [Ht|Ht].
  - apply Z.leb_le in Ht. lia.
  - apply Z.eqb_eq in Ht. lia.
Qed.

Lemma covers_merge_sorted n l : ∀ cur,
  StronglySorted le_start (cur :: l) →
  covers (utils.merge_sorted cur l) n ↔ inside n cur ∨ covers l n.
Proof.
  induction l as [|x r IH]; intros cur Hs; simpl.
  - rewrite covers_cons. reflexivity.
  - apply StronglySorted_inv in Hs as [Hs Hcur].
    apply Forall_cons in Hcur as [Hx Hcur].
    destruct (utils.intersects cur x || utils.consecutive cur x) eqn:Ht.
    + rewrite IH.
      * rewrite (inside_covering n cur x Hx Ht), covers_cons. tauto.
      * apply StronglySorted_inv in Hs as [Hs Hxr].
        constructor; [exact Hs|].
        eapply Forall_impl; [exact Hcur|].
        unfold le_start, utils.covering; simpl. intros; lia.
    + rewrite covers_cons, (IH x Hs), covers_cons. tauto.
Qed.

(** [fuse] keeps the set of frames, whatever the input. *)
Lemma covers_fuse n l : covers (utils.fuse_frame_intervals l) n ↔ covers l n.
Proof.
  unfold utils.fuse_frame_intervals.
  pose proof (sort_by_start_sorted l) as Hs.
  rewrite <- (covers_sort_by_start n l).
  destruct (utils.sort_by_start l) as [|x r].
  - reflexivity.
  - rewrite (covers_merge_sorted n r x Hs), covers_cons. reflexivity.
Qed.

End interval_algebra.

Section fuse_canonical.

Implicit Types (x y : fi_dict) (l r : list fi_dict).

Lemma canonical_cons x r :
  canonical (x :: r) = true →
  frame_start x <= frame_end x ∧ canonical r = true
  ∧ match r with
    | [] => True
    | y :: _ => frame_end x + 1 < frame_start y
    end.
Proof.
  simpl. intros H.
  apply andb_true_iff in H as [H Hr].
  apply andb_true_iff in H as [Hx Hy].
  apply Z.leb_le in Hx.
  destruct r as [|y r']; [done|].
  apply Z.ltb_lt in Hy. done.
Qed.

Lemma sort_by_start_canonical l :
  canonical l = true → utils.sort_by_start l = l.
Proof.
  induction l as [|x r IH]; [done|].
  intros H. destruct (canonical_cons x r H) as (Hx & Hr & Hgap).
  simpl. rewrite (IH Hr).
  destruct r as [|y r']; [done|]. simpl.
  destruct (Z.leb_spec (frame_start x) (frame_start y)); [done|lia].
Qed.

Lemma merge_sorted_canonical r : ∀ x,
  canonical (x :: r) = true → utils.merge_sorted x r = x :: r.
Proof.
  induction r as [|y r' IH]; intros x H; [done|].
  destruct (canonical_cons x (y :: r') H) as (Hx & Hr & Hgap).
  destruct (canonical_cons y r' Hr) as (Hy & _ & _).
  simpl.
  assert (utils.intersects x y || utils.consecutive x y = false) as ->.
  { unfold utils.intersects, utils.consecutive.
    apply orb_false_iff. split; [apply Z.leb_gt|apply Z.eqb_neq]; lia. }
  by rewrite (IH y Hr).
Qed.

(** A canonical set is a fixed point of [fuse]. *)
Lemma fuse_canonical l :
  canonical l = true → utils.fuse_frame_intervals l = l.
Proof.
  intros H. unfold utils.fuse_frame_intervals.
  rewrite (sort_by_start_canonical l H).
  destruct l as [|x r]; [done|].
  by apply merge_sorted_canonical.
Qed.

Lemma dicts_of_ItDict l : FrameIntervals.dicts_of (ItDict <$> l) = l.
Proof. induction l as [|x r IH]; [done|]. simpl. f_equal. exact IH. Qed.

Lemma tuples_of_ItTuple (l : list (Z * Z)) :
  FrameIntervals.tuples_of (ItTuple <$> l) = l.
Proof. induction l as [|x r IH]; [done|]. simpl. f_equal. exact IH. Qed.

Lemma forallb_is_dict l : forallb FrameIntervals.is_dict (ItDict <$> l) = true.
Proof. induction l as [|x r IH]; simpl; done. Qed.

Lemma forallb_is_tuple (l : list (Z * Z)) :
  forallb FrameIntervals.is_tuple (ItTuple <$> l) = true.
Proof. induction l as [|x r IH]; simpl; done. Qed.

(** What the constructor stores for a list of start/end records. *)
Lemma of_dicts_fis_dict l :
  FrameIntervals.fis_dict (FrameIntervals.of_dicts l) = utils.fuse_frame_intervals l.
Proof.
  unfold FrameIntervals.of_dicts, FrameIntervals.init.
  destruct l as [|x r]; [done|].
  case_bool_decide as Hlen; [done|].
  change (ItDict <$> x :: r) with (ItDict x :: (ItDict <$> r)).
  simpl forallb. rewrite forallb_is_dict. simpl.
  by rewrite dicts_of_ItDict.
Qed.

End fuse_canonical.

(** C8. [fuse] is idempotent: it returns a canonical interval set as it is,
    and so does the constructor of [FrameIntervals] that applies it to a
    list of records; it turns the contiguous [(0,5),(6,10)] into [(0,10)],
    and leaves the gapped [(0,5),(7,10)] as two intervals. *)
Theorem fuse_idempotent (l : list fi_dict) (H : canonical l = true) :
  utils.fuse_frame_intervals l = l
  ∧ FrameIntervals.get_dict (FrameIntervals.init (FvList (ItDict <$> l))).1 = l
  ∧ utils.fuse_frame_intervals [FiDict 0 5; FiDict 6 10] = [FiDict 0 10]
  ∧ utils.fuse_frame_intervals [FiDict 0 5; FiDict 7 10] = [FiDict 0 5; FiDict 7 10].
Proof.
  split; [by apply fuse_canonical|].
  split; [|split; reflexivity].
  unfold FrameIntervals.get_dict.
  rewrite (of_dicts_fis_dict l : FrameIntervals.fis_dict (FrameIntervals.init _).1 = _).
  by apply fuse_canonical.
Qed.

Lemma fuse_idempotent_witness :
  canonical [FiDict 0 5; FiDict 7 10; FiDict 20 20] = true
  ∧ utils.fuse_frame_intervals [FiDict 0 5; FiDict 7 10; FiDict 20 20]
    = [FiDict 0 5; FiDict 7 10; FiDict 20 20].
Proof.
  split; [reflexivity|].
  apply (fuse_idempotent [FiDict 0 5; FiDict 7 10; FiDict 20 20]). reflexivity.
Defined.

(** ** Reasoning about methods *)

Section monad_facts.

Context {A B : Type}.

Lemma run_bind (m : M A) (k : A → M B) s :
  run (bind m k) s
  = match run m s with
    | (Ok a, s') => run (k a) s'
    | (Raise e, s') => (Raise e, s')
    end.
Proof. reflexivity. Qed.

Lemma run_bind_ok (m : M A) (k : A → M B) s a s' :
  run m s = (Ok a, s') → run (bind m k) s = run (k a) s'.
Proof. intros H. rewrite run_bind, H. reflexivity. Qed.

Lemma run_bind_raise (m : M A) (k : A → M B) s e s' :
  run m s = (Raise e, s') → run (bind m k) s = (Raise e, s').
Proof. intros H. rewrite run_bind, H. reflexivity. Qed.

End monad_facts.

Lemma run_warns (w : list string) s :
  run (for_each w warn) s = (Ok tt, set_warnings (warnings s ++ w) s).
Proof.
  revert s. induction w as [|x r IH]; intros s; simpl.
  - unfold run, ret. rewrite app_nil_r. by destruct s.
  - rewrite run_bind. unfold run at 1, warn, modify. rewrite IH.
    simpl. by rewrite <- app_assoc.
Qed.

(** The constructor only adds its warnings to the log. *)
Lemma run_new_FrameIntervals fv s :
  run (new_FrameIntervals fv) s
  = (Ok (FrameIntervals.init fv).1,
     set_warnings (warnings s ++ (FrameIntervals.init fv).2) s).
Proof.
  unfold new_FrameIntervals. rewrite run_bind, run_warns. reflexivity.
Qed.

Section preserves_facts.

Context {X : Type} (f : State → X).

Lemma preserves_ret {A} (a : A) : preserves f (ret a).
Proof. by intros s. Qed.

Lemma preserves_raise {A} e : preserves f (raise e : M A).
Proof. by intros s. Qed.

Lemma preserves_gets {A} (g : State → A) : preserves f (gets g).
Proof. by intros s. Qed.

Lemma preserves_subscript {A} (x : option A) : preserves f (subscript x).
Proof. by destruct x. Qed.

Lemma preserves_modify (g : State → State) :
  (∀ s, f (g s) = f s) → preserves f (modify g).
Proof. intros H s. apply H. Qed.

Lemma preserves_bind {A B} (m : M A) (k : A → M B) :
  preserves f m → (∀ a, preserves f (k a)) → preserves f (bind m k).
Proof.
  intros Hm Hk s. unfold exec, bind. specialize (Hm s). unfold exec in Hm.
  destruct (m s) as [[a|e] s'] eqn:E; simpl in *.
  - rewrite <- Hm. apply Hk.
  - exact Hm.
Qed.

Lemma preserves_for_each {A} (l : list A) (body : A → M unit) :
  (∀ x, preserves f (body x)) → preserves f (for_each l body).
Proof.
  intros H. induction l as [|x r IH]; simpl.
  - apply preserves_ret.
  - apply preserves_bind; [apply H|intros _; exact IH].
Qed.

End preserves_facts.

(** One step of a proof that a method preserves an observation: follow the
    structure of the method. *)
Ltac preserves_step :=
  lazymatch goal with
  | |- preserves _ (bind _ _) => apply preserves_bind; [|intros ?]
  | |- preserves _ (ret _) => apply preserves_ret
  | |- preserves _ (raise _) => apply preserves_raise
  | |- preserves _ (gets _) => apply preserves_gets
  | |- preserves _ (subscript _) => apply preserves_subscript
  | |- preserves _ (for_each _ _) => apply preserves_for_each; intros ?
  | |- preserves _ (modify _) => apply preserves_modify; intros ?; reflexivity
  | |- preserves _ (modify_data _) => apply preserves_modify; intros ?; reflexivity
  | |- preserves _ (warn _) => apply preserves_modify; intros ?; reflexivity
  | |- preserves _ (match ?x with _ => _ end) => destruct x
  | |- preserves _ (let _ := _ in _) => cbv zeta
  end.

Ltac preserves_auto := repeat preserves_step.

(** ** Payload attachment to a missing element (C2) *)

(** For the element types object, action and context, attaching a payload
    to a UID that names no element returns [None] and leaves the instance as
    it is, up to the warnings of the interval constructor. *)
Lemma add_element_data_absent element_type uid element_data fv s :
  VCD.has (data s) element_type uid = false →
  run (fi <- new_FrameIntervals fv ;;
       VCD.__add_element_data element_type uid element_data fi) s
  = (Ok tt, set_warnings (warnings s ++ (FrameIntervals.init fv).2) s).
Proof.
  intros Hhas. rewrite run_bind, run_new_FrameIntervals.
  unfold VCD.__add_element_data, run, bind, gets.
  cbn [data set_warnings]. rewrite Hhas. reflexivity.
Qed.

(** C2. [add_event_data] never reaches the test on the UID: it raises
    [AttributeError] on the misspelt member [ElementType.evevt], whatever its
    arguments and the document, which it leaves unchanged; it does not
    return. *)
Theorem add_event_data_raises uid event_data fv s :
  run (VCD.add_event_data uid event_data fv) s = (Raise Py.AttributeError, s).
Proof. reflexivity. Qed.

(** ** A UID of unsupported shape (C3) *)

(** C3. On a fresh document, [add_object] with an ASCII text UID that is
    neither numeric nor UUID-shaped warns, and then creates the element all
    the same, under the empty text as its key, which it returns. *)
Theorem add_object_unsupported_uid_creates uuid4 name semantic_type uid :
  Py.isascii uid = true →
  Py.isnumeric uid = false →
  Py.pattern_uuid_match uid = false →
  let call := VCD.add_object name semantic_type FvNone (UStr uid) UNone None in
  let s := VCD.init uuid4 in
  eval call s = Ok (Some (UidStr ""))
  ∧ warnings (exec call s) = [VCD.unsupported_uid]
  ∧ element_at (data (exec call s)) ElementType.object (UidStr "")
    = Some (set_el_type (Some semantic_type) (set_el_name (Some name) empty_element))
  ∧ data (exec call s) ≠ data s.
Proof.
  intros _ H1 H2 call s.
  assert (run call s
          = (Ok (Some (UidStr "")),
             set_warnings [VCD.unsupported_uid]
               (set_data
                  (set_vcd_elements
                     {[ElementType.object :=
                         {[UidStr "" := set_el_type (Some semantic_type)
                                         (set_el_name (Some name) empty_element)]}]}
                     VCD.fresh_data) s))) as Hrun.
  { unfold call, s, run, VCD.add_object, new_FrameIntervals, VCD.__add_element.
    cbn [FrameIntervals.init for_each snd fst bind ret VCD.coerce_uid VCD.arg_of_text].
    unfold VCD.__get_uid_to_assign. rewrite H1, H2.
    vm_compute. reflexivity. }
  unfold eval, exec. fold (run call s). rewrite Hrun. simpl.
  split; [done|]. split; [done|]. split.
  - vm_compute. reflexivity.
  - intros Heq. apply (f_equal vcd_elements) in Heq. simpl in Heq.
    apply (f_equal (λ m : gmap _ _, m !! ElementType.object)) in Heq.
    vm_compute in Heq. discriminate.
Qed.

Lemma add_object_unsupported_uid_creates_witness :
  Py.isascii "abc" = true
  ∧ Py.isnumeric "abc" = false
  ∧ Py.pattern_uuid_match "abc" = false
  ∧ eval (VCD.add_object "x" "" FvNone (UStr "abc") UNone None) (VCD.init (λ _, ""))
    = Ok (Some (UidStr "")).
Proof.
  split; [reflexivity|]. split; [reflexivity|]. split; [reflexivity|].
  apply (add_object_unsupported_uid_creates (λ _, "") "x" "" "abc"); reflexivity.
Defined.

(** ** Registering an ontology twice (C9) *)

Lemma run_add_ontology_fresh uuid4 uri :
  run (VCD.add_ontology uri) (VCD.init uuid4)
  = (Ok (Some "0"),
     set_data (set_vcd_ontologies (Some {["0" := uri]}) VCD.fresh_data) (VCD.init uuid4)).
Proof. vm_compute. reflexivity. Qed.

Lemma run_add_ontology_again uri s onts k :
  vcd_ontologies (data s) = Some onts →
  onts !! k = Some uri →
  run (VCD.add_ontology uri) s
  = (Ok None, set_warnings (warnings s ++ ["WARNING: adding an already existing ontology"]) s).
Proof.
  intros Ho Hk. unfold VCD.add_ontology, run, bind, modify_data, modify, gets, subscript.
  rewrite Ho. cbn [data set_data]. destruct s as [uu last d w uv uc]; simpl in *.
  rewrite Ho. cbn [ret].
  assert (existsb (λ kv : string * string, String.eqb kv.2 uri) (map_to_list onts) = true)
    as ->.
  { apply existsb_exists. exists (k, uri). split.
    - apply list_elem_of_In, elem_of_map_to_list. exact Hk.
    - simpl. apply String.eqb_refl. }
  reflexivity.
Qed.

(** C9. On a fresh document the first [add_ontology] of a URI registers it
    and returns ["0"]; the second returns [None] and leaves the ontology map
    with its single entry. *)
Theorem add_ontology_twice uuid4 uri :
  let s0 := VCD.init uuid4 in
  let s1 := exec (VCD.add_ontology uri) s0 in
  let s2 := exec (VCD.add_ontology uri) s1 in
  eval (VCD.add_ontology uri) s0 = Ok (Some "0")
  ∧ vcd_ontologies (data s1) = Some {["0" := uri]}
  ∧ eval (VCD.add_ontology uri) s1 = Ok None
  ∧ vcd_ontologies (data s2) = vcd_ontologies (data s1)
  ∧ size <$> vcd_ontologies (data s2) = Some 1%nat.
Proof.
  intros s0 s1 s2.
  pose proof (run_add_ontology_fresh uuid4 uri) as H1. fold s0 in H1.
  assert (Hs1 : s1 = set_data (set_vcd_ontologies (Some {["0" := uri]}) VCD.fresh_data) s0).
  { unfold s1, exec. fold (run (VCD.add_ontology uri) s0). by rewrite H1. }
  assert (Ho1 : vcd_ontologies (data s1) = Some {["0" := uri]}) by (by rewrite Hs1).
  pose proof (run_add_ontology_again uri s1 {["0" := uri]} "0" Ho1
                (lookup_singleton_eq "0" uri)) as H2.
  assert (Hs2 : data s2 = data s1).
  { unfold s2, exec. fold (run (VCD.add_ontology uri) s1). by rewrite H2. }
  split; [unfold eval; fold (run (VCD.add_ontology uri) s0); by rewrite H1|].
  split; [exact Ho1|].
  split; [unfold eval; fold (run (VCD.add_ontology uri) s1); by rewrite H2|].
  split; [by rewrite Hs2|].
  rewrite Hs2, Ho1. simpl. by rewrite map_size_singleton.
Qed.

(** ** Removing an element without [frame_intervals] (C10) *)

(** An element created without a frame value has no [frame_intervals]
    key: here the first object of a fresh document. *)
Lemma add_object_no_frame_value uuid4 name semantic_type :
  let s := exec (VCD.add_object name semantic_type FvNone UNone UNone None) (VCD.init uuid4) in
  element_at (data s) ElementType.object (UidStr "0")
  = Some (set_el_type (Some semantic_type) (set_el_name (Some name) empty_element)).
Proof. vm_compute. reflexivity. Qed.

(** C10. [rm_element] on an existing element whose record has no
    [frame_intervals] key raises [KeyError] and leaves the document, the
    element included, as it was; so a call that removes an existing element
    found that key in its record. *)
Theorem rm_element_needs_frame_intervals s element_type uid k m e :
  vcd_elements (data s) !! element_type = Some m →
  key_of_arg uid = Some k →
  m !! k = Some e →
  (el_frame_intervals e = None →
   run (VCD.rm_element element_type uid) s = (Raise Py.KeyError, s))
  ∧ (∀ s', run (VCD.rm_element element_type uid) s = (Ok tt, s') →
           is_Some (el_frame_intervals e)).
Proof.
  intros Hm Hk He.
  assert (el_frame_intervals e = None →
          run (VCD.rm_element element_type uid) s = (Raise Py.KeyError, s)) as Hnone.
  { intros Hfi. unfold VCD.rm_element, run, bind, gets, subscript.
    rewrite Hm. cbn [ret]. unfold VCD.has. rewrite Hm, Hk, He. simpl.
    rewrite He. cbn [ret]. rewrite Hfi. reflexivity. }
  split; [exact Hnone|].
  intros s' Hrun. destruct (el_frame_intervals e) eqn:Hfi; [by eexists|].
  rewrite (Hnone eq_refl) in Hrun. discriminate.
Qed.

Lemma rm_element_needs_frame_intervals_witness :
  run (VCD.rm_object (UStr "0"))
    (exec (VCD.add_object "BMW" "#Car" FvNone UNone UNone None) (VCD.init (λ _, "")))
  = (Raise Py.KeyError,
     exec (VCD.add_object "BMW" "#Car" FvNone UNone UNone None) (VCD.init (λ _, ""))).
Proof.
  refine (proj1 (rm_element_needs_frame_intervals
                   (exec (VCD.add_object "BMW" "#Car" FvNone UNone UNone None)
                      (VCD.init (λ _, "")))
                   ElementType.object (UStr "0")
                   (UidStr "0")
                   {[UidStr "0" := set_el_type (Some "#Car")
                                     (set_el_name (Some "BMW") empty_element)]}
                   (set_el_type (Some "#Car") (set_el_name (Some "BMW") empty_element))
                   _ _ _) _).
  - vm_compute. reflexivity.
  - reflexivity.
  - vm_compute. reflexivity.
  - reflexivity.
Defined.

(** ** Frames created by frame properties (C6) *)

Lemma put_frame_keeps_frame_intervals n fr :
  preserves doc_frame_intervals (VCD.put_frame n fr).
Proof. unfold VCD.put_frame. preserves_auto. Qed.

Lemma add_frame_keeps_frame_intervals n :
  preserves doc_frame_intervals (VCD.__add_frame n).
Proof.
  unfold VCD.__add_frame. preserves_auto.
  apply put_frame_keeps_frame_intervals.
Qed.

Lemma update_frame_keeps_frame_intervals n g :
  preserves doc_frame_intervals (VCD.update_frame n g).
Proof.
  unfold VCD.update_frame. preserves_auto.
  apply put_frame_keeps_frame_intervals.
Qed.

(** None of the three calls that attach properties to a frame writes the
    document-wide interval list. *)
Lemma add_frame_properties_keeps_frame_intervals n timestamp properties :
  preserves doc_frame_intervals (VCD.add_frame_properties n timestamp properties).
Proof.
  unfold VCD.add_frame_properties.
  preserves_auto;
    first [apply add_frame_keeps_frame_intervals|apply update_frame_keeps_frame_intervals].
Qed.

Lemma add_odometry_keeps_frame_intervals n odometry :
  preserves doc_frame_intervals (VCD.add_odometry n odometry).
Proof.
  unfold VCD.add_odometry.
  preserves_auto;
    first [apply add_frame_keeps_frame_intervals|apply update_frame_keeps_frame_intervals].
Qed.

Lemma add_stream_properties_frame_keeps_frame_intervals
    stream_name properties intrinsics extrinsics n sync :
  preserves doc_frame_intervals
    (VCD.add_stream_properties stream_name properties intrinsics extrinsics
       (Some {| VCD.frame_vcd := Some n; VCD.sync_data := sync |})).
Proof.
  unfold VCD.add_stream_properties. cbn [mbind option_bind VCD.frame_vcd].
  preserves_auto;
    first [apply add_frame_keeps_frame_intervals|apply update_frame_keeps_frame_intervals].
Qed.

Lemma run_add_frame_new s fs n :
  vcd_frames (data s) = Some fs →
  fs !! n = None →
  run (VCD.__add_frame n) s
  = (Ok tt, set_data (set_vcd_frames (Some (<[n := empty_frame]> fs)) (data s)) s).
Proof.
  intros Hfs Hn. unfold VCD.__add_frame, VCD.put_frame, run, bind, gets, subscript.
  rewrite Hfs. cbn [ret]. rewrite Hn, Hfs. reflexivity.
Qed.

Lemma run_update_frame s fs n fr g :
  vcd_frames (data s) = Some fs →
  fs !! n = Some fr →
  run (VCD.update_frame n g) s
  = (Ok tt, set_data (set_vcd_frames (Some (<[n := g fr]> fs)) (data s)) s).
Proof.
  intros Hfs Hn. unfold VCD.update_frame, VCD.put_frame, run, bind, gets, subscript.
  rewrite Hfs. cbn [ret]. rewrite Hn. cbn [ret]. rewrite Hfs. reflexivity.
Qed.

(** After [update_frame] returns, the frame is a key of the frames map. *)
Lemma update_frame_frame_exists n g s s' :
  run (VCD.update_frame n g) s = (Ok tt, s') →
  is_Some (VCD.get_frame (data s') n).
Proof.
  unfold VCD.update_frame, VCD.put_frame, run, bind, gets, subscript.
  destruct (vcd_frames (data s)) as [fs|] eqn:Hfs; cbn [ret raise]; [|discriminate].
  destruct (fs !! n) as [fr|] eqn:Hn; cbn [ret raise]; [|discriminate].
  rewrite Hfs. cbn [ret]. intros [= <-].
  unfold VCD.get_frame. simpl. rewrite lookup_insert_eq. by eexists.
Qed.

Lemma fresh_not_covered uuid4 n :
  ¬ covers (default [] (doc_frame_intervals (VCD.init uuid4))) n.
Proof. unfold doc_frame_intervals. simpl. rewrite covers_nil. tauto. Qed.


Section returns_facts.

Lemma returns_ret {A} (P : State → Prop) (a : A) (Q : A → State → Prop) :
  (∀ s, P s → Q a s) → returns P (ret a) Q.
Proof. intros H s Hs. exists a, s. split; [done|by apply H]. Qed.

Lemma returns_bind {A B} (P : State → Prop) (m : M A) (k : A → M B)
    (Q : A → State → Prop) (R : B → State → Prop) :
  returns P m Q → (∀ a, returns (Q a) (k a) R) → returns P (bind m k) R.
Proof.
  intros Hm Hk s Hs. destruct (Hm s Hs) as (a & s' & Hrun & Hq).
  destruct (Hk a s' Hq) as (b & s'' & Hrun' & Hr).
  exists b, s''. split; [|done].
  by rewrite (run_bind_ok m k s a s' Hrun).
Qed.

Lemma returns_gets {A} (P : State → Prop) (g : State → A) :
  returns P (gets g) (λ a s, a = g s ∧ P s).
Proof. intros s Hs. exists (g s), s. done. Qed.

Lemma returns_modify (P Q : State → Prop) (g : State → State) :
  (∀ s, P s → Q (g s)) → returns P (modify g) (λ _, Q).
Proof. intros H s Hs. exists tt, (g s). split; [done|by apply H]. Qed.

Lemma returns_weaken {A} (P P' : State → Prop) (m : M A) (Q Q' : A → State → Prop) :
  returns P m Q → (∀ s, P' s → P s) → (∀ a s, Q a s → Q' a s) → returns P' m Q'.
Proof.
  intros Hm HP HQ s Hs. destruct (Hm s (HP s Hs)) as (a & s' & Hrun & Hq).
  exists a, s'. split; [done|by apply HQ].
Qed.

End returns_facts.

Lemma add_frame_returns n :
  returns (λ s, is_Some (vcd_frames (data s))) (VCD.__add_frame n) (λ _, frame_exists n).
Proof.
  intros s [fs Hfs]. destruct (fs !! n) as [fr|] eqn:Hn.
  - exists tt, s. split.
    + unfold VCD.__add_frame, run, bind, gets, subscript. rewrite Hfs. cbn [ret].
      by rewrite Hn.
    + unfold frame_exists, VCD.get_frame. rewrite Hfs, Hn. by eexists.
  - eexists tt, _. split; [by apply run_add_frame_new|].
    unfold frame_exists, VCD.get_frame. simpl. rewrite lookup_insert_eq. by eexists.
Qed.

Lemma update_frame_returns n g :
  returns (frame_exists n) (VCD.update_frame n g) (λ _, frame_exists n).
Proof.
  intros s [fr Hfr]. unfold VCD.get_frame in Hfr.
  destruct (vcd_frames (data s)) as [fs|] eqn:Hfs; [|done].
  eexists tt, _. split; [by eapply run_update_frame|].
  unfold frame_exists, VCD.get_frame. simpl. rewrite lookup_insert_eq. by eexists.
Qed.

Lemma add_frame_properties_returns n timestamp properties :
  returns (λ s, is_Some (vcd_frames (data s)))
    (VCD.add_frame_properties n timestamp properties) (λ _, frame_exists n).
Proof.
  unfold VCD.add_frame_properties.
  eapply returns_bind; [apply add_frame_returns|intros ?; cbv beta].
  eapply returns_bind; [apply update_frame_returns|intros ?; cbv beta].
  eapply returns_bind.
  - destruct timestamp; [apply update_frame_returns|by apply returns_ret].
  - intros ?; cbv beta. destruct properties; [apply update_frame_returns|by apply returns_ret].
Qed.

Lemma add_odometry_returns n odometry :
  returns (λ s, is_Some (vcd_frames (data s)))
    (VCD.add_odometry n odometry) (λ _, frame_exists n).
Proof.
  unfold VCD.add_odometry.
  eapply returns_bind; [apply add_frame_returns|intros ?; cbv beta].
  eapply returns_bind; [apply update_frame_returns|intros ?; cbv beta].
  apply update_frame_returns.
Qed.

Lemma add_stream_returns stream_name uri description stream_type :
  returns (λ s, is_Some (vcd_frames (data s)))
    (VCD.add_stream stream_name uri description (VCD.StMember stream_type))
    (λ _ s, is_Some (vcd_frames (data s)) ∧ stream_declared stream_name s).
Proof.
  unfold VCD.add_stream, modify_data.
  apply returns_modify. intros s Hfs. split; [exact Hfs|].
  unfold stream_declared. simpl. eexists _, _. split; [reflexivity|].
  split; [reflexivity|]. rewrite lookup_insert_eq. by eexists.
Qed.

Lemma add_stream_properties_frame_returns
    stream_name properties intrinsics extrinsics n sync :
  returns (λ s, is_Some (vcd_frames (data s)) ∧ stream_declared stream_name s)
    (VCD.add_stream_properties stream_name properties intrinsics extrinsics
       (Some {| VCD.frame_vcd := Some n; VCD.sync_data := sync |}))
    (λ _, frame_exists n).
Proof.
  assert (Hr : ∀ g, returns (λ s, is_Some (vcd_frames (data s)))
                      (VCD.__add_frame n ;;; VCD.update_frame n g) (λ _, frame_exists n)).
  { intros g. eapply returns_bind; [apply add_frame_returns|].
    intros ?; cbv beta. apply update_frame_returns. }
  intros s [Hfs (md & streams & Hmd & Hstreams & Hdecl)].
  unfold VCD.add_stream_properties. cbn [mbind option_bind VCD.frame_vcd].
  replace (bool_decide (is_Some intrinsics) || bool_decide (is_Some extrinsics)
           || bool_decide (is_Some properties)
           || bool_decide (is_Some (Some {| VCD.frame_vcd := Some n; VCD.sync_data := sync |})))
    with true.
  2:{ symmetry. apply orb_true_iff. right. apply bool_decide_eq_true. by eexists. }
  cbn [negb]. unfold run. unfold bind at 1. unfold gets at 1.
  rewrite Hmd, Hstreams. unfold dict_contains. rewrite (bool_decide_eq_true_2 _ Hdecl).
  apply (Hr _ s Hfs).
Qed.

(** C6. Attaching properties to a frame of a fresh document, through
    [add_frame_properties], [add_odometry], or [add_stream_properties] with a
    frame number, returns with that frame as a key of the frames map and
    with the document-wide interval list still empty: the list does not
    cover the frame. *)
Theorem frame_properties_outside_frame_intervals
    uuid4 n timestamp properties odometry stream_name uri description stream_type sync :
  let s0 := VCD.init uuid4 in
  let covered s := covers (default [] (vcd_frame_intervals (data s))) n in
  let s1 := exec (VCD.add_frame_properties n timestamp properties) s0 in
  let s2 := exec (VCD.add_odometry n odometry) s0 in
  let s3 := exec (VCD.add_stream stream_name uri description (VCD.StMember stream_type) ;;;
                  VCD.add_stream_properties stream_name None None None
                    (Some {| VCD.frame_vcd := Some n; VCD.sync_data := sync |})) s0 in
  (frame_exists n s1 ∧ ¬ covered s1 ∧ ¬ frames_within_frame_intervals (data s1))
  ∧ (frame_exists n s2 ∧ ¬ covered s2 ∧ ¬ frames_within_frame_intervals (data s2))
  ∧ (frame_exists n s3 ∧ ¬ covered s3 ∧ ¬ frames_within_frame_intervals (data s3)).
Proof.
  intros s0 covered s1 s2 s3.
  assert (Hfs0 : is_Some (vcd_frames (data s0))) by (by eexists).
  assert (Hbreak : ∀ s, frame_exists n s → ¬ covered s →
                        ¬ frames_within_frame_intervals (data s)).
  { intros s [fr Hfr] Hnc Hinv. apply Hnc. unfold VCD.get_frame in Hfr.
    destruct (vcd_frames (data s)) as [fs|] eqn:Hfs; [|done].
    by apply (Hinv n fs fr). }
  assert (Hall : ∀ (m : M unit),
            preserves doc_frame_intervals m →
            returns (λ s, is_Some (vcd_frames (data s))) m (λ _, frame_exists n) →
            frame_exists n (exec m s0) ∧ ¬ covered (exec m s0)
            ∧ ¬ frames_within_frame_intervals (data (exec m s0))).
  { intros m Hp Hr. destruct (Hr s0 Hfs0) as (a & s' & Hrun & Hex).
    assert (exec m s0 = s') as Hs' by (unfold exec; fold (run m s0); by rewrite Hrun).
    assert (¬ covered (exec m s0)) as Hnc.
    { unfold covered. change (vcd_frame_intervals (data (exec m s0)))
        with (doc_frame_intervals (exec m s0)).
      rewrite (Hp s0). apply fresh_not_covered. }
    split; [by rewrite Hs'|]. split; [exact Hnc|].
    apply Hbreak; [by rewrite Hs'|exact Hnc]. }
  split; [|split].
  - apply Hall; [apply add_frame_properties_keeps_frame_intervals
                |apply add_frame_properties_returns].
  - apply Hall; [apply add_odometry_keeps_frame_intervals|apply add_odometry_returns].
  - apply Hall.
    + apply preserves_bind.
      * unfold VCD.add_stream. preserves_auto.
      * intros ?. apply add_stream_properties_frame_keeps_frame_intervals.
    + eapply returns_bind; [apply add_stream_returns|].
      intros ?; cbv beta. apply add_stream_properties_frame_returns.
Qed.

(** ** Stream references (C5) *)

(** [has_stream] never answers [True]: it looks a member of [StreamType] up
    among the declared stream names. *)
Lemma has_stream_never_true stream s :
  eval (VCD.has_stream stream) s ≠ Ok (Some true).
Proof.
  unfold eval, VCD.has_stream, bind, gets, subscript.
  destruct (md_streams (VCD.get_metadata (data s))) as [streams|]; [|done].
  destruct (StreamType.getitem stream) as [member|]; done.
Qed.

(** C5. A stream argument is never attached.  With the stream ["camera"]
    declared, [add_object] with [stream="camera"] returns and creates the
    object without a stream reference; with the stream ["cam1"] declared,
    [add_object] with [stream="cam1"] raises [KeyError] after it has created
    the object. *)
Theorem stream_reference_never_attached uuid4 :
  let s0 := VCD.init uuid4 in
  let declare nm := VCD.add_stream nm "" "" (VCD.StMember StreamType.camera) in
  let add nm := VCD.add_object "x" "" FvNone UNone UNone (Some nm) in
  let s1 := exec (declare "camera") s0 in
  let s2 := exec (declare "cam1") s0 in
  (∀ stream s, eval (VCD.has_stream stream) s ≠ Ok (Some true))
  ∧ stream_declared "camera" s1
  ∧ eval (add "camera") s1 = Ok (Some (UidStr "0"))
  ∧ (element_at (data (exec (add "camera") s1)) ElementType.object (UidStr "0")
     = Some (set_el_type (Some "") (set_el_name (Some "x") empty_element)))
  ∧ stream_declared "cam1" s2
  ∧ eval (add "cam1") s2 = Raise Py.KeyError
  ∧ (element_at (data (exec (add "cam1") s2)) ElementType.object (UidStr "0")
     = Some (set_el_type (Some "") (set_el_name (Some "x") empty_element))).
Proof.
  intros s0 declare add s1 s2.
  split; [apply has_stream_never_true|].
  split.
  { destruct (add_stream_returns "camera" "" "" StreamType.camera s0) as (a & s' & Hrun & Hq).
    - by eexists.
    - unfold s1, declare, exec. fold (run (VCD.add_stream "camera" "" ""
                                           (VCD.StMember StreamType.camera)) s0).
      rewrite Hrun. apply Hq. }
  split; [vm_compute; reflexivity|].
  split; [vm_compute; reflexivity|].
  split.
  { destruct (add_stream_returns "cam1" "" "" StreamType.camera s0) as (a & s' & Hrun & Hq).
    - by eexists.
    - unfold s2, declare, exec. fold (run (VCD.add_stream "cam1" "" ""
                                           (VCD.StMember StreamType.camera)) s0).
      rewrite Hrun. apply Hq. }
  split; vm_compute; reflexivity.
Qed.

(** ** Removing a range of frames from an object (C7) *)

(** Removing the frames [0..5] one by one with [FrameIntervals.rm_frame]
    turns the interval [(0,10)] into [(6,10)]. *)
Lemma rm_frame_range_0_5 :
  FrameIntervals.get_dict
    (foldl FrameIntervals.rm_frame (FrameIntervals.init (FvTuple (0, 10))).1
       (Py.range_incl 0 5))
  = [FiDict 6 10].
Proof. reflexivity. Qed.

(** C7. In the scenario the object has the interval [(0,10)], and its
    pointers the intervals [(0,10)] and [(6,10)]; the call
    [vcd.rm_object_by_frame(uid, (0, 5))] of the test raises [AttributeError],
    since [class VCD] binds no method of that name, and the interval of the
    object stays [(0,10)]. *)
Theorem rm_object_by_frame_is_missing uuid4 :
  let s := exec car_scenario (VCD.init uuid4) in
  let interval_of s :=
    match element_at (data s) ElementType.object (UidStr "0") with
    | Some e => el_frame_intervals e
    | None => None
    end in
  let pointer_of s data_name :=
    match element_at (data s) ElementType.object (UidStr "0") with
    | Some e => edp_frame_intervals <$> pointer_at e data_name
    | None => None
    end in
  eval car_scenario (VCD.init uuid4) = Ok tt
  ∧ interval_of s = Some [FiDict 0 10]
  ∧ pointer_of s "position" = Some [FiDict 0 10]
  ∧ pointer_of s "color" = Some [FiDict 6 10]
  ∧ run (VCD.lookup_method "rm_object_by_frame") s = (Raise Py.AttributeError, s)
  ∧ interval_of (exec (VCD.lookup_method "rm_object_by_frame") s) ≠ Some [FiDict 6 10].
Proof.
  intros s interval_of pointer_of.
  assert (run (VCD.lookup_method "rm_object_by_frame") s = (Raise Py.AttributeError, s))
    as Hrun by reflexivity.
  assert (interval_of s = Some [FiDict 0 10]) as Hi by (vm_compute; reflexivity).
  split; [vm_compute; reflexivity|].
  split; [exact Hi|].
  split; [vm_compute; reflexivity|].
  split; [vm_compute; reflexivity|].
  split; [exact Hrun|].
  unfold exec. fold (run (VCD.lookup_method "rm_object_by_frame") s).
  rewrite Hrun. simpl. rewrite Hi. discriminate.
Qed.

(** ** An element added without a frame value (C1) *)

Lemma put_frame_keeps_elements n fr : preserves doc_elements (VCD.put_frame n fr).
Proof. unfold VCD.put_frame. preserves_auto. Qed.

Lemma has_stream_keeps {X} (f : State → X) stream : preserves f (VCD.has_stream stream).
Proof. unfold VCD.has_stream. preserves_auto. Qed.

Lemma get_uid_to_assign_keeps_span element_type uid :
  preserves doc_span (VCD.__get_uid_to_assign element_type uid).
Proof. unfold VCD.__get_uid_to_assign, VCD.uuid4. preserves_auto. Qed.

Lemma coerce_uid_keeps {X} (f : State → X) a :
  (∀ s w, f (set_warnings w s) = f s) → preserves f (VCD.coerce_uid a).
Proof.
  intros Hw. unfold VCD.coerce_uid.
  destruct a; repeat first [apply preserves_ret
                           |apply preserves_bind; [|intros ?]
                           |apply preserves_modify; intros ?; apply Hw].
Qed.

Lemma create_update_element_keeps_span
    element_type name semantic_type frame_intervals uid ont_uid stream :
  preserves doc_span
    (VCD.__create_update_element element_type name semantic_type frame_intervals uid
       ont_uid stream).
Proof.
  unfold VCD.__create_update_element, VCD.update_element.
  preserves_auto; apply has_stream_keeps.
Qed.

Lemma add_frames_empty_keeps {X} (f : State → X) frame_intervals element_type uid :
  FrameIntervals.empty frame_intervals = true →
  preserves f (VCD.__add_frames frame_intervals element_type uid).
Proof.
  intros He. unfold VCD.__add_frames. rewrite He.
  destruct uid; first [apply preserves_ret|apply preserves_raise].
Qed.

(** Without a frame value the upsert touches neither the frames map nor the
    document-wide interval list, whatever the document: when the list is
    empty it asks for the shadows of an empty span, and otherwise it does
    not ask for any. *)
Lemma add_element_without_interval_keeps_span
    element_type name semantic_type frame_intervals uid ont_uid stream :
  FrameIntervals.empty frame_intervals = true →
  preserves doc_span
    (VCD.__add_element element_type name semantic_type frame_intervals uid ont_uid stream).
Proof.
  intros He. unfold VCD.__add_element.
  apply preserves_bind; [apply coerce_uid_keeps; by intros|].
  intros [uid_text|]; [|apply preserves_ret].
  apply preserves_bind; [apply coerce_uid_keeps; by intros|].
  intros [ont|]; [|apply preserves_ret].
  apply preserves_bind; [apply preserves_gets|]. intros d.
  apply preserves_bind; [apply get_uid_to_assign_keeps_span|]. intros uid_to_assign.
  apply preserves_bind; [apply preserves_gets|]. intros d'.
  apply preserves_bind; [apply create_update_element_keeps_span|]. intros _.
  apply preserves_bind; [|intros _; apply preserves_ret].
  rewrite He. cbn [negb].
  apply preserves_bind; [apply preserves_gets|]. intros d''.
  destruct (FrameIntervals.empty (VCD.get_frame_intervals d'')) eqn:Hv.
  - by apply add_frames_empty_keeps.
  - apply preserves_ret.
Qed.

(** C1. On a document that spans the frames 0 and 1, [add_object] without
    a frame value returns the new UID ["1"], but gives the new object no
    shadow in frame 0 nor in frame 1: the frames map and the document-wide
    interval list are what they were before the call. *)
Theorem add_object_without_interval_no_shadow uuid4 :
  let s1 := exec (VCD.add_object "a" "" (FvTuple (0, 1)) UNone UNone None) (VCD.init uuid4) in
  let call := VCD.add_object "b" "" FvNone UNone UNone None in
  vcd_frame_intervals (data s1) = Some [FiDict 0 1]
  ∧ eval call s1 = Ok (Some (UidStr "1"))
  ∧ is_Some (element_at (data (exec call s1)) ElementType.object (UidStr "1"))
  ∧ is_Some (shadow_at (data (exec call s1)) 0 ElementType.object (UidStr "0"))
  ∧ shadow_at (data (exec call s1)) 0 ElementType.object (UidStr "1") = None
  ∧ shadow_at (data (exec call s1)) 1 ElementType.object (UidStr "1") = None
  ∧ doc_span (exec call s1) = doc_span s1.
Proof.
  intros s1 call.
  split; [vm_compute; reflexivity|].
  split; [vm_compute; reflexivity|].
  split; [vm_compute; by eexists|].
  split; [vm_compute; by eexists|].
  split; [vm_compute; reflexivity|].
  split; [vm_compute; reflexivity|].
  change (exec call s1)
    with (exec (VCD.__add_element ElementType.object (Some "b") (Some "")
                  (FrameIntervals.init FvNone).1 UNone UNone None) s1).
  by apply add_element_without_interval_keeps_span.
Qed.

(** ** Data pointers and the interval of their element (C4) *)

Section pointer_intervals.

Implicit Types (l : list fi_dict) (A B L : list (Z * Z)) (n : Z).

Lemma tuples_of_dicts_of_tuples L :
  utils.as_frame_intervals_array_tuples (utils.as_frame_intervals_array_dict L) = L.
Proof.
  unfold utils.as_frame_intervals_array_tuples, utils.as_frame_intervals_array_dict.
  induction L as [|[a b] r IH]; [done|]. simpl. f_equal. exact IH.
Qed.

Lemma init_coherent fv : coherent (FrameIntervals.init fv).1.
Proof.
  unfold coherent, FrameIntervals.init.
  destruct fv as [|n|items|[a b]|d|]; try done.
  case_bool_decide; [done|].
  destruct (forallb FrameIntervals.is_tuple items); [done|].
  destruct (forallb FrameIntervals.is_dict items); done.
Qed.

Lemma of_dicts_coherent l : coherent (FrameIntervals.of_dicts l).
Proof. apply init_coherent. Qed.

(** [has_frame] on the numeric view is [covers] on the record view. *)
Lemma is_inside_covers n l :
  utils.is_inside_frame_intervals n (utils.as_frame_intervals_array_tuples l) = true
  ↔ covers l n.
Proof.
  unfold utils.is_inside_frame_intervals, utils.as_frame_intervals_array_tuples, covers.
  rewrite existsb_exists, Exists_exists. split.
  - intros ([a b] & Hin & Hab). apply list_elem_of_In, list_elem_of_fmap in Hin.
    destruct Hin as (d & [= -> ->] & Hd). exists d. split; [done|].
    unfold inside. simpl in Hab. lia.
  - intros (d & Hd & Hins). exists (frame_start d, frame_end d). split.
    + apply list_elem_of_In, list_elem_of_fmap. by exists d.
    + unfold inside in Hins. simpl. lia.
Qed.

Lemma has_frame_covers fi n :
  coherent fi →
  FrameIntervals.has_frame fi n = true ↔ covers (FrameIntervals.fis_dict fi) n.
Proof.
  intros Hc. unfold FrameIntervals.has_frame. rewrite Hc. apply is_inside_covers.
Qed.

Lemma fuse_nil l : utils.fuse_frame_intervals l = [] ↔ l = [].
Proof.
  split; [|by intros ->].
  unfold utils.fuse_frame_intervals. destruct l as [|x r]; [done|]. simpl.
  intros H.
  assert (Hins : ∀ y l', utils.insert_by_start y l' ≠ []).
  { intros y [|z l']; simpl; [done|]. by destruct (frame_start y <=? frame_start z). }
  assert (Hmerge : ∀ l' cur, utils.merge_sorted cur l' ≠ []).
  { induction l' as [|z l' IH]; intros cur; simpl; [done|].
    destruct (utils.intersects cur z || utils.consecutive cur z); [apply IH|done]. }
  destruct (utils.insert_by_start x (utils.sort_by_start r)) as [|y l'] eqn:E.
  - by apply Hins in E.
  - by apply Hmerge in H.
Qed.

End pointer_intervals.

(** The items the helper emits are lists, neither tuples nor records, so
    the constructor keeps none of them: an intersection is the empty
    instance, whatever the operands. *)
Lemma intersection_empty a b :
  FrameIntervals.intersection a b = FrameIntervals.Make [] [].
Proof.
  unfold FrameIntervals.intersection, FrameIntervals.init.
  destruct (utils.intersection_between_frame_interval_arrays _ _) as [|x r]; [done|].
  change (ItList <$> x :: r) with (ItList x :: (ItList <$> r)).
  by case_bool_decide.
Qed.

(** Step 3 of [__create_update_element] therefore never passes its guard:
    it leaves every pointer as it was. *)
Lemma reshape_pointer_id fi p : VCD.reshape_pointer fi p = p.
Proof. unfold VCD.reshape_pointer. by rewrite intersection_empty. Qed.

Lemma reshape_pointers_id fi ptrs : reshape_pointers fi ptrs = ptrs.
Proof.
  destruct ptrs as [edps|]; [|done]. simpl. f_equal.
  transitivity (id <$> edps); [|apply map_fmap_id].
  apply map_fmap_ext. intros i p _. apply reshape_pointer_id.
Qed.

Section ensures_facts.

Lemma ensures_ret {A} (P : State → Prop) (a : A) (Q : A → State → Prop) :
  (∀ s, P s → Q a s) → ensures P (ret a) Q.
Proof. intros H s a' s' Hs [= <- <-]. by apply H. Qed.

Lemma ensures_raise {A} (P : State → Prop) e (Q : A → State → Prop) :
  ensures P (raise e) Q.
Proof. intros s a' s' Hs [=]. Qed.

Lemma ensures_bind {A B} (P : State → Prop) (m : M A) (k : A → M B)
    (Q : A → State → Prop) (R : B → State → Prop) :
  ensures P m Q → (∀ a, ensures (Q a) (k a) R) → ensures P (bind m k) R.
Proof.
  intros Hm Hk s b s'' Hs. rewrite run_bind.
  destruct (run m s) as [[a|e] s'] eqn:Hrun; [|done].
  intros Hrun'. eapply Hk; [|exact Hrun']. by eapply Hm.
Qed.

Lemma ensures_modify (P Q : State → Prop) (g : State → State) :
  (∀ s, P s → Q (g s)) → ensures P (modify g) (λ _, Q).
Proof. intros H s a s' Hs [= Heq]. subst s'. by apply H. Qed.

Lemma ensures_weaken {A} (P P' : State → Prop) (m : M A) (Q Q' : A → State → Prop) :
  ensures P m Q → (∀ s, P' s → P s) → (∀ a s, Q a s → Q' a s) → ensures P' m Q'.
Proof. intros Hm HP HQ s a s' Hs Hrun. eapply HQ, Hm; [by apply HP|done]. Qed.

(** A method that preserves an observation keeps every property of it. *)
Lemma ensures_preserves {A X} (f : State → X) (m : M A) (P : X → Prop) :
  preserves f m → ensures (λ s, P (f s)) m (λ _ s, P (f s)).
Proof.
  intros Hp s a s' Hs Hrun. specialize (Hp s). unfold exec in Hp.
  fold (run m s) in Hp. rewrite Hrun in Hp. simpl in Hp. by rewrite Hp.
Qed.

End ensures_facts.

Section upsert_pointers.

Context (element_type : ElementType.t) (uid : uid_key).

Lemma update_element_ensures fi ptrs fi' ptrs' (g : Element → Element) :
  (∀ e, el_frame_intervals e = fi → el_data_pointers e = ptrs →
        el_frame_intervals (g e) = fi' ∧ el_data_pointers (g e) = ptrs') →
  ensures (λ s, element_has element_type uid fi ptrs (doc_elements s))
    (VCD.update_element element_type uid g)
    (λ _ s, element_has element_type uid fi' ptrs' (doc_elements s)).
Proof.
  intros Hg. unfold VCD.update_element, modify_data.
  apply ensures_modify. intros s (m & e & Hm & He & Hfi & Hptrs).
  destruct (Hg e Hfi Hptrs) as [Hfi' Hptrs'].
  exists (alter g uid m), (g e). unfold doc_elements in *. simpl.
  rewrite lookup_alter_eq, Hm. simpl. rewrite lookup_alter_eq, He. done.
Qed.

Lemma update_element_keeps_fields fi ptrs (g : Element → Element) :
  (∀ e, el_frame_intervals (g e) = el_frame_intervals e
        ∧ el_data_pointers (g e) = el_data_pointers e) →
  ensures (λ s, element_has element_type uid fi ptrs (doc_elements s))
    (VCD.update_element element_type uid g)
    (λ _ s, element_has element_type uid fi ptrs (doc_elements s)).
Proof.
  intros Hg. apply update_element_ensures. intros e <- <-. apply Hg.
Qed.

Lemma has_stream_keeps_elements stream :
  preserves doc_elements (VCD.has_stream stream).
Proof. apply has_stream_keeps. Qed.

(** The root record after [__create_update_element] has returned, for a
    non-empty interval: the interval is the one supplied, and the pointers
    are the previous ones reshaped. *)
Lemma create_update_element_ensures
    name semantic_type frame_intervals ont_uid stream (x : option Element) els0 :
  FrameIntervals.empty frame_intervals = false →
  x = match els0 !! element_type with
      | Some m => m !! uid
      | None => None
      end →
  ensures (λ s, doc_elements s = els0)
    (VCD.__create_update_element element_type name semantic_type frame_intervals uid
       ont_uid stream)
    (λ _ s, element_has element_type uid
              (Some (FrameIntervals.get_dict frame_intervals))
              (reshape_pointers frame_intervals
                 (el_data_pointers (default empty_element x)))
              (doc_elements s)).
Proof.
  intros Hne Hx. unfold VCD.__create_update_element. rewrite Hne. cbn [negb].
  set (e0 := default empty_element x).
  set (Tr := λ fi ptrs (_ : unit) s,
               element_has element_type uid fi ptrs (doc_elements s)).
  assert (Hskip : ∀ fi ptrs, ensures (Tr fi ptrs tt) (ret tt) (Tr fi ptrs)).
  { intros fi ptrs. apply ensures_ret. by intros s Hs. }
  assert (Hkeep : ∀ fi ptrs g,
            (∀ e, el_frame_intervals (g e) = el_frame_intervals e
                  ∧ el_data_pointers (g e) = el_data_pointers e) →
            ensures (Tr fi ptrs tt) (VCD.update_element element_type uid g) (Tr fi ptrs)).
  { intros fi ptrs g Hg. by apply update_element_keeps_fields. }
  eapply ensures_bind with (Q := Tr (el_frame_intervals e0) (el_data_pointers e0)).
  { unfold modify_data. apply ensures_modify. intros s Hs.
    unfold Tr, doc_elements in *. simpl. rewrite Hs.
    destruct (els0 !! element_type) as [m|] eqn:Hm; simpl.
    - destruct (m !! uid) as [e|] eqn:He.
      + exists m, e. rewrite lookup_insert_eq. subst x. done.
      + exists (<[uid := empty_element]> m), empty_element.
        rewrite !lookup_insert_eq. subst x. done.
    - rewrite lookup_empty. exists (<[uid := empty_element]> ∅), empty_element.
      rewrite !lookup_insert_eq. subst x. done. }
  intros []. eapply ensures_bind with (Q := Tr (el_frame_intervals e0) (el_data_pointers e0)).
  { destruct name; [|apply Hskip]. apply Hkeep. by intros []. }
  intros []. eapply ensures_bind with (Q := Tr (el_frame_intervals e0) (el_data_pointers e0)).
  { destruct semantic_type; [|apply Hskip]. apply Hkeep. by intros []. }
  intros []. eapply ensures_bind
    with (Q := Tr (Some (FrameIntervals.get_dict frame_intervals)) (el_data_pointers e0)).
  { apply update_element_ensures. intros [] _ Hp. simpl in *. done. }
  intros []. eapply ensures_bind
    with (Q := Tr (Some (FrameIntervals.get_dict frame_intervals)) (el_data_pointers e0)).
  { destruct ont_uid as [o|]; [|apply Hskip].
    eapply ensures_bind with
      (Q := λ _, Tr (Some (FrameIntervals.get_dict frame_intervals)) (el_data_pointers e0) tt).
    - apply (ensures_preserves doc_elements (gets data)
               (element_has element_type uid _ _)). apply preserves_gets.
    - intros d. destruct (VCD.truthy_str (VCD.get_ontology d o)); [|apply Hskip].
      apply Hkeep. by intros []. }
  intros []. eapply ensures_bind
    with (Q := Tr (Some (FrameIntervals.get_dict frame_intervals)) (el_data_pointers e0)).
  { destruct stream as [st|]; [|apply Hskip].
    eapply ensures_bind with
      (Q := λ _, Tr (Some (FrameIntervals.get_dict frame_intervals)) (el_data_pointers e0) tt).
    - apply (ensures_preserves doc_elements (VCD.has_stream st)
               (element_has element_type uid _ _)). apply has_stream_keeps_elements.
    - intros b. destruct (VCD.truthy_bool b); [|apply Hskip].
      apply Hkeep. by intros []. }
  intros []. apply update_element_ensures. intros e Hfi Hp.
  destruct (el_data_pointers e) as [edps|] eqn:He; simpl.
  - rewrite Hfi, <- Hp. done.
  - rewrite <- Hp. done.
Qed.

End upsert_pointers.

Section frames_keep_elements.

Context (element_type : ElementType.t).

Lemma add_frame_keeps_elements n : preserves doc_elements (VCD.__add_frame n).
Proof. unfold VCD.__add_frame. preserves_auto. apply put_frame_keeps_elements. Qed.

Lemma add_frames_keeps_elements fi uid :
  preserves doc_elements (VCD.__add_frames fi element_type uid).
Proof.
  unfold VCD.__add_frames. preserves_auto;
    first [apply add_frame_keeps_elements|apply put_frame_keeps_elements].
Qed.

Lemma update_vcd_frame_intervals_keeps_elements fi :
  preserves doc_elements (VCD.__update_vcd_frame_intervals fi).
Proof.
  unfold VCD.__update_vcd_frame_intervals, VCD.__set_vcd_frame_intervals.
  preserves_auto.
Qed.

Lemma rm_frame_keeps_elements n : preserves doc_elements (VCD.__rm_frame n).
Proof. unfold VCD.__rm_frame. preserves_auto. Qed.

Lemma remove_shadow_keeps_elements uid f :
  preserves doc_elements (VCD.remove_shadow element_type uid f).
Proof.
  unfold VCD.remove_shadow. preserves_auto;
    first [apply put_frame_keeps_elements|apply rm_frame_keeps_elements].
Qed.

Lemma get_uid_to_assign_keeps_elements uid :
  preserves doc_elements (VCD.__get_uid_to_assign element_type uid).
Proof. unfold VCD.__get_uid_to_assign, VCD.uuid4. preserves_auto. Qed.

End frames_keep_elements.

(** The root record of the element after the upsert [__add_element] has
    returned, for a non-empty interval. *)
Lemma add_element_ensures
    element_type name semantic_type frame_intervals uid_ ont_uid_ stream els0 :
  FrameIntervals.empty frame_intervals = false →
  ensures (λ s, doc_elements s = els0)
    (VCD.__add_element element_type name semantic_type frame_intervals uid_ ont_uid_ stream)
    (λ r s, ∀ k, r = Some k →
       element_has element_type k
         (Some (FrameIntervals.get_dict frame_intervals))
         (reshape_pointers frame_intervals
            (el_data_pointers
               (default empty_element
                  match els0 !! element_type with
                  | Some m => m !! k
                  | None => None
                  end)))
         (doc_elements s)).
Proof.
  intros Hne. unfold VCD.__add_element.
  set (Same := λ s : State, doc_elements s = els0).
  assert (Hsame : ∀ A (m : M A), preserves doc_elements m → ensures Same m (λ _, Same)).
  { intros A m Hm. apply (ensures_preserves doc_elements m (λ els, els = els0) Hm). }
  eapply ensures_bind with (Q := λ _, Same).
  { apply Hsame, coerce_uid_keeps. by intros. }
  intros [uid_text|]; [|by apply ensures_ret].
  eapply ensures_bind with (Q := λ _, Same).
  { apply Hsame, coerce_uid_keeps. by intros. }
  intros [ont_uid|]; [|by apply ensures_ret].
  eapply ensures_bind with (Q := λ _, Same); [apply Hsame, preserves_gets|].
  intros d.
  eapply ensures_bind with (Q := λ _, Same);
    [apply Hsame, get_uid_to_assign_keeps_elements|].
  intros uid_to_assign.
  eapply ensures_bind with (Q := λ _, Same); [apply Hsame, preserves_gets|].
  intros d'.
  set (Post := λ s : State,
         element_has element_type uid_to_assign
           (Some (FrameIntervals.get_dict frame_intervals))
           (reshape_pointers frame_intervals
              (el_data_pointers
                 (default empty_element
                    match els0 !! element_type with
                    | Some m => m !! uid_to_assign
                    | None => None
                    end)))
           (doc_elements s)).
  eapply ensures_bind with (Q := λ _, Post).
  { by apply create_update_element_ensures. }
  intros _.
  eapply ensures_bind with (Q := λ _, Post).
  { apply (ensures_preserves doc_elements _
             (element_has element_type uid_to_assign _ _)).
    rewrite Hne. cbn [negb].
    preserves_auto;
      first [apply add_frames_keeps_elements
            |apply update_vcd_frame_intervals_keeps_elements
            |apply remove_shadow_keeps_elements]. }
  intros _. apply ensures_ret. intros s Hs k [= <-]. exact Hs.
Qed.

(** C4.  When an upsert that supplies a non-empty interval returns, the
    element has that interval and its data pointers are the previous ones,
    none of them reshaped: the intersection that step 3 computes is always
    empty, so the guard on it never lets a pointer be cut.  A pointer that
    had a frame outside the new interval then exceeds the interval of its
    element, and the invariant on data pointers is broken. *)
Theorem upsert_keeps_pointer_intervals
    s s' element_type name semantic_type fv uid_ ont_uid_ stream k :
  let fi := (FrameIntervals.init fv).1 in
  let old := default empty_element (element_at (data s) element_type k) in
  FrameIntervals.empty fi = false →
  run (VCD.__add_element element_type name semantic_type fi uid_ ont_uid_ stream) s
  = (Ok (Some k), s') →
  ∃ e',
    element_at (data s') element_type k = Some e'
    ∧ el_frame_intervals e' = Some (FrameIntervals.get_dict fi)
    ∧ el_data_pointers e' = el_data_pointers old
    ∧ ∀ data_name p n,
        pointer_at old data_name = Some p →
        covers (edp_frame_intervals p) n →
        ¬ covers (FrameIntervals.get_dict fi) n →
        ¬ pointers_within_elements (data s').
Proof.
  intros fi old Hne Hrun.
  pose proof (add_element_ensures element_type name semantic_type fi uid_ ont_uid_
                stream (doc_elements s) Hne s (Some k) s' eq_refl Hrun k eq_refl)
    as (m & e' & Hm & He' & Hfi & Hptrs).
  rewrite reshape_pointers_id in Hptrs.
  change (match doc_elements s !! element_type with
          | Some m0 => m0 !! k
          | None => None
          end) with (element_at (data s) element_type k) in Hptrs.
  fold old in Hptrs.
  assert (element_at (data s') element_type k = Some e') as Hat.
  { unfold element_at. unfold doc_elements in Hm. by rewrite Hm. }
  exists e'. split; [exact Hat|]. split; [exact Hfi|]. split; [exact Hptrs|].
  intros data_name p n Hp Hcov Hout Hinv.
  apply Hout.
  specialize (Hinv element_type k e' data_name p Hat).
  rewrite Hfi in Hinv. apply Hinv; [|exact Hcov].
  unfold pointer_at. rewrite Hptrs. exact Hp.
Qed.

Lemma upsert_keeps_pointer_intervals_witness :
  let s' := exec (VCD.__add_element ElementType.object None None
                    (FrameIntervals.init (FvTuple (0, 7))).1 (UStr "0") UNone None)
              shrink_before in
  (∃ e', element_at (data s') ElementType.object (UidStr "0") = Some e'
         ∧ el_frame_intervals e' = Some [FiDict 0 7]
         ∧ pointer_at e' "color"
           = Some {| edp_type := "text"; edp_frame_intervals := [FiDict 6 10];
                     edp_attributes := None |})
  ∧ ¬ pointers_within_elements (data s').
Proof.
  intros s'.
  destruct (upsert_keeps_pointer_intervals shrink_before s'
              ElementType.object None None (FvTuple (0, 7)) (UStr "0") UNone None
              (UidStr "0"))
    as (e' & He' & Hfi & Hptrs & Hout).
  - reflexivity.
  - vm_compute. reflexivity.
  - split.
    + exists e'. split; [exact He'|]. split; [exact Hfi|].
      unfold pointer_at. rewrite Hptrs. vm_compute. reflexivity.
    + apply (Hout "color"
               {| edp_type := "text"; edp_frame_intervals := [FiDict 6 10];
                  edp_attributes := None |} 8).
      * vm_compute. reflexivity.
      * simpl. apply covers_cons. left. unfold inside. simpl. lia.
      * simpl. unfold FrameIntervals.get_dict. simpl. intros Hc.
        apply covers_cons in Hc as [Hc|Hc]; [unfold inside in Hc; simpl in Hc; lia|].
        by apply covers_nil in Hc.
Defined.

(** The same where the new interval shares no frame with the pointer: the
    invariant on data pointers holds before the interval of the object is
    replaced by [(0,5)], and fails after, the pointer keeping [(6,10)]. *)
Lemma pointer_outside_element_after_shrink :
  pointers_within_elements (data shrink_before)
  ∧ ¬ pointers_within_elements (data shrink_after).
Proof.
  split.
  - assert (vcd_elements (data shrink_before)
            = {[ElementType.object :=
                 {[UidStr "0" :=
                    {| el_name := Some "BMW"; el_type := Some "#Car";
                       el_frame_intervals := Some [FiDict 6 10];
                       el_ontology_uid := None; el_stream := None; el_data := None;
                       el_data_pointers :=
                         Some {["color" :=
                                 {| edp_type := "text";
                                    edp_frame_intervals := [FiDict 6 10];
                                    edp_attributes := None |}]} |}]}]}) as Hels
      by (vm_compute; reflexivity).
    intros element_type uid e data_name p He Hp.
    unfold element_at in He. rewrite Hels in He.
    destruct (decide (element_type = ElementType.object)) as [->|Hne].
    + rewrite lookup_singleton_eq in He.
      apply lookup_singleton_Some in He as [<- <-].
      unfold pointer_at in Hp. simpl in Hp.
      apply lookup_singleton_Some in Hp as [<- <-]. simpl. by intros n Hn.
    + rewrite lookup_singleton_ne in He by done. discriminate.
  - intros Hinv.
    specialize (Hinv ElementType.object (UidStr "0")
                  {| el_name := Some "BMW"; el_type := Some "#Car";
                     el_frame_intervals := Some [FiDict 0 5];
                     el_ontology_uid := None; el_stream := None; el_data := None;
                     el_data_pointers :=
                       Some {["color" :=
                               {| edp_type := "text";
                                  edp_frame_intervals := [FiDict 6 10];
                                  edp_attributes := None |}]} |}
                  "color"
                  {| edp_type := "text"; edp_frame_intervals := [FiDict 6 10];
                     edp_attributes := None |}).
    assert (covers [FiDict 0 5] 6) as Hcov.
    { apply Hinv.
      - vm_compute. reflexivity.
      - vm_compute. reflexivity.
      - simpl. apply covers_cons. left. unfold inside. simpl. lia. }
    apply covers_cons in Hcov as [Hin|Hnil].
    + unfold inside in Hin. simpl in Hin. lia.
    + by apply covers_nil in Hnil.
Qed.

(** ** Triples: returning and raising *)

Section triple_facts.

Lemma triple_ret {A} (P : State → Prop) (a : A) Q R :
  (∀ s, P s → Q a s) → triple P (ret a) Q R.
Proof. intros H s Hs. by apply H. Qed.

Lemma triple_raise {A} (P : State → Prop) e (Q : A → State → Prop) (R : Py.exn → State → Prop) :
  (∀ s, P s → R e s) → triple P (raise e) Q R.
Proof. intros H s Hs. by apply H. Qed.

Lemma triple_bind {A B} (P : State → Prop) (m : M A) (k : A → M B)
    (Q : A → State → Prop) (Q' : B → State → Prop) R :
  triple P m Q R → (∀ a, triple (Q a) (k a) Q' R) → triple P (bind m k) Q' R.
Proof.
  intros Hm Hk s Hs. rewrite run_bind. specialize (Hm s Hs).
  destruct (run m s) as [[a|e] s']; [by apply Hk|done].
Qed.

Lemma triple_gets {A} (P : State → Prop) (g : State → A) R :
  triple P (gets g) (λ a s, a = g s ∧ P s) R.
Proof. by intros s Hs. Qed.

Lemma triple_modify (P Q : State → Prop) (g : State → State) R :
  (∀ s, P s → Q (g s)) → triple P (modify g) (λ _, Q) R.
Proof. intros H s Hs. by apply H. Qed.

Lemma triple_subscript {A} (P : State → Prop) (x : option A) R :
  (∀ s, P s → x = None → R Py.KeyError s) →
  triple P (subscript x) (λ a s, x = Some a ∧ P s) R.
Proof. intros H s Hs. destruct x; simpl; [done|by apply H]. Qed.

Lemma triple_weaken {A} (P P' : State → Prop) (m : M A)
    (Q Q' : A → State → Prop) (R R' : Py.exn → State → Prop) :
  triple P m Q R → (∀ s, P' s → P s) → (∀ a s, Q a s → Q' a s) →
  (∀ e s, R e s → R' e s) → triple P' m Q' R'.
Proof.
  intros Hm HP HQ HR s Hs. specialize (Hm s (HP s Hs)).
  destruct (run m s) as [[a|e] s']; [by apply HQ|by apply HR].
Qed.

Lemma triple_conj {A} (P P' : State → Prop) (m : M A)
    (Q Q' : A → State → Prop) (R R' : Py.exn → State → Prop) :
  triple P m Q R → triple P' m Q' R' →
  triple (λ s, P s ∧ P' s) m (λ a s, Q a s ∧ Q' a s) (λ e s, R e s ∧ R' e s).
Proof.
  intros H H' s [Hs Hs']. specialize (H s Hs). specialize (H' s Hs').
  by destruct (run m s) as [[a|e] s'].
Qed.

(** A triple from the observations a method preserves. *)
Lemma triple_preserves {A X} (f : State → X) (m : M A) (Φ : X → Prop) :
  preserves f m → triple (λ s, Φ (f s)) m (λ _ s, Φ (f s)) (λ _ s, Φ (f s)).
Proof.
  intros Hp s Hs. specialize (Hp s). unfold exec in Hp. fold (run m s) in Hp.
  destruct (run m s) as [[a|e] s']; simpl in Hp; by rewrite Hp.
Qed.

Lemma triple_ensures {A} (P : State → Prop) (m : M A) (Q : A → State → Prop) :
  ensures P m Q → triple P m Q (λ _ _, True).
Proof.
  intros H s Hs. destruct (run m s) as [[a|e] s'] eqn:Hrun; [|done]. by eapply H.
Qed.

Lemma ensures_triple {A} (P : State → Prop) (m : M A) (Q : A → State → Prop) R :
  triple P m Q R → ensures P m Q.
Proof. intros H s a s' Hs Hrun. specialize (H s Hs). by rewrite Hrun in H. Qed.

Lemma triple_total {A} (P : State → Prop) (m : M A) (Q : A → State → Prop) R :
  total m → ensures P m Q → triple P m Q R.
Proof.
  intros Ht He s Hs. destruct (Ht s) as (a & s' & Hrun). rewrite Hrun. by eapply He.
Qed.

Lemma total_ret {A} (a : A) : total (ret a).
Proof. intros s. by exists a, s. Qed.

Lemma total_gets {A} (g : State → A) : total (gets g).
Proof. intros s. by exists (g s), s. Qed.

Lemma total_modify (g : State → State) : total (modify g).
Proof. intros s. by exists tt, (g s). Qed.

Lemma total_bind {A B} (m : M A) (k : A → M B) :
  total m → (∀ a, total (k a)) → total (bind m k).
Proof.
  intros Hm Hk s. destruct (Hm s) as (a & s' & Hrun).
  destruct (Hk a s') as (b & s'' & Hrun'). exists b, s''.
  by rewrite (run_bind_ok m k s a s' Hrun).
Qed.

Lemma total_for_each {A} (l : list A) (body : A → M unit) :
  (∀ x, total (body x)) → total (for_each l body).
Proof.
  intros H. induction l as [|x r IH]; simpl.
  - apply total_ret.
  - apply total_bind; [apply H|intros _; exact IH].
Qed.

End triple_facts.

(** One step of a proof that a method never raises. *)
Ltac total_step :=
  lazymatch goal with
  | |- total (bind _ _) => apply total_bind; [|intros ?]
  | |- total (ret _) => apply total_ret
  | |- total (gets _) => apply total_gets
  | |- total (modify _) => apply total_modify
  | |- total (modify_data _) => apply total_modify
  | |- total (warn _) => apply total_modify
  | |- total (for_each _ _) => apply total_for_each; intros ?
  | |- total (match ?x with _ => _ end) => destruct x
  | |- total (let _ := _ in _) => cbv zeta
  end.

Ltac total_auto := repeat total_step.

(** ** Registries: ontologies, metadata, streams *)

Lemma existsb_ontology (onts : gmap string string) uri :
  existsb (λ kv : string * string, String.eqb kv.2 uri) (map_to_list onts) = true
  ↔ ∃ k, onts !! k = Some uri.
Proof.
  rewrite existsb_exists. split.
  - intros ([k v] & Hin & Heq). simpl in Heq. apply String.eqb_eq in Heq as ->.
    exists k. by apply elem_of_map_to_list, list_elem_of_In.
  - intros (k & Hk). exists (k, uri). split.
    + by apply list_elem_of_In, elem_of_map_to_list.
    + apply String.eqb_refl.
Qed.

(** X1. [add_ontology] never raises.  For a URI that is already a value of
    the ontology map it warns, returns [None] and changes nothing else; for
    any other URI it returns the decimal text of the size of the map, and
    [get_ontology] of that UID then gives the URI, the entries under the
    other UIDs being what they were. *)
Theorem add_ontology_registers_once s uri :
  let uid := Py.str_of_int (Z.of_nat (size (default ∅ (vcd_ontologies (data s))))) in
  (registered (data s) uri
   ∧ run (VCD.add_ontology uri) s
     = (Ok None,
        set_warnings (warnings s ++ ["WARNING: adding an already existing ontology"]) s))
  ∨ (¬ registered (data s) uri
     ∧ ∃ s', run (VCD.add_ontology uri) s = (Ok (Some uid), s')
             ∧ VCD.get_ontology (data s') uid = Some uri
             ∧ ∀ k, k ≠ uid → VCD.get_ontology (data s') k = VCD.get_ontology (data s) k).
Proof.
  intros uid.
  destruct (existsb (λ kv : string * string, String.eqb kv.2 uri)
              (map_to_list (default ∅ (vcd_ontologies (data s))))) eqn:Hex.
  - left. apply existsb_ontology in Hex as (k & Hk).
    destruct (vcd_ontologies (data s)) as [onts|] eqn:Ho; simpl in Hk;
      [|by rewrite lookup_empty in Hk].
    split; [by exists onts, k|]. by eapply run_add_ontology_again.
  - right.
    assert (¬ registered (data s) uri) as Hnot.
    { intros (onts & k & Ho & Hk). rewrite Ho in Hex. simpl in Hex.
      assert (existsb (λ kv : string * string, String.eqb kv.2 uri) (map_to_list onts)
              = true) as Ht by (apply existsb_ontology; by exists k).
      congruence. }
    split; [exact Hnot|].
    destruct s as [uu last d w uv uc]. simpl in *.
    unfold VCD.add_ontology, run, bind, modify_data, modify, gets, subscript. simpl.
    destruct (vcd_ontologies d) as [onts|] eqn:Ho; simpl in *.
    + rewrite Ho. simpl. rewrite Hex. simpl. eexists. split; [reflexivity|].
      unfold VCD.get_ontology. simpl. rewrite Ho. split.
      * apply lookup_insert_eq.
      * intros k Hk. by rewrite lookup_insert_ne.
    + rewrite Hex. simpl. eexists. split; [reflexivity|].
      unfold VCD.get_ontology. simpl. rewrite Ho. split.
      * apply lookup_insert_eq.
      * intros k Hk. by rewrite lookup_insert_ne.
Qed.

(** X2. [add_metadata_properties] raises [KeyError] on a document that has
    no metadata entry, and leaves it as it is.  Once [add_annotator] has
    created the entry it returns: the metadata then hold the annotator, every
    property supplied, and the earlier properties under the other names. *)
Theorem add_metadata_properties_needs_metadata s annotator properties :
  (vcd_metadata (data s) = None →
   run (VCD.add_metadata_properties properties) s = (Raise Py.KeyError, s))
  ∧ ∃ s',
      run (VCD.add_annotator annotator ;;; VCD.add_metadata_properties properties) s
      = (Ok tt, s')
      ∧ md_annotator (VCD.get_metadata (data s')) = Some annotator
      ∧ md_comment (VCD.get_metadata (data s')) = md_comment (VCD.get_metadata (data s))
      ∧ md_streams (VCD.get_metadata (data s')) = md_streams (VCD.get_metadata (data s))
      ∧ ∃ props,
          md_properties (VCD.get_metadata (data s')) = Some props
          ∧ (∀ k v, properties !! k = Some v → props !! k = Some v)
          ∧ (∀ k, properties !! k = None →
                  props !! k
                  = default ∅ (md_properties (VCD.get_metadata (data s))) !! k).
Proof.
  split.
  - intros Hmd. unfold VCD.add_metadata_properties, run, bind, gets, subscript.
    by rewrite Hmd.
  - destruct s as [uu last d w uv uc].
    unfold VCD.add_annotator, VCD.add_metadata_properties, run, bind, modify_data,
      modify, gets, subscript. simpl.
    eexists. split; [reflexivity|]. unfold VCD.get_metadata. simpl.
    split; [done|]. split; [by destruct (vcd_metadata d)|].
    split; [by destruct (vcd_metadata d)|].
    eexists. split; [reflexivity|]. split.
    + intros k v Hk. by apply lookup_union_Some_l.
    + intros k Hk. rewrite lookup_union_r by done. by destruct (vcd_metadata d).
Qed.

(** X3. [add_stream] replaces the whole entry of the stream when the type
    is given as a member of [StreamType] or as a text: whatever the entry
    held before, it now has the description and the URI supplied, the type
    supplied (the name of the member, or the text itself), and no stream
    properties.  For a type of another shape the entry is left as it was,
    or created empty.  The other streams, the frames and the elements are
    what they were. *)
Theorem add_stream_replaces_entry s stream_name uri description stream_type :
  ∃ s',
    run (VCD.add_stream stream_name uri description stream_type) s = (Ok tt, s')
    ∧ streams_of (data s') !! stream_name
      = Some match stream_type with
             | VCD.StMember m =>
                 {| st_description := Some description; st_uri := Some uri;
                    st_type := Some (StreamType.name m); st_stream_properties := None |}
             | VCD.StText ty =>
                 {| st_description := Some description; st_uri := Some uri;
                    st_type := Some ty; st_stream_properties := None |}
             | VCD.StOther => default empty_stream (streams_of (data s) !! stream_name)
             end
    ∧ (∀ other, other ≠ stream_name →
         streams_of (data s') !! other = streams_of (data s) !! other)
    ∧ vcd_frames (data s') = vcd_frames (data s)
    ∧ vcd_elements (data s') = vcd_elements (data s).
Proof.
  destruct s as [uu last d w uv uc].
  unfold VCD.add_stream, run, modify_data, modify, streams_of, VCD.get_metadata. simpl.
  change (match vcd_metadata d with Some md => md | None => empty_metadata end)
    with (default empty_metadata (vcd_metadata d)).
  set (streams := default ∅ (md_streams (default empty_metadata (vcd_metadata d)))).
  assert (∀ other, other ≠ stream_name →
            match streams !! stream_name with
            | Some _ => streams
            | None => <[stream_name := empty_stream]> streams
            end !! other = streams !! other) as Hother.
  { intros other Hne. destruct (streams !! stream_name); [done|].
    by rewrite lookup_insert_ne. }
  eexists. split; [reflexivity|]. simpl.
  destruct stream_type as [m|ty|].
  - split; [apply lookup_insert_eq|]. split; [|done].
    intros other Hne. rewrite lookup_insert_ne by done. by apply Hother.
  - split; [apply lookup_insert_eq|]. split; [|done].
    intros other Hne. rewrite lookup_insert_ne by done. by apply Hother.
  - split; [|split; [exact Hother|done]].
    destruct (streams !! stream_name) as [st|] eqn:E.
    + by rewrite E.
    + by rewrite lookup_insert_eq.
Qed.

(** X4. [add_stream_properties] for a stream that is not declared never
    changes the document.  It is silent when it is given no payload at all,
    and when the document has no metadata or no stream map; it warns only
    when there is a stream map without the name. *)
Theorem add_stream_properties_undeclared
    s stream_name properties intrinsics extrinsics stream_sync :
  streams_of (data s) !! stream_name = None →
  ∃ s', run (VCD.add_stream_properties stream_name properties intrinsics extrinsics
               stream_sync) s = (Ok tt, s')
        ∧ data s' = data s
        ∧ (warnings s' ≠ warnings s →
           is_Some (md_streams (VCD.get_metadata (data s)))
           ∧ (is_Some properties ∨ is_Some intrinsics ∨ is_Some extrinsics
              ∨ is_Some stream_sync)).
Proof.
  intros Hnone. unfold VCD.add_stream_properties.
  destruct (bool_decide (is_Some intrinsics) || bool_decide (is_Some extrinsics)
            || bool_decide (is_Some properties) || bool_decide (is_Some stream_sync))
    eqn:Hargs; cbn [negb].
  2:{ exists s. by repeat split. }
  assert (is_Some properties ∨ is_Some intrinsics ∨ is_Some extrinsics
          ∨ is_Some stream_sync) as Hsome.
  { repeat (apply orb_true_iff in Hargs as [Hargs|Hargs]);
      apply bool_decide_eq_true in Hargs; tauto. }
  unfold run, bind, gets, streams_of, VCD.get_metadata in *.
  destruct (vcd_metadata (data s)) as [md|] eqn:Hmd; [|exists s; by repeat split].
  destruct (md_streams md) as [streams|] eqn:Hst; [|exists s; by repeat split].
  simpl in Hnone. unfold dict_contains.
  rewrite bool_decide_eq_false_2 by (rewrite Hnone; by intros [? ?]).
  eexists. split; [reflexivity|]. split; [done|].
  intros _. split; [by eexists|exact Hsome].
Qed.

Lemma add_stream_properties_undeclared_witness :
  streams_of (data (VCD.init (λ _, ""))) !! "cam1" = None
  ∧ ∃ s', run (VCD.add_stream_properties "cam1" (Some ∅) None None None)
            (VCD.init (λ _, "")) = (Ok tt, s')
          ∧ data s' = data (VCD.init (λ _, "")).
Proof.
  split; [reflexivity|].
  destruct (add_stream_properties_undeclared (VCD.init (λ _, "")) "cam1" (Some ∅)
              None None None) as (s' & Hrun & Hdata & _); [reflexivity|].
  by exists s'.
Defined.

(** ** The root record of an upsert *)

Section upsert_record.

Context (element_type : ElementType.t) (uid : uid_key).

Lemma with_element_alter els e (g : Element → Element) :
  alter (alter g uid) element_type (with_element els element_type uid e)
  = with_element els element_type uid (g e).
Proof.
  unfold with_element. rewrite alter_insert_eq. f_equal. by rewrite alter_insert_eq.
Qed.

Lemma with_element_lookup els e :
  match with_element els element_type uid e !! element_type with
  | Some m => m !! uid
  | None => None
  end = Some e.
Proof. unfold with_element. by rewrite !lookup_insert_eq. Qed.

Lemma with_element_others els e element_type' uid' :
  (element_type', uid') ≠ (element_type, uid) →
  match with_element els element_type uid e !! element_type' with
  | Some m => m !! uid'
  | None => None
  end
  = match els !! element_type' with
    | Some m => m !! uid'
    | None => None
    end.
Proof.
  intros Hne. unfold with_element.
  destruct (decide (element_type' = element_type)) as [->|Ht].
  - rewrite lookup_insert_eq.
    assert (uid' ≠ uid) as Hu by congruence.
    rewrite lookup_insert_ne by done.
    by destruct (els !! element_type).
  - by rewrite lookup_insert_ne.
Qed.

(** [has_stream] changes nothing, and its answer is never true. *)
Lemma has_stream_run stream s b s' :
  run (VCD.has_stream stream) s = (Ok b, s') → s' = s ∧ VCD.truthy_bool b = false.
Proof.
  unfold run, VCD.has_stream, bind, gets, subscript.
  destruct (md_streams (VCD.get_metadata (data s))) as [streams|]; [|by intros [= <- <-]].
  destruct (StreamType.getitem stream) as [member|]; [|done].
  simpl. by intros [= <- <-].
Qed.

(** The element maps after [__create_update_element] has returned: only the
    record under the UID has changed, into the upserted one. *)
Lemma create_update_element_record
    name semantic_type frame_intervals ont_uid stream els0 onts0 :
  let e0 := default empty_element (default ∅ (els0 !! element_type) !! uid) in
  ensures (λ s, doc_elements s = els0 ∧ vcd_ontologies (data s) = onts0)
    (VCD.__create_update_element element_type name semantic_type frame_intervals uid
       ont_uid stream)
    (λ _ s, ∀ d, vcd_ontologies d = onts0 →
       doc_elements s
       = with_element els0 element_type uid
           (upserted d name semantic_type frame_intervals ont_uid e0)).
Proof.
  intros e0. unfold VCD.__create_update_element.
  set (P := λ s : State, vcd_ontologies (data s) = onts0).
  set (Tr := λ e (_ : unit) s,
               P s ∧ doc_elements s = with_element els0 element_type uid e).
  assert (Hskip : ∀ e, ensures (Tr e tt) (ret tt) (Tr e)).
  { intros e. apply ensures_ret. by intros s Hs. }
  assert (Hupd : ∀ e g, ensures (Tr e tt) (VCD.update_element element_type uid g)
                          (Tr (g e))).
  { intros e g. unfold VCD.update_element, modify_data. apply ensures_modify.
    intros s [Hs Hels]. split; [exact Hs|].
    unfold doc_elements in *. simpl. rewrite Hels. apply with_element_alter. }
  set (e1 := match name with Some _ => set_el_name name e0 | None => e0 end).
  set (e2 := match semantic_type with
             | Some _ => set_el_type semantic_type e1 | None => e1 end).
  set (e3 := if negb (FrameIntervals.empty frame_intervals)
             then set_el_frame_intervals
                    (Some (FrameIntervals.get_dict frame_intervals)) e2
             else e2).
  set (e4 := λ onts : option (gmap string string),
             match ont_uid with
             | Some o =>
                 if VCD.truthy_str (match onts with
                                    | Some m => m !! o
                                    | None => None
                                    end)
                 then set_el_ontology_uid ont_uid e3 else e3
             | None => e3
             end).
  eapply ensures_bind with (Q := Tr e0).
  { unfold modify_data. apply ensures_modify. intros s [Hs Ho].
    split; [exact Ho|]. unfold doc_elements in *. simpl. rewrite Hs.
    unfold with_element, e0.
    destruct (default ∅ (els0 !! element_type) !! uid) as [e|] eqn:He; simpl.
    - by rewrite (insert_id _ _ _ He).
    - done. }
  intros []. eapply ensures_bind with (Q := Tr e1).
  { unfold e1. destruct name; [apply Hupd|apply Hskip]. }
  intros []. eapply ensures_bind with (Q := Tr e2).
  { unfold e2. destruct semantic_type; [apply Hupd|apply Hskip]. }
  intros []. eapply ensures_bind with (Q := Tr e3).
  { unfold e3. destruct (negb (FrameIntervals.empty frame_intervals));
      [apply Hupd|apply Hskip]. }
  intros []. eapply ensures_bind with (Q := Tr (e4 onts0)).
  { unfold e4. destruct ont_uid as [o|]; [|apply Hskip].
    eapply ensures_bind with
      (Q := λ d s, Tr e3 tt s ∧ vcd_ontologies d = onts0).
    - intros s d s' Hs [= <- <-]. split; [exact Hs|]. apply Hs.
    - intros d. unfold VCD.get_ontology.
      intros s a s' [Hs Hd]. rewrite Hd.
      destruct (VCD.truthy_str _).
      + by apply Hupd.
      + by apply Hskip. }
  intros []. eapply ensures_bind with (Q := Tr (e4 onts0)).
  { destruct stream as [st|]; [|apply Hskip].
    intros s a s' Hs. rewrite run_bind.
    destruct (run (VCD.has_stream st) s) as [[b|?] s1] eqn:Hrun; [|done].
    apply has_stream_run in Hrun as [-> ->]. by apply Hskip. }
  intros [].
  assert (Hfin : ∀ d, vcd_ontologies d = onts0 →
            ∀ e', e' = (if negb (FrameIntervals.empty frame_intervals)
                        then match el_data_pointers (e4 onts0) with
                             | Some edps =>
                                 set_el_data_pointers
                                   (Some (VCD.reshape_pointer frame_intervals <$> edps))
                                   (e4 onts0)
                             | None => e4 onts0
                             end
                        else e4 onts0) →
            e' = upserted d name semantic_type frame_intervals ont_uid e0).
  { intros d Hd e' ->. unfold upserted, e4, e3, e2, e1, VCD.get_ontology. rewrite Hd.
    destruct e0 as [n t f o st dt p].
    destruct name, semantic_type, (FrameIntervals.empty frame_intervals),
      ont_uid as [x|]; simpl;
      try destruct (VCD.truthy_str _); simpl; try destruct p; reflexivity. }
  destruct (negb (FrameIntervals.empty frame_intervals)) eqn:Hne.
  - eapply ensures_weaken; [apply Hupd| |].
    + intros s Hs. exact Hs.
    + intros a s [_ Hs] d Hd. rewrite Hs. f_equal. by apply Hfin.
  - apply ensures_ret. intros s [_ Hs] d Hd. rewrite Hs. f_equal. by apply Hfin.
Qed.

End upsert_record.

Lemma get_uid_to_assign_keeps_data element_type uid :
  preserves data (VCD.__get_uid_to_assign element_type uid).
Proof. unfold VCD.__get_uid_to_assign, VCD.uuid4. preserves_auto. Qed.

Lemma element_at_default d element_type uid :
  default ∅ (vcd_elements d !! element_type) !! uid = element_at d element_type uid.
Proof. unfold element_at. by destruct (vcd_elements d !! element_type). Qed.

(** The element maps after the upsert [__add_element] has returned a UID:
    only the record under that UID has changed, into the upserted one. *)
Lemma add_element_record
    element_type name semantic_type frame_intervals uid_ ont_uid stream s0 :
  ensures (λ s, s = s0)
    (VCD.__add_element element_type name semantic_type frame_intervals uid_
       (VCD.arg_of_text ont_uid) stream)
    (λ r s, ∀ k, r = Some k →
       doc_elements s
       = with_element (doc_elements s0) element_type k
           (upserted (data s0) name semantic_type frame_intervals ont_uid
              (default empty_element (element_at (data s0) element_type k)))).
Proof.
  unfold VCD.__add_element.
  set (Same := λ s : State, data s = data s0).
  assert (Hsame : ∀ A (m : M A), preserves data m → ensures Same m (λ _, Same)).
  { intros A m Hm. apply (ensures_preserves data m (λ d, d = data s0) Hm). }
  eapply ensures_bind with (Q := λ _, Same).
  { eapply ensures_weaken; [apply Hsame, coerce_uid_keeps; by intros| |done].
    by intros s ->. }
  intros [uid_text|]; [|by apply ensures_ret].
  eapply ensures_bind with (Q := λ r s, r = Some ont_uid ∧ Same s).
  { destruct ont_uid; apply ensures_ret; by intros ? Hs. }
  intros r'. destruct r' as [ont|]; [|by apply ensures_ret].
  eapply ensures_bind with (Q := λ _ s, ont = ont_uid ∧ Same s).
  { intros s d s' [[= ->] Hs] [= <- <-]. done. }
  intros d.
  eapply ensures_bind with (Q := λ _ s, ont = ont_uid ∧ Same s).
  { intros s k s' [-> Hs] Hrun. split; [done|].
    by eapply (Hsame _ _ (get_uid_to_assign_keeps_data element_type _)); [|exact Hrun]. }
  intros uid_to_assign.
  eapply ensures_bind with (Q := λ _ s, ont = ont_uid ∧ Same s).
  { intros s d' s' Hs [= <- <-]. done. }
  intros d'.
  set (Post := λ s : State,
         doc_elements s
         = with_element (doc_elements s0) element_type uid_to_assign
             (upserted (data s0) name semantic_type frame_intervals ont_uid
                (default empty_element (element_at (data s0) element_type uid_to_assign)))).
  eapply ensures_bind with (Q := λ _, Post).
  { intros s a s' [-> Hs] Hrun.
    pose proof (create_update_element_record element_type uid_to_assign name
                  semantic_type frame_intervals ont_uid stream
                  (doc_elements s0) (vcd_ontologies (data s0)) s a s') as H.
    unfold Post. rewrite <- element_at_default.
    apply H; [|exact Hrun|done].
    unfold doc_elements. by rewrite Hs. }
  intros _.
  eapply ensures_bind with (Q := λ _, Post).
  { apply (ensures_preserves doc_elements _
             (λ els, els = with_element (doc_elements s0) element_type uid_to_assign _)).
    preserves_auto;
      first [apply add_frames_keeps_elements
            |apply update_vcd_frame_intervals_keeps_elements
            |apply remove_shadow_keeps_elements]. }
  intros _. apply ensures_ret. intros s Hs k [= <-]. exact Hs.
Qed.

(** The record exists under the UID that an upsert returns. *)
Lemma upsert_record_exists
    s s' element_type name semantic_type frame_intervals uid_ ont_uid stream k :
  run (VCD.__add_element element_type name semantic_type frame_intervals uid_
         (VCD.arg_of_text ont_uid) stream) s = (Ok (Some k), s') →
  ∃ e', element_at (data s') element_type k = Some e'.
Proof.
  intros Hrun.
  pose proof (add_element_record element_type name semantic_type frame_intervals uid_
                ont_uid stream s s (Some k) s' eq_refl Hrun k eq_refl) as Hels.
  unfold doc_elements in Hels. eexists. unfold element_at. rewrite Hels.
  apply with_element_lookup.
Qed.

(** X5. What an upsert that returns a UID has done to the root records:
    the record under that UID holds the name and the type supplied (the
    previous ones where none was supplied), the ontology reference supplied
    when that ontology is registered with a non-empty URI (the previous one
    otherwise), the previous stream reference and payloads and, when no
    interval was supplied, the previous interval and pointers; every other
    record of the document is what it was. *)
Theorem upsert_changes_one_record
    s s' element_type name semantic_type frame_intervals uid_ ont_uid stream k :
  run (VCD.__add_element element_type name semantic_type frame_intervals uid_
         (VCD.arg_of_text ont_uid) stream) s = (Ok (Some k), s') →
  let old := default empty_element (element_at (data s) element_type k) in
  ∃ e',
    element_at (data s') element_type k = Some e'
    ∧ el_name e' = match name with Some _ => name | None => el_name old end
    ∧ el_type e' = match semantic_type with
                   | Some _ => semantic_type
                   | None => el_type old
                   end
    ∧ el_ontology_uid e'
      = match ont_uid with
        | Some o =>
            if VCD.truthy_str (VCD.get_ontology (data s) o) then Some o
            else el_ontology_uid old
        | None => el_ontology_uid old
        end
    ∧ el_stream e' = el_stream old
    ∧ el_data e' = el_data old
    ∧ (FrameIntervals.empty frame_intervals = true →
       el_frame_intervals e' = el_frame_intervals old
       ∧ el_data_pointers e' = el_data_pointers old)
    ∧ ∀ element_type' k', (element_type', k') ≠ (element_type, k) →
        element_at (data s') element_type' k' = element_at (data s) element_type' k'.
Proof.
  intros Hrun old.
  pose proof (add_element_record element_type name semantic_type frame_intervals uid_
                ont_uid stream s s (Some k) s' eq_refl Hrun k eq_refl) as Hels.
  fold old in Hels. unfold doc_elements in Hels.
  exists (upserted (data s) name semantic_type frame_intervals ont_uid old).
  unfold element_at. rewrite Hels.
  split; [apply with_element_lookup|].
  split; [done|]. split; [done|].
  split; [by destruct ont_uid|].
  split; [done|]. split; [done|].
  split.
  - intros He. simpl. by rewrite He.
  - intros element_type' k' Hne. by apply with_element_others.
Qed.

Lemma upsert_changes_one_record_witness :
  ∃ e',
    element_at
      (data (exec (VCD.__add_element ElementType.object (Some "a") None
                     (FrameIntervals.init FvNone).1 UNone (VCD.arg_of_text None) None)
               (VCD.init (λ _, ""))))
      ElementType.object (UidStr "0") = Some e'
    ∧ el_name e' = Some "a"
    ∧ el_type e' = None.
Proof.
  destruct (upsert_changes_one_record (VCD.init (λ _, ""))
              (exec (VCD.__add_element ElementType.object (Some "a") None
                       (FrameIntervals.init FvNone).1 UNone (VCD.arg_of_text None) None)
                 (VCD.init (λ _, "")))
              ElementType.object (Some "a") None (FrameIntervals.init FvNone).1 UNone
              None None (UidStr "0"))
    as (e' & He' & Hname & Htype & _).
  - vm_compute. reflexivity.
  - exists e'. split; [exact He'|]. split; [exact Hname|exact Htype].
Defined.

(** ** The UID allocator *)

Section allocator_facts.

Context (element_type : ElementType.t).

Lemma put_frame_keeps_allocator n fr : preserves allocator (VCD.put_frame n fr).
Proof. unfold VCD.put_frame. preserves_auto. Qed.

Lemma add_frame_keeps_allocator n : preserves allocator (VCD.__add_frame n).
Proof. unfold VCD.__add_frame, VCD.put_frame. preserves_auto. Qed.

Lemma add_frames_keeps_allocator fi uid :
  preserves allocator (VCD.__add_frames fi element_type uid).
Proof. unfold VCD.__add_frames, VCD.__add_frame, VCD.put_frame. preserves_auto. Qed.

Lemma update_vcd_frame_intervals_keeps_allocator fi :
  preserves allocator (VCD.__update_vcd_frame_intervals fi).
Proof.
  unfold VCD.__update_vcd_frame_intervals, VCD.__set_vcd_frame_intervals.
  preserves_auto.
Qed.

Lemma rm_frame_keeps_allocator n : preserves allocator (VCD.__rm_frame n).
Proof. unfold VCD.__rm_frame. preserves_auto. Qed.

Lemma remove_shadow_keeps_allocator uid f :
  preserves allocator (VCD.remove_shadow element_type uid f).
Proof.
  unfold VCD.remove_shadow, VCD.put_frame, VCD.__rm_frame. preserves_auto.
Qed.

Lemma create_update_element_keeps_allocator
    name semantic_type frame_intervals uid ont_uid stream :
  preserves allocator
    (VCD.__create_update_element element_type name semantic_type frame_intervals uid
       ont_uid stream).
Proof.
  unfold VCD.__create_update_element, VCD.update_element.
  preserves_auto; apply has_stream_keeps.
Qed.

(** What follows the allocation in [__add_element] leaves the allocator as
    it is. *)
Lemma add_element_tail_keeps_allocator
    frame_intervals (element_exists : bool) uid uid_to_assign fis_old :
  preserves allocator
    (if negb (FrameIntervals.empty frame_intervals) then
       if element_exists then
         let fis_new := frame_intervals in
         for_each (FrameIntervals.get fis_new) (λ fi,
           for_each (Py.range_incl fi.1 fi.2) (λ f,
             let is_inside := FrameIntervals.has_frame fis_old f in
             if negb is_inside then
               let fi_ := (FrameIntervals.init (FvInt f)).1 in
               VCD.__add_frames fi_ element_type uid ;;;
               VCD.__update_vcd_frame_intervals fi_
             else ret tt)) ;;;
         for_each (FrameIntervals.get fis_old) (λ fi,
           for_each (Py.range_incl fi.1 fi.2) (λ f,
             let is_inside := FrameIntervals.has_frame fis_new f in
             if negb is_inside then VCD.remove_shadow element_type uid f
             else ret tt))
       else
         VCD.__add_frames frame_intervals element_type (VCD.arg_of_key uid_to_assign) ;;;
         VCD.__update_vcd_frame_intervals frame_intervals
     else
       d <- gets data ;;
       let vcd_frame_intervals := VCD.get_frame_intervals d in
       if FrameIntervals.empty vcd_frame_intervals then
         VCD.__add_frames vcd_frame_intervals element_type (VCD.arg_of_key uid_to_assign)
       else ret tt).
Proof.
  preserves_auto;
    first [apply add_frames_keeps_allocator
          |apply update_vcd_frame_intervals_keeps_allocator
          |apply remove_shadow_keeps_allocator].
Qed.

End allocator_facts.

Lemma preserves_bind_run {A B X} (f : State → X) (m : M A) (k : A → M B) :
  preserves f m → (∀ a s s', run m s = (Ok a, s') → preserves f (k a)) →
  preserves f (bind m k).
Proof.
  intros Hm Hk s. unfold exec, bind. specialize (Hm s). unfold exec in Hm.
  destruct (m s) as [[a|e] s'] eqn:E; simpl in *.
  - rewrite <- Hm. by eapply Hk.
  - exact Hm.
Qed.

Lemma allocator_set_warnings s w : allocator (set_warnings w s) = allocator s.
Proof. reflexivity. Qed.

(** X6. An upsert under a UID that the caller supplies, of whatever kind,
    never moves the counters of the automatic UIDs and draws no UUID, whether
    it returns or raises. *)
Theorem explicit_uid_keeps_counters
    s element_type name semantic_type frame_intervals uid_ ont_uid_ stream :
  uid_ ≠ UNone →
  let s' := exec (VCD.__add_element element_type name semantic_type frame_intervals
                    uid_ ont_uid_ stream) s in
  lastUID s' = lastUID s ∧ uuid4_calls s' = uuid4_calls s.
Proof.
  intros Hne s'.
  set (obs := λ s : State, (lastUID s, uuid4_calls s)).
  assert (Hobs : ∀ A (m : M A), preserves allocator m → preserves obs m).
  { intros A m Hm s1. specialize (Hm s1). unfold allocator in Hm. unfold obs. congruence. }
  enough (preserves obs
            (VCD.__add_element element_type name semantic_type frame_intervals uid_
               ont_uid_ stream)) as Hp.
  { specialize (Hp s). fold s' in Hp. unfold obs in Hp. by inversion Hp. }
  unfold VCD.__add_element.
  apply preserves_bind_run; [apply coerce_uid_keeps; by intros|].
  intros r s1 s2 Hrun.
  assert (r = None ∨ ∃ u, r = Some (Some u)) as [->|[u ->]].
  { destruct uid_; try done; inversion Hrun; eauto. }
  { apply preserves_ret. }
  apply preserves_bind; [apply coerce_uid_keeps; by intros|].
  intros [ont|]; [|apply preserves_ret].
  apply preserves_bind; [apply preserves_gets|]. intros d.
  apply preserves_bind.
  { (* the allocation: the UID is a text here *)
    simpl. preserves_auto. }
  intros uid_to_assign.
  apply preserves_bind; [apply preserves_gets|]. intros d'.
  apply preserves_bind; [apply Hobs, create_update_element_keeps_allocator|].
  intros _.
  apply preserves_bind; [|intros _; apply preserves_ret].
  apply Hobs, add_element_tail_keeps_allocator.
Qed.

Lemma explicit_uid_keeps_counters_witness :
  UStr "7" ≠ UNone
  ∧ lastUID (exec (VCD.__add_element ElementType.object (Some "a") None
                     (FrameIntervals.init (FvInt 3)).1 (UStr "7") UNone None)
               (VCD.init (λ _, "")))
    = lastUID (VCD.init (λ _, "")).
Proof.
  split; [done|].
  apply (explicit_uid_keeps_counters (VCD.init (λ _, "")) ElementType.object (Some "a")
           None (FrameIntervals.init (FvInt 3)).1 (UStr "7") UNone None).
  done.
Defined.

Lemma create_update_element_total
    element_type name semantic_type frame_intervals uid ont_uid :
  total (VCD.__create_update_element element_type name semantic_type frame_intervals
           uid ont_uid None).
Proof. unfold VCD.__create_update_element, VCD.update_element. total_auto. Qed.

Lemma coerce_uid_text u : VCD.coerce_uid (VCD.arg_of_text u) = ret (Some u).
Proof. by destruct u. Qed.

(** Without an interval and without a stream, the upsert returns the text
    UID that the allocation gives, and leaves the allocator as the allocation
    left it. *)
Lemma add_element_returns_uid
    element_type name semantic_type frame_intervals uid ont_uid s u s1 :
  FrameIntervals.empty frame_intervals = true →
  run (VCD.__get_uid_to_assign element_type (VCD.arg_of_text uid)) s
  = (Ok (UidStr u), s1) →
  ∃ s', run (VCD.__add_element element_type name semantic_type frame_intervals
               (VCD.arg_of_text uid) (VCD.arg_of_text ont_uid) None) s
        = (Ok (Some (UidStr u)), s')
        ∧ allocator s' = allocator s1.
Proof.
  intros He Hget. unfold VCD.__add_element. rewrite !coerce_uid_text.
  rewrite (run_bind_ok (ret (Some uid)) _ s (Some uid) s eq_refl).
  rewrite (run_bind_ok (ret (Some ont_uid)) _ s (Some ont_uid) s eq_refl).
  rewrite (run_bind_ok (gets data) _ s (data s) s eq_refl).
  rewrite (run_bind_ok _ _ s _ _ Hget).
  rewrite (run_bind_ok (gets data) _ s1 (data s1) s1 eq_refl).
  destruct (create_update_element_total element_type name semantic_type frame_intervals
              (UidStr u) ont_uid s1) as ([] & s2 & Hcu).
  rewrite (run_bind_ok _ _ s1 _ _ Hcu).
  pose proof (create_update_element_keeps_allocator element_type name semantic_type
                frame_intervals (UidStr u) ont_uid None s1) as Hal.
  unfold exec in Hal.
  fold (run (VCD.__create_update_element element_type name semantic_type
               frame_intervals (UidStr u) ont_uid None) s1) in Hal.
  rewrite Hcu in Hal. simpl in Hal.
  exists s2. split; [|exact Hal].
  rewrite He. cbn [negb]. unfold run, bind, gets, ret. cbv beta zeta.
  destruct (FrameIntervals.empty (VCD.get_frame_intervals (data s2))) eqn:Hv.
  - unfold VCD.__add_frames. cbn [VCD.arg_of_key]. by rewrite Hv.
  - done.
Qed.

(** X7. In the integer mode, an upsert without a UID, an interval or a
    stream returns the decimal text of the counter of the element type plus
    one, and that is the new value of the counter; the other counters, the
    frames map and the document-wide interval list are what they were, and
    the record exists under the UID returned. *)
Theorem automatic_uid_is_next_counter
    s element_type name semantic_type frame_intervals ont_uid n :
  use_uuid s = false →
  lastUID s !! element_type = Some n →
  FrameIntervals.empty frame_intervals = true →
  ∃ s',
    run (VCD.__add_element element_type name semantic_type frame_intervals UNone
           (VCD.arg_of_text ont_uid) None) s
    = (Ok (Some (UidStr (Py.str_of_int (n + 1)))), s')
    ∧ lastUID s' = <[element_type := n + 1]> (lastUID s)
    ∧ use_uuid s' = false
    ∧ is_Some (element_at (data s') element_type (UidStr (Py.str_of_int (n + 1))))
    ∧ doc_span s' = doc_span s.
Proof.
  intros Hu Hl He.
  assert (run (VCD.__get_uid_to_assign element_type (VCD.arg_of_text None)) s
          = (Ok (UidStr (Py.str_of_int (n + 1))),
             set_lastUID (<[element_type := n + 1]> (lastUID s)) s)) as Hget.
  { unfold run, VCD.__get_uid_to_assign, bind, gets, subscript. simpl.
    by rewrite Hu, Hl. }
  destruct (add_element_returns_uid element_type name semantic_type frame_intervals
              None ont_uid s _ _ He Hget) as (s' & Hrun & Hal).
  simpl in Hrun. exists s'. split; [exact Hrun|].
  unfold allocator in Hal. simpl in Hal.
  split; [congruence|]. split; [congruence|].
  split.
  - destruct (upsert_record_exists _ _ _ _ _ _ _ _ _ _ Hrun) as [e' He']. by exists e'.
  - pose proof (add_element_without_interval_keeps_span element_type name semantic_type
                  frame_intervals UNone (VCD.arg_of_text ont_uid) None He s) as Hsp.
    unfold exec in Hsp.
    fold (run (VCD.__add_element element_type name semantic_type frame_intervals UNone
                 (VCD.arg_of_text ont_uid) None) s) in Hsp.
    by rewrite Hrun in Hsp.
Qed.

Lemma automatic_uid_is_next_counter_witness :
  ∃ s',
    run (VCD.__add_element ElementType.action (Some "walk") (Some "#Walking")
           (FrameIntervals.init FvNone).1 UNone (VCD.arg_of_text None) None)
      (VCD.init (λ _, ""))
    = (Ok (Some (UidStr (Py.str_of_int (-1 + 1)))), s')
    ∧ lastUID s' = <[ElementType.action := -1 + 1]> (lastUID (VCD.init (λ _, ""))).
Proof.
  destruct (automatic_uid_is_next_counter (VCD.init (λ _, "")) ElementType.action
              (Some "walk") (Some "#Walking") (FrameIntervals.init FvNone).1 None (-1))
    as (s' & Hrun & Hlast & _).
  - reflexivity.
  - reflexivity.
  - reflexivity.
  - exists s'. split; [exact Hrun|exact Hlast].
Defined.

(** A text that matches the UUID pattern has a dash in ninth position, so
    it is not numeric. *)
Lemma uuid_not_numeric u :
  Py.pattern_uuid_match u = true → Py.isnumeric u = false.
Proof.
  unfold Py.pattern_uuid_match.
  destruct (Py.match_groups [8; 4; 4; 4; 12]%nat u) as [r|] eqn:Hg; [|done].
  intros _. cbn [Py.match_groups] in Hg.
  destruct (Py.match_hex 8 u) as [r1|] eqn:Hh; [|done].
  destruct (Py.match_dash r1) as [r2|] eqn:Hd; [|done]. clear Hg.
  destruct u as [|c1 [|c2 [|c3 [|c4 [|c5 [|c6 [|c7 [|c8 r0]]]]]]]];
    simpl in Hh; repeat (destruct (Py.is_hex _); [|try discriminate]);
    try discriminate.
  injection Hh as <-.
  destruct r0 as [|c9 r3]; [done|]. simpl in Hd.
  destruct (Ascii.eqb_spec c9 "-"%char) as [->|]; [|done].
  simpl. by rewrite !andb_false_r.
Qed.

(** X8. A UID given as a text that matches the UUID pattern is used as it
    is: without an interval and without a stream the upsert returns it, the
    record exists under it, the counters are what they were, and the instance
    is in the UUID mode from then on. *)
Theorem uuid_text_switches_mode
    s element_type name semantic_type frame_intervals ont_uid u :
  Py.pattern_uuid_match u = true →
  FrameIntervals.empty frame_intervals = true →
  ∃ s',
    run (VCD.__add_element element_type name semantic_type frame_intervals (UStr u)
           (VCD.arg_of_text ont_uid) None) s
    = (Ok (Some (UidStr u)), s')
    ∧ use_uuid s' = true
    ∧ lastUID s' = lastUID s
    ∧ is_Some (element_at (data s') element_type (UidStr u)).
Proof.
  intros Hu He.
  assert (run (VCD.__get_uid_to_assign element_type (VCD.arg_of_text (Some u))) s
          = (Ok (UidStr u), set_use_uuid_field true s)) as Hget.
  { unfold run, VCD.__get_uid_to_assign. simpl.
    by rewrite (uuid_not_numeric u Hu), Hu. }
  destruct (add_element_returns_uid element_type name semantic_type frame_intervals
              (Some u) ont_uid s _ _ He Hget) as (s' & Hrun & Hal).
  simpl in Hrun. exists s'. split; [exact Hrun|].
  unfold allocator in Hal. simpl in Hal.
  split; [congruence|]. split; [congruence|].
  destruct (upsert_record_exists _ _ _ _ _ _ _ _ _ _ Hrun) as [e' He']. by exists e'.
Qed.

Lemma uuid_text_switches_mode_witness :
  ∃ s',
    run (VCD.__add_element ElementType.object (Some "a") None
           (FrameIntervals.init FvNone).1
           (UStr "123e4567-e89b-12d3-a456-426614174000") (VCD.arg_of_text None) None)
      (VCD.init (λ _, ""))
    = (Ok (Some (UidStr "123e4567-e89b-12d3-a456-426614174000")), s')
    ∧ use_uuid s' = true.
Proof.
  destruct (uuid_text_switches_mode (VCD.init (λ _, "")) ElementType.object (Some "a")
              None (FrameIntervals.init FvNone).1 None
              "123e4567-e89b-12d3-a456-426614174000")
    as (s' & Hrun & Hmode & _).
  - vm_compute. reflexivity.
  - reflexivity.
  - exists s'. split; [exact Hrun|exact Hmode].
Defined.

Lemma has_none d element_type : VCD.has d element_type UNone = false.
Proof. unfold VCD.has. by destruct (vcd_elements d !! element_type). Qed.

(** X9. In the UUID mode, an upsert without a UID draws a UUID and creates
    the root record under the UUID object.  It then raises [AssertionError],
    the UUID object not being a text, when an interval was supplied or when
    the document-wide interval list is empty; only without an interval, on a
    document whose interval list is not empty, does it return the UUID. *)
Theorem uuid_mode_automatic_uid
    s element_type name semantic_type frame_intervals ont_uid :
  use_uuid s = true →
  let call := VCD.__add_element element_type name semantic_type frame_intervals UNone
                (VCD.arg_of_text ont_uid) None in
  let k := UidUUID (uuid4_values s (uuid4_calls s)) in
  is_Some (element_at (data (exec call s)) element_type k)
  ∧ uuid4_calls (exec call s) = S (uuid4_calls s)
  ∧ eval call s
    = if negb (FrameIntervals.empty frame_intervals)
         || FrameIntervals.empty (VCD.get_frame_intervals (data s))
      then Raise Py.AssertionError
      else Ok (Some k).
Proof.
  intros Hu call k.
  set (s1 := set_uuid4_calls (S (uuid4_calls s)) s).
  assert (run (VCD.__get_uid_to_assign element_type (VCD.arg_of_text None)) s
          = (Ok k, s1)) as Hget.
  { unfold run, VCD.__get_uid_to_assign, VCD.uuid4, bind, gets, modify. simpl.
    by rewrite Hu. }
  destruct (create_update_element_total element_type name semantic_type frame_intervals
              k ont_uid s1) as ([] & s2 & Hcu).
  pose proof (create_update_element_record element_type k name semantic_type
                frame_intervals ont_uid None (doc_elements s1) (vcd_ontologies (data s1))
                s1 tt s2 (conj eq_refl eq_refl) Hcu (data s1) eq_refl) as Hels.
  pose proof (create_update_element_keeps_allocator element_type name semantic_type
                frame_intervals k ont_uid None s1) as Hal.
  pose proof (create_update_element_keeps_span element_type name semantic_type
                frame_intervals k ont_uid None s1) as Hsp.
  unfold exec in Hal, Hsp.
  fold (run (VCD.__create_update_element element_type name semantic_type
               frame_intervals k ont_uid None) s1) in Hal, Hsp.
  rewrite Hcu in Hal, Hsp. simpl in Hal, Hsp.
  assert (run call s
          = if negb (FrameIntervals.empty frame_intervals)
               || FrameIntervals.empty (VCD.get_frame_intervals (data s))
            then (Raise Py.AssertionError, s2)
            else (Ok (Some k), s2)) as Hrun.
  { unfold call, VCD.__add_element.
    rewrite (coerce_uid_text ont_uid).
    change (VCD.coerce_uid UNone) with (@ret (option (option string)) (Some None)).
    rewrite (run_bind_ok (ret (Some None)) _ s (Some None) s eq_refl).
    rewrite (run_bind_ok (ret (Some ont_uid)) _ s (Some ont_uid) s eq_refl).
    rewrite (run_bind_ok (gets data) _ s (data s) s eq_refl).
    rewrite (run_bind_ok _ _ s _ _ Hget).
    rewrite (run_bind_ok (gets data) _ s1 (data s1) s1 eq_refl).
    rewrite (run_bind_ok _ _ s1 _ _ Hcu).
    cbn [VCD.arg_of_text]. rewrite has_none.
    assert (VCD.get_frame_intervals (data s2) = VCD.get_frame_intervals (data s)) as Hfi.
    { unfold VCD.get_frame_intervals. unfold doc_span in Hsp.
      replace (vcd_frame_intervals (data s2)) with (vcd_frame_intervals (data s)); [done|].
      by inversion Hsp. }
    destruct (FrameIntervals.empty frame_intervals) eqn:He; cbn [negb orb].
    - unfold run, bind, gets. cbv beta zeta. rewrite Hfi.
      by destruct (FrameIntervals.empty (VCD.get_frame_intervals (data s))).
    - reflexivity. }
  unfold exec, eval. fold (run call s). rewrite Hrun.
  assert (is_Some (element_at (data s2) element_type k)) as Hex.
  { unfold element_at. unfold doc_elements in Hels. rewrite Hels.
    rewrite with_element_lookup. by eexists. }
  assert (uuid4_calls s2 = S (uuid4_calls s)) as Hcalls.
  { unfold allocator in Hal. by inversion Hal. }
  by destruct (negb (FrameIntervals.empty frame_intervals)
               || FrameIntervals.empty (VCD.get_frame_intervals (data s))).
Qed.

Lemma uuid_mode_automatic_uid_witness :
  eval (VCD.__add_element ElementType.object (Some "a") (Some "")
          (FrameIntervals.init FvNone).1 UNone (VCD.arg_of_text None) None)
    (set_use_uuid_field true (VCD.init (λ _, "u")))
  = Raise Py.AssertionError.
Proof.
  apply (uuid_mode_automatic_uid (set_use_uuid_field true (VCD.init (λ _, "u")))
           ElementType.object (Some "a") (Some "") (FrameIntervals.init FvNone).1 None).
  reflexivity.
Defined.

(** ** Loops *)

Section loop_facts.

Context {A : Type}.

(** An invariant of the body is an invariant of the loop. *)
Lemma ensures_for_each_inv (I : State → Prop) (l : list A) (body : A → M unit) :
  (∀ x, x ∈ l → ensures I (body x) (λ _, I)) →
  ensures I (for_each l body) (λ _, I).
Proof.
  induction l as [|x r IH]; intros H; simpl.
  - apply ensures_ret. by intros.
  - eapply ensures_bind with (Q := λ _, I).
    + apply H. left.
    + intros _. apply IH. intros y Hy. apply H. by right.
Qed.

(** What each turn of a loop establishes for its own item, and no turn
    undoes for another item, holds for every item when the loop ends. *)
Lemma ensures_for_each_all (I : State → Prop) (Q : A → State → Prop)
    (l : list A) (body : A → M unit) :
  (∀ x, x ∈ l → ensures I (body x) (λ _ s, I s ∧ Q x s)) →
  (∀ x y, x ∈ l → ensures (λ s, I s ∧ Q y s) (body x) (λ _ s, Q y s)) →
  ensures I (for_each l body) (λ _ s, I s ∧ ∀ x, x ∈ l → Q x s).
Proof.
  intros H1 H2.
  enough (∀ seen : list A,
            ensures (λ s, I s ∧ ∀ y, y ∈ seen → Q y s) (for_each l body)
              (λ _ s, I s ∧ ∀ y, y ∈ (seen ++ l)%list → Q y s)) as Hgen.
  { intros s a s' Hs Hrun. apply (Hgen [] s a s'); [|exact Hrun].
    split; [exact Hs|]. intros y Hy. by apply elem_of_nil in Hy. }
  induction l as [|x r IH]; intros seen; simpl.
  - apply ensures_ret. intros s Hs. by rewrite app_nil_r.
  - eapply ensures_bind with (Q := λ _ s, I s ∧ ∀ y, y ∈ (seen ++ [x])%list → Q y s).
    + intros s a s' [Hs Hseen] Hrun.
      destruct (H1 x ltac:(left) s a s' Hs Hrun) as [Hs' Hx].
      split; [exact Hs'|]. intros y Hy. apply elem_of_app in Hy as [Hy|Hy].
      * apply (H2 x y ltac:(left) s a s'); [|exact Hrun]. split; [exact Hs|by apply Hseen].
      * apply list_elem_of_singleton in Hy as ->. exact Hx.
    + intros _. eapply ensures_weaken; [apply (IH ltac:(intros; apply H1; by right)
                                                  ltac:(intros; apply H2; by right)
                                                  (seen ++ [x])%list)| |].
      * by intros s Hs.
      * intros a s [Hs Hall]. split; [exact Hs|]. intros y Hy. apply Hall.
        by rewrite <- app_assoc.
Qed.

End loop_facts.

Lemma elem_of_range_incl a b f : f ∈ Py.range_incl a b ↔ a <= f <= b.
Proof.
  unfold Py.range_incl. rewrite list_elem_of_fmap. split.
  - intros (i & -> & Hi). apply elem_of_seq in Hi. lia.
  - intros Hf. exists (Z.to_nat (f - a)). split; [lia|]. apply elem_of_seq. lia.
Qed.

(** The frames of an interval list are those of the ranges of its intervals. *)
Lemma covers_ranges l f :
  covers l f ↔ ∃ fi, fi ∈ l ∧ f ∈ Py.range_incl (frame_start fi) (frame_end fi).
Proof.
  unfold covers. rewrite Exists_exists. split.
  - intros (fi & Hin & Hf). exists fi. split.
    + exact Hin.
    + apply elem_of_range_incl. exact Hf.
  - intros (fi & Hin & Hf). exists fi. split.
    + exact Hin.
    + apply elem_of_range_incl. exact Hf.
Qed.

Lemma rm_element_from_frame_clears element_type uid f s s' :
  run (VCD.rm_element_from_frame element_type uid f) s = (Ok tt, s') →
  shadow_at (data s') f element_type uid = None
  ∧ (∀ f', f' ≠ f → VCD.get_frame (data s') f' = VCD.get_frame (data s) f')
  ∧ doc_elements s' = doc_elements s
  ∧ vcd_frame_intervals (data s') = vcd_frame_intervals (data s).
Proof.
  destruct s as [uu last d w uv uc].
  unfold VCD.rm_element_from_frame, VCD.put_frame, run, bind, gets, modify_data, modify,
    subscript, ret. simpl.
  destruct (vcd_frames d) as [fs|] eqn:Hfs; [|done]. simpl.
  destruct (fs !! f) as [frame|] eqn:Hfr; [|done]. simpl.
  destruct (fr_elements frame !! element_type) as [bucket|] eqn:Hb; [|done]. simpl.
  rewrite Hfs. simpl.
  destruct (bool_decide (size (delete uid bucket) = 0%nat)); simpl.
  - destruct (bool_decide _); simpl; intros [= <-]; unfold shadow_at, VCD.get_frame; simpl.
    + rewrite lookup_delete_eq. split; [done|]. split; [|done].
      intros f' Hne. rewrite lookup_delete_ne by done.
      rewrite !lookup_insert_ne by done. by rewrite Hfs.
    + rewrite lookup_insert_eq. simpl. rewrite lookup_delete_eq. split; [done|].
      split; [|done].
      intros f' Hne. rewrite !lookup_insert_ne by done. by rewrite Hfs.
  - intros [= <-]. unfold shadow_at, VCD.get_frame; simpl.
    rewrite lookup_insert_eq. simpl. rewrite lookup_insert_eq, lookup_delete_eq.
    split; [done|]. split; [|done].
    intros f' Hne. rewrite !lookup_insert_ne by done. by rewrite Hfs.
Qed.

Lemma ensures_gets {A} (P : State → Prop) (g : State → A) :
  ensures P (gets g) (λ a s, a = g s ∧ P s).
Proof. by intros s a s' Hs [= <- <-]. Qed.

Lemma ensures_subscript {A} (P : State → Prop) (x : option A) :
  ensures P (subscript x) (λ a s, x = Some a ∧ P s).
Proof. intros s a s' Hs. destruct x; [|done]. by intros [= <- <-]. Qed.

Lemma shadow_at_get_frame d d' f element_type uid :
  VCD.get_frame d' f = VCD.get_frame d f →
  shadow_at d' f element_type uid = shadow_at d f element_type uid.
Proof. unfold shadow_at. by intros ->. Qed.

(** The loops of [rm_element] leave no shadow of the element in the frames
    of the interval list they run over, and touch neither the root records nor
    the document-wide interval list. *)
Lemma rm_element_loops element_type uid fis els0 fi0 :
  ensures (λ s, doc_elements s = els0 ∧ vcd_frame_intervals (data s) = fi0)
    (for_each fis (λ fi,
       for_each (Py.range_incl (frame_start fi) (frame_end fi))
         (VCD.rm_element_from_frame element_type uid)))
    (λ _ s, (doc_elements s = els0 ∧ vcd_frame_intervals (data s) = fi0)
            ∧ ∀ f, covers fis f → shadow_at (data s) f element_type uid = None).
Proof.
  set (I := λ s : State, doc_elements s = els0 ∧ vcd_frame_intervals (data s) = fi0).
  set (Q := λ (f : Z) (s : State), shadow_at (data s) f element_type uid = None).
  assert (H1 : ∀ f, ensures I (VCD.rm_element_from_frame element_type uid f)
                      (λ _ s, I s ∧ Q f s)).
  { intros f s [] s' [Hels Hfi] Hrun.
    apply rm_element_from_frame_clears in Hrun as (Hq & _ & He & Hf).
    unfold I, Q. rewrite He, Hf. done. }
  assert (H2 : ∀ f y, ensures (λ s, I s ∧ Q y s)
                        (VCD.rm_element_from_frame element_type uid f) (λ _ s, Q y s)).
  { intros f y s [] s' [_ Hy] Hrun.
    apply rm_element_from_frame_clears in Hrun as (Hq & Hother & _).
    destruct (decide (y = f)) as [->|Hne]; [exact Hq|].
    unfold Q in *. rewrite <- Hy. apply shadow_at_get_frame. by apply Hother. }
  set (Q' := λ (fi : fi_dict) (s : State),
               ∀ f, f ∈ Py.range_incl (frame_start fi) (frame_end fi) → Q f s).
  eapply ensures_weaken.
  - apply (ensures_for_each_all I Q').
    + intros fi _. apply (ensures_for_each_all I Q).
      * intros f _. apply H1.
      * intros f y _. apply H2.
    + intros fi y _.
      eapply ensures_weaken;
        [apply (ensures_for_each_inv (λ s, I s ∧ Q' y s))| |].
      * intros f _ s [] s' [Hs Hy] Hrun. split.
        -- by apply (H1 f s tt s').
        -- intros f' Hf'. apply (H2 f f' s tt s'); [|exact Hrun]. split; [exact Hs|].
           by apply Hy.
      * by intros s Hs.
      * by intros a s [_ Hs].
  - by intros s Hs.
  - intros a s [Hs Hall]. split; [exact Hs|].
    intros f Hf. apply covers_ranges in Hf as (fi & Hin & Hf). by apply (Hall fi).
Qed.

(** X10. When [rm_element] returns for an element that exists, the root
    record of the element is gone and every other root record is what it
    was; no frame of the interval of the element holds a shadow of it any
    more; and [get_num_elements] gives one less than before. *)
Theorem rm_element_removes s s' element_type uid k e :
  key_of_arg uid = Some k →
  element_at (data s) element_type k = Some e →
  run (VCD.rm_element element_type uid) s = (Ok tt, s') →
  element_at (data s') element_type k = None
  ∧ (∀ element_type' k', (element_type', k') ≠ (element_type, k) →
       element_at (data s') element_type' k' = element_at (data s) element_type' k')
  ∧ (∀ f, covers (default [] (el_frame_intervals e)) f →
       shadow_at (data s') f element_type k = None)
  ∧ ∃ n, eval (VCD.get_num_elements element_type) s = Ok (S n)
         ∧ eval (VCD.get_num_elements element_type) s' = Ok n.
Proof.
  intros Hk He Hrun.
  unfold element_at in He.
  destruct (vcd_elements (data s) !! element_type) as [m|] eqn:Hm; [|done].
  assert (VCD.has (data s) element_type uid = true) as Hhas.
  { unfold VCD.has. rewrite Hm, Hk. apply bool_decide_eq_true. by eexists. }
  unfold VCD.rm_element in Hrun.
  rewrite (run_bind_ok (gets data) _ s (data s) s eq_refl) in Hrun.
  rewrite Hm in Hrun.
  rewrite (run_bind_ok (subscript (Some m)) _ s m s eq_refl) in Hrun.
  rewrite Hhas in Hrun. cbn [negb] in Hrun. rewrite Hk in Hrun.
  rewrite (run_bind_ok (subscript (Some k)) _ s k s eq_refl) in Hrun.
  rewrite He in Hrun.
  rewrite (run_bind_ok (subscript (Some e)) _ s e s eq_refl) in Hrun.
  destruct (el_frame_intervals e) as [fis|] eqn:Hfis; [|done].
  rewrite (run_bind_ok (subscript (Some fis)) _ s fis s eq_refl) in Hrun.
  rewrite run_bind in Hrun.
  destruct (run (for_each fis _) s) as [[[]|?] s2] eqn:Hloops; [|done].
  apply (rm_element_loops element_type k fis (doc_elements s)
           (vcd_frame_intervals (data s)) s tt s2 (conj eq_refl eq_refl)) in Hloops
    as [[Hels _] Hshadows].
  injection Hrun as <-.
  unfold doc_elements in Hels. unfold element_at. simpl. rewrite Hels.
  split; [|split; [|split]].
  - rewrite lookup_alter_eq, Hm. simpl. apply lookup_delete_eq.
  - intros element_type' k' Hne.
    destruct (decide (element_type' = element_type)) as [->|Ht].
    + rewrite lookup_alter_eq, Hm. simpl. apply lookup_delete_ne. congruence.
    + by rewrite lookup_alter_ne.
  - intros f Hf. specialize (Hshadows f Hf).
    unfold shadow_at, VCD.get_frame in *. simpl. exact Hshadows.
  - exists (pred (size m)).
    unfold eval, VCD.get_num_elements, bind, gets, subscript. simpl.
    rewrite Hm, lookup_alter_eq, Hm. simpl.
    assert (size m ≠ 0%nat) as Hsize.
    { intros Hz. apply map_size_empty_inv in Hz. subst m. by rewrite lookup_empty in He. }
    split.
    + f_equal. lia.
    + f_equal. apply map_size_delete_Some. by eexists.
Qed.

Lemma rm_element_removes_witness :
  element_at
    (data (exec (VCD.rm_element ElementType.object (UStr "0"))
             (exec (VCD.add_object "a" "" (FvTuple (0, 1)) UNone UNone None)
                (VCD.init (λ _, "")))))
    ElementType.object (UidStr "0") = None.
Proof.
  eapply (rm_element_removes
            (exec (VCD.add_object "a" "" (FvTuple (0, 1)) UNone UNone None)
               (VCD.init (λ _, "")))
            _ ElementType.object (UStr "0") (UidStr "0")).
  - reflexivity.
  - vm_compute. reflexivity.
  - vm_compute. reflexivity.
Defined.

Lemma rm_element_from_frame_keeps element_type uid f :
  preserves (λ s, (doc_elements s, vcd_frame_intervals (data s), allocator s))
    (VCD.rm_element_from_frame element_type uid f).
Proof. unfold VCD.rm_element_from_frame, VCD.put_frame. preserves_auto. Qed.

(** X11. [rm_element] never changes the document-wide interval list nor
    the UID allocator, even where it deletes frames.  It raises [KeyError] on
    a document without elements of the type, and returns at once for a UID
    that names no element, the instance being left as it was in both cases.
    Whenever it raises, the root records are what they were. *)
Theorem rm_element_edge_cases s element_type uid :
  let s' := exec (VCD.rm_element element_type uid) s in
  vcd_frame_intervals (data s') = vcd_frame_intervals (data s)
  ∧ allocator s' = allocator s
  ∧ (vcd_elements (data s) !! element_type = None →
     run (VCD.rm_element element_type uid) s = (Raise Py.KeyError, s))
  ∧ (is_Some (vcd_elements (data s) !! element_type) →
     VCD.has (data s) element_type uid = false →
     run (VCD.rm_element element_type uid) s = (Ok tt, s))
  ∧ (eval (VCD.rm_element element_type uid) s ≠ Ok tt →
     doc_elements s' = doc_elements s).
Proof.
  intros s'.
  assert (preserves (λ s, (vcd_frame_intervals (data s), allocator s))
            (VCD.rm_element element_type uid)) as Hkeep.
  { unfold VCD.rm_element. preserves_auto.
    match goal with
    | |- preserves _ (VCD.rm_element_from_frame ?et ?k ?f) =>
        intros s1; pose proof (rm_element_from_frame_keeps et k f s1) as H
    end.
    cbv beta in *. congruence. }
  specialize (Hkeep s). fold s' in Hkeep. cbv beta in Hkeep.
  split; [congruence|]. split; [congruence|].
  split; [|split].
  - intros Hnone. unfold run, VCD.rm_element, bind, gets, subscript. by rewrite Hnone.
  - intros [m Hm] Hhas. unfold run, VCD.rm_element, bind, gets, subscript.
    by rewrite Hm, Hhas.
  - set (P := λ s1 : State, doc_elements s1 = doc_elements s).
    assert (Hstep : ∀ A B (m : M A) (k : A → M B),
              preserves doc_elements m →
              (∀ a, triple P (k a) (λ _ _, True) (λ _, P)) →
              triple P (bind m k) (λ _ _, True) (λ _, P)).
    { intros A B m k Hm Hk. eapply triple_bind; [|exact Hk].
      eapply triple_weaken;
        [apply (triple_preserves doc_elements m (λ els, els = doc_elements s) Hm)
        |done|done|done]. }
    assert (triple P (VCD.rm_element element_type uid) (λ _ _, True) (λ _, P)) as Ht.
    { unfold VCD.rm_element.
      apply Hstep; [apply preserves_gets|]. intros d.
      apply Hstep; [apply preserves_subscript|]. intros m.
      destruct (negb (VCD.has d element_type uid)); [by apply triple_ret|].
      apply Hstep; [apply preserves_subscript|]. intros k.
      apply Hstep; [apply preserves_subscript|]. intros e.
      apply Hstep; [apply preserves_subscript|]. intros fis.
      apply Hstep.
      - preserves_auto.
        match goal with
        | |- preserves _ (VCD.rm_element_from_frame ?et ?k ?f) =>
            intros s1; pose proof (rm_element_from_frame_keeps et k f s1) as H
        end.
        cbv beta in *. congruence.
      - intros _. by apply triple_modify. }
    specialize (Ht s eq_refl). unfold eval, s', exec.
    fold (run (VCD.rm_element element_type uid) s).
    destruct (run (VCD.rm_element element_type uid) s) as [[[]|err] s1]; simpl.
    + done.
    + intros _. exact Ht.
Qed.

(** ** Shadows of a new element *)

(** [frame_setdefault_element] gives the frame an entry for the element and
    changes nothing that the frame held. *)
Lemma frame_setdefault_element_spec element_type uid fr :
  let fr' := VCD.frame_setdefault_element element_type uid fr in
  fr_properties fr' = fr_properties fr
  ∧ is_Some (match fr_elements fr' !! element_type with
             | Some m => m !! uid
             | None => None
             end)
  ∧ ∀ element_type' k' x,
      match fr_elements fr !! element_type' with
      | Some m => m !! k'
      | None => None
      end = Some x →
      match fr_elements fr' !! element_type' with
      | Some m => m !! k'
      | None => None
      end = Some x.
Proof.
  unfold VCD.frame_setdefault_element. simpl. split; [done|]. split.
  - rewrite lookup_insert_eq.
    destruct (default ∅ (fr_elements fr !! element_type) !! uid) eqn:E.
    + rewrite E. by eexists.
    + rewrite lookup_insert_eq. by eexists.
  - intros element_type' k' x.
    destruct (decide (element_type' = element_type)) as [->|Hne].
    + rewrite lookup_insert_eq.
      destruct (fr_elements fr !! element_type) as [bucket|]; [|done]. simpl.
      intros Hx. destruct (bucket !! uid) eqn:E; [exact Hx|].
      rewrite lookup_insert_ne; [exact Hx|]. intros ->. congruence.
    + by rewrite lookup_insert_ne.
Qed.

Lemma add_frames_body_run element_type uid_s f s fs :
  vcd_frames (data s) = Some fs →
  ∃ s', run (add_frames_body element_type uid_s f) s = (Ok tt, s')
    ∧ is_Some (vcd_frames (data s'))
    ∧ is_Some (shadow_at (data s') f element_type (UidStr uid_s))
    ∧ (∀ f' element_type' k' x,
         shadow_at (data s) f' element_type' k' = Some x →
         shadow_at (data s') f' element_type' k' = Some x)
    ∧ (∀ f', f' ≠ f → VCD.get_frame (data s') f' = VCD.get_frame (data s) f')
    ∧ (∀ fr, VCD.get_frame (data s) f = Some fr →
         ∃ fr', VCD.get_frame (data s') f = Some fr'
                ∧ fr_properties fr' = fr_properties fr)
    ∧ doc_elements s' = doc_elements s
    ∧ vcd_frame_intervals (data s') = vcd_frame_intervals (data s)
    ∧ allocator s' = allocator s.
Proof.
  intros Hfs. destruct s as [uu last d w uv uc]. simpl in Hfs.
  assert (Hput : ∀ fr0 (fs0 : gmap Z Frame),
            fs0 !! f = Some fr0 →
            (∀ f', f' ≠ f → fs0 !! f' = fs !! f') →
            (∀ fr, fs !! f = Some fr → fr0 = fr) →
            let s' := {| use_uuid := uu; lastUID := last;
                         data := set_vcd_frames
                                   (Some (<[f := VCD.frame_setdefault_element element_type
                                                   (UidStr uid_s) fr0]> fs0)) d;
                         warnings := w; uuid4_values := uv; uuid4_calls := uc |} in
            is_Some (vcd_frames (data s'))
            ∧ is_Some (shadow_at (data s') f element_type (UidStr uid_s))
            ∧ (∀ f' element_type' k' x,
                 shadow_at d f' element_type' k' = Some x →
                 shadow_at (data s') f' element_type' k' = Some x)
            ∧ (∀ f', f' ≠ f → VCD.get_frame (data s') f' = VCD.get_frame d f')
            ∧ (∀ fr, VCD.get_frame d f = Some fr →
                 ∃ fr', VCD.get_frame (data s') f = Some fr'
                        ∧ fr_properties fr' = fr_properties fr)
            ∧ doc_elements s' = vcd_elements d
            ∧ vcd_frame_intervals (data s') = vcd_frame_intervals d
            ∧ allocator s' = (uu, last, uc)).
  { intros fr0 fs0 Hfr0 Hother Hsame s'.
    destruct (frame_setdefault_element_spec element_type (UidStr uid_s) fr0)
      as (Hprops & Hshadow & Hkeep).
    unfold shadow_at, VCD.get_frame. simpl. rewrite Hfs.
    split; [by eexists|]. split; [by rewrite lookup_insert_eq|].
    split; [|split; [|split; [|done]]].
    - intros f' element_type' k' x.
      destruct (decide (f' = f)) as [->|Hne].
      + rewrite lookup_insert_eq. destruct (fs !! f) as [fr|] eqn:Hfr; [|done].
        rewrite <- (Hsame fr eq_refl). apply Hkeep.
      + rewrite lookup_insert_ne by done. by rewrite Hother.
    - intros f' Hne. rewrite lookup_insert_ne by done. by apply Hother.
    - intros fr Hfr. rewrite lookup_insert_eq. eexists. split; [done|].
      by rewrite Hprops, (Hsame fr Hfr). }
  destruct (fs !! f) as [frame|] eqn:Hfr.
  - exists {| use_uuid := uu; lastUID := last;
              data := set_vcd_frames
                        (Some (<[f := VCD.frame_setdefault_element element_type
                                        (UidStr uid_s) frame]> fs)) d;
              warnings := w; uuid4_values := uv; uuid4_calls := uc |}.
    split.
    + unfold add_frames_body, VCD.__add_frame, VCD.put_frame, run, bind, gets,
        modify_data, modify, subscript, ret, VCD.get_frame. simpl.
      rewrite Hfs. simpl. rewrite Hfr. simpl. rewrite Hfs, Hfr. simpl. by rewrite Hfs.
    + assert (∀ fr, Some frame = Some fr → frame = fr) as Hsame by (by intros fr [= ->]).
      exact (Hput frame fs Hfr (λ _ _, eq_refl) Hsame).
  - assert (∀ f', f' ≠ f → <[f := empty_frame]> fs !! f' = fs !! f') as Hother.
    { intros f' Hne. by rewrite lookup_insert_ne. }
    assert (∀ fr, @None Frame = Some fr → empty_frame = fr) as Hsame by done.
    pose proof (Hput empty_frame (<[f := empty_frame]> fs) (lookup_insert_eq _ _ _)
                  Hother Hsame) as H.
    cbv zeta in H. rewrite insert_insert_eq in H.
    eexists. split; [|exact H].
    unfold add_frames_body, VCD.__add_frame, VCD.put_frame, run, bind, gets,
      modify_data, modify, subscript, ret, VCD.get_frame. simpl.
    rewrite Hfs. simpl. rewrite Hfr. simpl. rewrite Hfs. simpl.
    rewrite lookup_insert_eq. simpl. by rewrite insert_insert_eq.
Qed.

Lemma frames_extend_refl d : frames_extend d d.
Proof. split; [done|]. intros f fr Hfr. by exists fr. Qed.

Lemma frames_extend_trans d1 d2 d3 :
  frames_extend d1 d2 → frames_extend d2 d3 → frames_extend d1 d3.
Proof.
  intros [Hs12 Hf12] [Hs23 Hf23]. split.
  - intros f et k x Hx. by apply Hs23, Hs12.
  - intros f fr Hfr. destruct (Hf12 f fr Hfr) as (fr2 & Hfr2 & Hp2).
    destruct (Hf23 f fr2 Hfr2) as (fr3 & Hfr3 & Hp3). exists fr3. split; [done|].
    congruence.
Qed.

Section returns_loops.

Context {A : Type}.

(** A loop returns when every turn does, from any state that satisfies the
    invariant; its turns establish [Q] for every item as in
    [ensures_for_each_all]. *)
Lemma returns_for_each_all (I : State → Prop) (Q : A → State → Prop)
    (l : list A) (body : A → M unit) :
  (∀ x, x ∈ l → returns I (body x) (λ _ s, I s ∧ Q x s)) →
  (∀ x y, x ∈ l → ensures (λ s, I s ∧ Q y s) (body x) (λ _ s, Q y s)) →
  returns I (for_each l body) (λ _ s, I s ∧ ∀ x, x ∈ l → Q x s).
Proof.
  intros H1 H2.
  assert (returns I (for_each l body) (λ _, I)) as Hret.
  { clear H2. induction l as [|x r IH]; simpl.
    - apply returns_ret. by intros.
    - eapply returns_bind.
      + eapply returns_weaken; [apply (H1 x); left|done|].
        intros a s [Hs _]. exact Hs.
      + intros ?; cbv beta. apply IH. intros y Hy. apply H1. by right. }
  intros s Hs. destruct (Hret s Hs) as (a & s' & Hrun & _).
  exists a, s'. split; [exact Hrun|].
  eapply (ensures_for_each_all I Q l body); [| |exact Hs|exact Hrun].
  - intros x Hx s1 a1 s1' Hs1 Hrun1.
    destruct (H1 x Hx s1 Hs1) as (a2 & s2 & Hrun2 & Hq).
    rewrite Hrun1 in Hrun2. by injection Hrun2 as <- <-.
  - exact H2.
Qed.

End returns_loops.

(** [__add_frames] for a text UID, on a document that has a frames map:
    it returns; every frame of the interval holds a shadow of the element;
    the frames outside the interval are untouched, and nothing that the frames
    held is lost. *)
Lemma add_frames_returns element_type uid_s fi s0 :
  coherent fi →
  is_Some (vcd_frames (data s0)) →
  returns (λ s, s = s0) (VCD.__add_frames fi element_type (UStr uid_s))
    (λ _ s,
       (is_Some (vcd_frames (data s))
        ∧ frames_extend (data s0) (data s)
        ∧ (∀ f, ¬ covers (FrameIntervals.get_dict fi) f →
             VCD.get_frame (data s) f = VCD.get_frame (data s0) f)
        ∧ doc_elements s = doc_elements s0
        ∧ vcd_frame_intervals (data s) = vcd_frame_intervals (data s0)
        ∧ allocator s = allocator s0)
       ∧ ∀ f, covers (FrameIntervals.get_dict fi) f →
           is_Some (shadow_at (data s) f element_type (UidStr uid_s))).
Proof.
  intros Hc Hfs0.
  set (I := λ s : State,
         is_Some (vcd_frames (data s))
         ∧ frames_extend (data s0) (data s)
         ∧ (∀ f, ¬ covers (FrameIntervals.get_dict fi) f →
              VCD.get_frame (data s) f = VCD.get_frame (data s0) f)
         ∧ doc_elements s = doc_elements s0
         ∧ vcd_frame_intervals (data s) = vcd_frame_intervals (data s0)
         ∧ allocator s = allocator s0).
  set (Q := λ (f : Z) (s : State),
         is_Some (shadow_at (data s) f element_type (UidStr uid_s))).
  assert (HI0 : I s0).
  { unfold I. split; [done|]. split; [apply frames_extend_refl|]. done. }
  assert (Hcov : ∀ p f, p ∈ FrameIntervals.get fi → f ∈ Py.range_incl p.1 p.2 →
                        covers (FrameIntervals.get_dict fi) f).
  { intros p f Hp Hf. unfold FrameIntervals.get in Hp. rewrite Hc in Hp.
    apply list_elem_of_fmap in Hp as (d & -> & Hd). apply covers_ranges. by exists d. }
  assert (Hcov' : ∀ f, covers (FrameIntervals.get_dict fi) f →
                       ∃ p, p ∈ FrameIntervals.get fi ∧ f ∈ Py.range_incl p.1 p.2).
  { intros f Hf. apply covers_ranges in Hf as (d & Hd & Hf).
    exists (frame_start d, frame_end d). split; [|done].
    unfold FrameIntervals.get. rewrite Hc. apply list_elem_of_fmap. by exists d. }
  assert (H1 : ∀ f, covers (FrameIntervals.get_dict fi) f →
                    returns I (add_frames_body element_type uid_s f)
                      (λ _ s, I s ∧ Q f s)).
  { intros f Hf s (Hfs & Hext & Hout & Hels & Hfi & Hal). destruct Hfs as [fs Hfs].
    destruct (add_frames_body_run element_type uid_s f s fs Hfs)
      as (s' & Hrun & Hfs' & Hq & Hkeep & Hother & Hprops & Hels' & Hfi' & Hal').
    exists tt, s'. split; [exact Hrun|]. split; [|exact Hq].
    split; [exact Hfs'|]. split.
    { eapply frames_extend_trans; [exact Hext|]. split; [exact Hkeep|].
      intros f' fr Hfr. destruct (decide (f' = f)) as [->|Hne].
      - by apply Hprops.
      - exists fr. by rewrite Hother. }
    split.
    { intros f' Hf'. rewrite Hother; [by apply Hout|]. by intros ->. }
    split; [congruence|]. split; congruence. }
  assert (H2 : ∀ f y, ensures (λ s, I s ∧ Q y s) (add_frames_body element_type uid_s f)
                        (λ _ s, Q y s)).
  { intros f y s [] s' [(Hfs & _) [x Hy]] Hrun. destruct Hfs as [fs Hfs].
    destruct (add_frames_body_run element_type uid_s f s fs Hfs)
      as (s1 & Hrun1 & _ & _ & Hkeep & _).
    assert (s1 = s') as -> by congruence. exists x. by apply Hkeep. }
  unfold VCD.__add_frames.
  destruct (FrameIntervals.empty fi) eqn:He.
  - apply returns_ret. intros s ->. split; [exact HI0|].
    intros f Hf. apply Hcov' in Hf as (p & Hp & _).
    unfold FrameIntervals.empty in He. apply orb_true_iff in He.
    unfold FrameIntervals.get in Hp. rewrite Hc in Hp.
    apply list_elem_of_fmap in Hp as (d & _ & Hd).
    assert (FrameIntervals.fis_dict fi = []) as Hnil.
    { destruct He as [He|He]; apply bool_decide_eq_true in He.
      - by apply length_zero_iff_nil.
      - rewrite Hc in He. unfold utils.as_frame_intervals_array_tuples in He.
        rewrite length_fmap in He. by apply length_zero_iff_nil. }
    rewrite Hnil in Hd. by apply elem_of_nil in Hd.
  - set (Q' := λ (p : Z * Z) (s : State), ∀ f, f ∈ Py.range_incl p.1 p.2 → Q f s).
    eapply returns_weaken.
    + apply (returns_for_each_all I Q').
      * intros p Hp. apply (returns_for_each_all I Q).
        -- intros f Hf. apply H1. by eapply Hcov.
        -- intros f y _. apply H2.
      * intros p y Hp.
        eapply ensures_weaken;
          [apply (ensures_for_each_inv (λ s, I s ∧ Q' y s))| |].
        -- intros f Hf s [] s' [Hs Hy] Hrun.
           destruct (H1 f (Hcov p f Hp Hf) s Hs) as ([] & s1 & Hrun1 & Hs1 & _).
           change (run (add_frames_body element_type uid_s f) s = (Ok tt, s')) in Hrun.
           assert (s1 = s') as -> by congruence.
           split; [exact Hs1|].
           intros f' Hf'. apply (H2 f f' s tt s'); [|exact Hrun]. split; [exact Hs|].
           by apply Hy.
        -- by intros s Hs.
        -- by intros a s [_ Hs].
    + intros s ->. exact HI0.
    + intros a s [Hs Hall]. split; [exact Hs|].
      intros f Hf. apply Hcov' in Hf as (p & Hp & Hf). by apply (Hall p).
Qed.

(** [__update_vcd_frame_intervals] on a document that has an interval
    list: the list then covers the frames it covered and those of the
    interval supplied, and nothing else changes. *)
Lemma update_vcd_frame_intervals_run fi s l :
  FrameIntervals.empty fi = false →
  vcd_frame_intervals (data s) = Some l →
  ∃ s', run (VCD.__update_vcd_frame_intervals fi) s = (Ok tt, s')
    ∧ (∀ f, covers (default [] (vcd_frame_intervals (data s'))) f
            ↔ covers l f ∨ covers (FrameIntervals.get_dict fi) f)
    ∧ vcd_frames (data s') = vcd_frames (data s)
    ∧ doc_elements s' = doc_elements s
    ∧ allocator s' = allocator s.
Proof.
  intros He Hl.
  set (U := FrameIntervals.union (FrameIntervals.of_dicts l) fi).
  assert (HU : FrameIntervals.get_dict U
               = utils.fuse_frame_intervals
                   (utils.fuse_frame_intervals
                      (FrameIntervals.get_dict fi ++ utils.fuse_frame_intervals l))).
  { unfold U, FrameIntervals.union, FrameIntervals.get_dict.
    by rewrite !of_dicts_fis_dict. }
  assert (Hcov : ∀ f, covers (FrameIntervals.get_dict U) f
                      ↔ covers l f ∨ covers (FrameIntervals.get_dict fi) f).
  { intros f. rewrite HU, !covers_fuse, covers_app, covers_fuse. tauto. }
  assert (Hrun : run (VCD.__update_vcd_frame_intervals fi) s
                 = run (VCD.__set_vcd_frame_intervals U) s).
  { unfold VCD.__update_vcd_frame_intervals. rewrite He. cbn [negb].
    unfold run, bind, gets, subscript. by rewrite Hl. }
  rewrite Hrun. unfold VCD.__set_vcd_frame_intervals.
  destruct (FrameIntervals.empty U) eqn:HeU; cbn [negb].
  - exfalso.
    assert (FrameIntervals.get_dict U = []) as HUnil.
    { unfold FrameIntervals.empty in HeU. apply orb_true_iff in HeU.
      pose proof (of_dicts_coherent
                    (utils.fuse_frame_intervals
                       (FrameIntervals.get_dict fi
                        ++ FrameIntervals.fis_dict (FrameIntervals.of_dicts l)))) as HcU.
      fold (FrameIntervals.union (FrameIntervals.of_dicts l) fi) in HcU. fold U in HcU.
      unfold FrameIntervals.get_dict.
      destruct HeU as [H|H]; apply bool_decide_eq_true in H.
      + by apply length_zero_iff_nil.
      + rewrite HcU in H. unfold utils.as_frame_intervals_array_tuples in H.
        rewrite length_fmap in H. by apply length_zero_iff_nil. }
    rewrite HU in HUnil. apply fuse_nil, fuse_nil, app_eq_nil in HUnil as [Hfi _].
    unfold FrameIntervals.empty in He. apply orb_false_iff in He as [He _].
    apply bool_decide_eq_false in He. apply He.
    unfold FrameIntervals.get_dict in Hfi. by rewrite Hfi.
  - eexists. split; [reflexivity|]. simpl. split; [exact Hcov|]. done.
Qed.

Lemma get_frame_same_frames d d' f :
  vcd_frames d' = vcd_frames d → VCD.get_frame d' f = VCD.get_frame d f.
Proof. unfold VCD.get_frame. by intros ->. Qed.

Lemma shadow_at_same_frames d d' f element_type uid :
  vcd_frames d' = vcd_frames d →
  shadow_at d' f element_type uid = shadow_at d f element_type uid.
Proof. intros H. by apply shadow_at_get_frame, get_frame_same_frames. Qed.

Lemma frames_extend_same_frames d1 d1' d2 d2' :
  vcd_frames d1' = vcd_frames d1 → vcd_frames d2' = vcd_frames d2 →
  frames_extend d1 d2 → frames_extend d1' d2'.
Proof.
  intros H1 H2 [Hs Hf]. split.
  - intros f et k x. rewrite (shadow_at_same_frames d1 d1'), (shadow_at_same_frames d2 d2')
      by done. apply Hs.
  - intros f fr. rewrite (get_frame_same_frames d1 d1'), (get_frame_same_frames d2 d2')
      by done. apply Hf.
Qed.

(** X12. In the integer mode, on a document that has a frames map and an
    interval list, adding an element with a non-empty interval and without a
    UID returns the next UID of the type.  The record of the element has the
    interval; every frame of the interval holds a shadow of the element; the
    document-wide interval list covers the frames it covered and those of the
    interval; the frames outside the interval are untouched, and every shadow
    and all frame properties that the frames held are kept. *)
Theorem new_element_gets_shadows
    s element_type name semantic_type fv ont_uid n fs l :
  let fi := (FrameIntervals.init fv).1 in
  let k := UidStr (Py.str_of_int (n + 1)) in
  use_uuid s = false →
  lastUID s !! element_type = Some n →
  vcd_frames (data s) = Some fs →
  vcd_frame_intervals (data s) = Some l →
  FrameIntervals.empty fi = false →
  ∃ s' e',
    run (VCD.__add_element element_type name semantic_type fi UNone
           (VCD.arg_of_text ont_uid) None) s
    = (Ok (Some k), s')
    ∧ element_at (data s') element_type k = Some e'
    ∧ el_frame_intervals e' = Some (FrameIntervals.get_dict fi)
    ∧ (∀ f, covers (FrameIntervals.get_dict fi) f →
         is_Some (shadow_at (data s') f element_type k))
    ∧ (∀ f, covers (default [] (vcd_frame_intervals (data s'))) f
            ↔ covers l f ∨ covers (FrameIntervals.get_dict fi) f)
    ∧ (∀ f, ¬ covers (FrameIntervals.get_dict fi) f →
         VCD.get_frame (data s') f = VCD.get_frame (data s) f)
    ∧ frames_extend (data s) (data s').
Proof.
  intros fi k Hu Hl Hfs Hfi He.
  set (call := VCD.__add_element element_type name semantic_type fi UNone
                 (VCD.arg_of_text ont_uid) None).
  set (s1 := set_lastUID (<[element_type := n + 1]> (lastUID s)) s).
  assert (run (VCD.__get_uid_to_assign element_type (VCD.arg_of_text None)) s
          = (Ok k, s1)) as Hget.
  { unfold run, VCD.__get_uid_to_assign, bind, gets, subscript. simpl.
    by rewrite Hu, Hl. }
  destruct (create_update_element_total element_type name semantic_type fi
              k ont_uid s1) as ([] & s2 & Hcu).
  pose proof (create_update_element_keeps_span element_type name semantic_type
                fi k ont_uid None s1) as Hsp.
  unfold exec in Hsp.
  fold (run (VCD.__create_update_element element_type name semantic_type
               fi k ont_uid None) s1) in Hsp.
  rewrite Hcu in Hsp. simpl in Hsp. unfold doc_span in Hsp.
  assert (vcd_frames (data s2) = vcd_frames (data s)) as Hfs2 by (by inversion Hsp).
  assert (vcd_frame_intervals (data s2) = vcd_frame_intervals (data s)) as Hfi2
    by (by inversion Hsp).
  destruct (add_frames_returns element_type (Py.str_of_int (n + 1)) fi s2
              (init_coherent fv) ltac:(rewrite Hfs2, Hfs; by eexists) s2 eq_refl)
    as ([] & s3 & Hrun3 & (Hfs3 & Hext3 & Hout3 & Hels3 & Hfi3 & _) & Hsh3).
  destruct (update_vcd_frame_intervals_run fi s3 l He ltac:(congruence))
    as (s4 & Hrun4 & Hcov4 & Hfs4 & Hels4 & _).
  assert (run call s = (Ok (Some k), s4)) as Hrun.
  { unfold call, VCD.__add_element.
    rewrite (coerce_uid_text ont_uid).
    change (VCD.coerce_uid UNone) with (@ret (option (option string)) (Some None)).
    rewrite (run_bind_ok (ret (Some None)) _ s (Some None) s eq_refl).
    rewrite (run_bind_ok (ret (Some ont_uid)) _ s (Some ont_uid) s eq_refl).
    rewrite (run_bind_ok (gets data) _ s (data s) s eq_refl).
    rewrite (run_bind_ok _ _ s _ _ Hget).
    rewrite (run_bind_ok (gets data) _ s1 (data s1) s1 eq_refl).
    rewrite (run_bind_ok _ _ s1 _ _ Hcu).
    cbn [VCD.arg_of_text]. rewrite has_none, He. cbn [negb].
    cbn [VCD.arg_of_key k].
    rewrite (run_bind_ok _ _ s2 tt s4); [done|].
    rewrite (run_bind_ok _ _ s2 _ _ Hrun3). exact Hrun4. }
  destruct (upsert_record_exists _ _ _ _ _ _ _ _ _ _ Hrun) as [e' He'].
  exists s4, e'. split; [exact Hrun|]. split; [exact He'|].
  split.
  { pose proof (add_element_record element_type name semantic_type fi UNone ont_uid
                  None s s (Some k) s4 eq_refl Hrun k eq_refl) as Hrec.
    unfold element_at in He'. unfold doc_elements in Hrec. rewrite Hrec in He'.
    rewrite with_element_lookup in He'. injection He' as <-. simpl. by rewrite He. }
  split.
  { intros f Hf. rewrite (shadow_at_same_frames (data s3)) by done. by apply Hsh3. }
  split; [exact Hcov4|].
  split.
  { intros f Hf. rewrite (get_frame_same_frames (data s3)) by done.
    rewrite (Hout3 f Hf). by apply get_frame_same_frames. }
  by apply (frames_extend_same_frames (data s2) (data s) (data s3) (data s4)).
Qed.

Lemma new_element_gets_shadows_witness :
  ∃ s' e',
    run (VCD.__add_element ElementType.object (Some "a") (Some "")
           (FrameIntervals.init (FvTuple (0, 2))).1 UNone (VCD.arg_of_text None) None)
      (VCD.init (λ _, ""))
    = (Ok (Some (UidStr (Py.str_of_int (-1 + 1)))), s')
    ∧ element_at (data s') ElementType.object (UidStr (Py.str_of_int (-1 + 1))) = Some e'
    ∧ el_frame_intervals e'
      = Some (FrameIntervals.get_dict (FrameIntervals.init (FvTuple (0, 2))).1).
Proof.
  destruct (new_element_gets_shadows (VCD.init (λ _, "")) ElementType.object (Some "a")
              (Some "") (FvTuple (0, 2)) None (-1) ∅ [])
    as (s' & e' & Hrun & He' & Hfi & _).
  - reflexivity.
  - reflexivity.
  - reflexivity.
  - reflexivity.
  - reflexivity.
  - exists s', e'. split; [exact Hrun|]. split; [exact He'|exact Hfi].
Defined.

(** ** Payloads *)

Lemma upsert_by_name_cons x y r :
  VCD.upsert_by_name x (y :: r)
  = if decide (ed_name y = ed_name x) then x :: r else y :: VCD.upsert_by_name x r.
Proof.
  unfold VCD.upsert_by_name. simpl.
  destruct (decide (ed_name y = ed_name x)); [done|].
  by destruct (list_find _ r) as [[pos z]|].
Qed.

(** The payload put in a list is the one found under its name. *)
Lemma payload_named_upsert (x : ElementData) (l : list ElementData) :
  payload_named (ed_name x) (VCD.upsert_by_name x l) = Some x.
Proof.
  unfold payload_named. induction l as [|y r IH].
  - unfold VCD.upsert_by_name. simpl. by rewrite decide_True.
  - rewrite upsert_by_name_cons. simpl.
    destruct (decide (ed_name y = ed_name x)) as [Heq|Hne]; simpl.
    + by rewrite decide_True.
    + rewrite decide_False by done.
      destruct (list_find (λ val, ed_name val = ed_name x) (VCD.upsert_by_name x r))
        as [[i z]|]; [|done].
      simpl in *. exact IH.
Qed.

(** What is found under the other names is what was found before. *)
Lemma payload_named_upsert_other (x : ElementData) (l : list ElementData) n :
  n ≠ ed_name x →
  payload_named n (VCD.upsert_by_name x l) = payload_named n l.
Proof.
  intros Hn. unfold payload_named. induction l as [|y r IH].
  - unfold VCD.upsert_by_name. simpl. by rewrite decide_False.
  - rewrite upsert_by_name_cons. simpl.
    destruct (decide (ed_name y = ed_name x)) as [Heq|Hne]; simpl.
    + by rewrite !decide_False by congruence.
    + destruct (decide (ed_name y = n)); [done|].
      destruct (list_find (λ val, ed_name val = n) (VCD.upsert_by_name x r))
        as [[i z]|],
        (list_find (λ val, ed_name val = n) r) as [[j z']|];
        simpl in *; congruence.
Qed.

(** X13. The payload list after a payload is put in it: the payload is the
    one found under its name; what is found under every other name is what
    was found before; and the list has grown by one exactly when the name was
    not in it. *)
Theorem upsert_by_name_lookup (x : ElementData) (l : list ElementData) :
  payload_named (ed_name x) (VCD.upsert_by_name x l) = Some x
  ∧ (∀ n, n ≠ ed_name x →
       payload_named n (VCD.upsert_by_name x l) = payload_named n l)
  ∧ length (VCD.upsert_by_name x l)
    = match payload_named (ed_name x) l with
      | Some _ => length l
      | None => S (length l)
      end.
Proof.
  split; [apply payload_named_upsert|].
  split; [intros n Hn; by apply payload_named_upsert_other|].
  unfold payload_named. induction l as [|y r IH].
  - done.
  - rewrite upsert_by_name_cons. simpl.
    destruct (decide (ed_name y = ed_name x)) as [Heq|Hne]; simpl; [done|].
    rewrite IH.
    by destruct (list_find (λ val, ed_name val = ed_name x) r) as [[j z']|].
Qed.

Lemma key_of_arg_of_key k : key_of_arg (VCD.arg_of_key k) = Some k.
Proof. by destruct k. Qed.

Lemma alter_as_insert `{Countable K} {V} (f : V → V) (m : gmap K V) i x :
  m !! i = Some x → alter f i m = <[i := f x]> m.
Proof.
  intros Hi. apply map_eq. intros j. destruct (decide (i = j)) as [<-|Hne].
  - by rewrite lookup_alter_eq, lookup_insert_eq, Hi.
  - by rewrite lookup_alter_ne, lookup_insert_ne.
Qed.

Lemma add_element_data_static_run s element_type uid k m e x fi :
  key_of_arg uid = Some k →
  vcd_elements (data s) !! element_type = Some m →
  m !! k = Some e →
  ed_in_stream x = None →
  FrameIntervals.empty fi = true →
  run (VCD.__add_element_data element_type uid x fi) s
  = (Ok tt,
     set_data
       (set_vcd_elements
          (<[element_type :=
               <[k := set_el_data_pointers
                        (Some (<[ed_name x :=
                                   {| edp_type := ed_type x;
                                      edp_frame_intervals := FrameIntervals.get_dict fi;
                                      edp_attributes :=
                                        VCD.flatten_attributes <$> ed_attributes x |}]>
                                 (default ∅ (el_data_pointers e))))
                        (set_el_data (VCD.data_upsert x (el_data e)) e)]> m]>
             (vcd_elements (data s)))
          (data s))
       s).
Proof.
  intros Hk Hm He Hin Hemp.
  assert (VCD.has (data s) element_type uid = true) as Hhas.
  { unfold VCD.has. rewrite Hm, Hk. apply bool_decide_eq_true. by eexists. }
  destruct s as [uu last d w uv uc]. simpl in *.
  unfold run, VCD.__add_element_data, bind, gets. simpl.
  rewrite Hhas, Hk, Hemp. simpl.
  unfold VCD.__create_update_element_data, VCD.__create_update_element_data_pointers,
    VCD.get_element, VCD.update_element, bind, gets, modify_data, modify, subscript, ret.
  rewrite Hin, Hemp. simpl. rewrite Hm, key_of_arg_of_key. simpl. rewrite He. simpl.
  rewrite lookup_alter_eq, Hm. simpl. rewrite lookup_alter_eq, He. simpl.
  rewrite (alter_as_insert _ (vcd_elements d) element_type m Hm).
  rewrite (alter_as_insert _ m k e He).
  rewrite alter_insert_eq, alter_insert_eq. done.
Qed.

(** X14. Attaching a payload that names no stream, without an interval, to
    an element that exists: the call returns; the payload is the one found
    under its name in the list of its kind in the root record, the payloads
    found under every other kind or name being what they were; the pointer
    that [get_element_data_pointer] gives for the name holds the kind, the
    interval list of the (empty) interval and the flattened attributes, the
    other pointers being what they were; the other fields of the record, the
    other records, the frames and the document-wide interval list are
    untouched. *)
Theorem static_payload_attached s element_type uid k e x fi :
  key_of_arg uid = Some k →
  element_at (data s) element_type k = Some e →
  ed_in_stream x = None →
  FrameIntervals.empty fi = true →
  ∃ s' e',
    run (VCD.__add_element_data element_type uid x fi) s = (Ok tt, s')
    ∧ element_at (data s') element_type k = Some e'
    ∧ payload_named (ed_name x) (default [] (default ∅ (el_data e') !! ed_type x))
      = Some x
    ∧ (∀ ty n, (ty, n) ≠ (ed_type x, ed_name x) →
         payload_named n (default [] (default ∅ (el_data e') !! ty))
         = payload_named n (default [] (default ∅ (el_data e) !! ty)))
    ∧ eval (VCD.get_element_data_pointer element_type uid (ed_name x)) s'
      = Ok (Some {| edp_type := ed_type x;
                    edp_frame_intervals := FrameIntervals.get_dict fi;
                    edp_attributes := VCD.flatten_attributes <$> ed_attributes x |})
    ∧ (∀ n, n ≠ ed_name x → pointer_at e' n = pointer_at e n)
    ∧ (el_name e', el_type e', el_frame_intervals e', el_ontology_uid e', el_stream e')
      = (el_name e, el_type e, el_frame_intervals e, el_ontology_uid e, el_stream e)
    ∧ (∀ element_type' k', (element_type', k') ≠ (element_type, k) →
         element_at (data s') element_type' k' = element_at (data s) element_type' k')
    ∧ doc_span s' = doc_span s.
Proof.
  intros Hk He Hin Hemp. unfold element_at in He.
  destruct (vcd_elements (data s) !! element_type) as [m|] eqn:Hm; [|done].
  eexists _, _. split; [by apply (add_element_data_static_run s element_type uid k m e)|].
  unfold element_at. simpl. rewrite lookup_insert_eq.
  split; [apply lookup_insert_eq|].
  split.
  { unfold VCD.data_upsert. simpl. rewrite lookup_insert_eq. simpl.
    apply payload_named_upsert. }
  split.
  { intros ty n Hne. unfold VCD.data_upsert. simpl.
    destruct (decide (ty = ed_type x)) as [->|Hty].
    - rewrite lookup_insert_eq. simpl.
      apply payload_named_upsert_other. congruence.
    - by rewrite lookup_insert_ne. }
  split.
  { unfold eval, VCD.get_element_data_pointer, bind, gets, subscript, VCD.has. simpl.
    rewrite lookup_insert_eq, Hk, lookup_insert_eq.
    rewrite bool_decide_eq_true_2 by (by eexists). simpl.
    rewrite lookup_insert_eq. unfold ret. simpl. by rewrite lookup_insert_eq. }
  split.
  { intros n Hn. unfold pointer_at. simpl. rewrite lookup_insert_ne by done.
    by destruct (el_data_pointers e). }
  split; [done|].
  split; [|done].
  intros element_type' k' Hne.
  destruct (decide (element_type' = element_type)) as [->|Ht].
  - rewrite lookup_insert_eq, Hm. apply lookup_insert_ne. congruence.
  - by rewrite lookup_insert_ne.
Qed.

Lemma static_payload_attached_witness :
  ∃ s' e',
    run (VCD.__add_element_data ElementType.object (UStr "0") text_color
           (FrameIntervals.init FvNone).1)
      (exec (VCD.add_object "a" "" FvNone UNone UNone None) (VCD.init (λ _, "")))
    = (Ok tt, s')
    ∧ element_at (data s') ElementType.object (UidStr "0") = Some e'
    ∧ payload_named (ed_name text_color)
        (default [] (default ∅ (el_data e') !! ed_type text_color))
      = Some text_color.
Proof.
  destruct (static_payload_attached
              (exec (VCD.add_object "a" "" FvNone UNone UNone None) (VCD.init (λ _, "")))
              ElementType.object (UStr "0") (UidStr "0")
              (set_el_type (Some "") (set_el_name (Some "a") empty_element))
              text_color (FrameIntervals.init FvNone).1)
    as (s' & e' & Hrun & He' & Hp & _).
  - reflexivity.
  - vm_compute. reflexivity.
  - reflexivity.
  - reflexivity.
  - exists s', e'. split; [exact Hrun|]. split; [exact He'|exact Hp].
Defined.

(** X15. A payload that names a stream is never stored: whatever the UID
    and the interval, [__create_update_element_data] leaves the instance as
    it is.  Attached without an interval to an element that exists, such a
    payload still gets its pointer in the root record when the call returns,
    while the payloads of the record are what they were. *)
Theorem in_stream_payload_never_stored s element_type uid k e x fi st :
  ed_in_stream x = Some st →
  exec (VCD.__create_update_element_data element_type k x fi) s = s
  ∧ (key_of_arg uid = Some k →
     element_at (data s) element_type k = Some e →
     FrameIntervals.empty fi = true →
     ∀ s', run (VCD.__add_element_data element_type uid x fi) s = (Ok tt, s') →
       ∃ e', element_at (data s') element_type k = Some e'
             ∧ el_data e' = el_data e
             ∧ is_Some (pointer_at e' (ed_name x))).
Proof.
  intros Hin.
  assert (∀ r s1, run (VCD.__create_update_element_data element_type k x fi) s = (r, s1) →
                  s1 = s) as Hsame.
  { intros r s1. unfold VCD.__create_update_element_data. rewrite Hin.
    rewrite run_bind, run_bind.
    destruct (run (VCD.has_stream st) s) as [[b|err] s2] eqn:Hhs.
    - apply has_stream_run in Hhs as [-> Hb].
      unfold run at 1, ret. unfold run. rewrite Hb. cbn [negb]. by intros [= _ <-].
    - assert (exec (VCD.has_stream st) s = s) as Hex by apply (has_stream_keeps id).
      unfold exec in Hex. fold (run (VCD.has_stream st) s) in Hex. rewrite Hhs in Hex.
      simpl in Hex. by intros [= _ <-]. }
  split.
  { unfold exec. fold (run (VCD.__create_update_element_data element_type k x fi) s).
    destruct (run _ s) as [r s1] eqn:Hrun. simpl. by apply (Hsame r s1). }
  intros Hk He Hemp s' Hrun. unfold element_at in He.
  destruct (vcd_elements (data s) !! element_type) as [m|] eqn:Hm; [|done].
  assert (VCD.has (data s) element_type uid = true) as Hhas.
  { unfold VCD.has. rewrite Hm, Hk. apply bool_decide_eq_true. by eexists. }
  unfold VCD.__add_element_data in Hrun.
  rewrite (run_bind_ok (gets data) _ s (data s) s eq_refl) in Hrun.
  rewrite Hhas, Hk, Hemp in Hrun. cbn [negb] in Hrun.
  rewrite (run_bind_ok (ret tt) _ s tt s eq_refl) in Hrun.
  rewrite run_bind in Hrun.
  destruct (run (VCD.__create_update_element_data element_type k x fi) s)
    as [[[]|err] s1] eqn:Hcu; [|done].
  pose proof (Hsame _ _ eq_refl) as ->.
  unfold run, VCD.__create_update_element_data_pointers, VCD.update_element, bind, gets,
    subscript, modify_data, modify in Hrun.
  rewrite Hm in Hrun. simpl in Hrun. rewrite He in Hrun. simpl in Hrun.
  injection Hrun as <-. unfold element_at, pointer_at. simpl.
  rewrite lookup_alter_eq, Hm. simpl. rewrite lookup_alter_eq, He. simpl.
  eexists. split; [reflexivity|]. split; [done|]. simpl.
  rewrite lookup_insert_eq. by eexists.
Qed.

Lemma in_stream_payload_never_stored_witness :
  exec (VCD.__create_update_element_data ElementType.object (UidStr "0")
          {| ed_type := "text"; ed_name := "color"; ed_val := VText "red";
             ed_attributes := None; ed_in_stream := Some "camera" |}
          (FrameIntervals.init (FvTuple (0, 3))).1)
    (VCD.init (λ _, ""))
  = VCD.init (λ _, "").
Proof.
  apply (in_stream_payload_never_stored (VCD.init (λ _, "")) ElementType.object UNone
           (UidStr "0") empty_element
           {| ed_type := "text"; ed_name := "color"; ed_val := VText "red";
              ed_attributes := None; ed_in_stream := Some "camera" |}
           (FrameIntervals.init (FvTuple (0, 3))).1 "camera").
  reflexivity.
Defined.

(** ** Updating the interval of an element *)

(** A text UID that is numeric or matches the UUID pattern is the UID that
    the upsert returns. *)
Lemma add_element_text_uid_key
    element_type name semantic_type fi u ont_uid stream s r s' :
  Py.isnumeric u = true ∨ Py.pattern_uuid_match u = true →
  run (VCD.__add_element element_type name semantic_type fi (UStr u)
         (VCD.arg_of_text ont_uid) stream) s = (Ok r, s') →
  r = Some (UidStr u).
Proof.
  intros Hu Hrun.
  assert (∃ s1, run (VCD.__get_uid_to_assign element_type (UStr u)) s
                = (Ok (UidStr u), s1)) as [s1 Hget].
  { unfold run, VCD.__get_uid_to_assign.
    destruct (Py.isnumeric u) eqn:Hn; [by eexists|].
    destruct Hu as [Hu|Hu]; [done|]. rewrite Hu. by eexists. }
  unfold VCD.__add_element in Hrun.
  rewrite (coerce_uid_text ont_uid) in Hrun.
  change (VCD.coerce_uid (UStr u))
    with (@ret (option (option string)) (Some (Some u))) in Hrun.
  rewrite (run_bind_ok (ret (Some (Some u))) _ s (Some (Some u)) s eq_refl) in Hrun.
  rewrite (run_bind_ok (ret (Some ont_uid)) _ s (Some ont_uid) s eq_refl) in Hrun.
  rewrite (run_bind_ok (gets data) _ s (data s) s eq_refl) in Hrun.
  cbn [VCD.arg_of_text] in Hrun.
  rewrite (run_bind_ok _ _ s _ _ Hget) in Hrun.
  rewrite (run_bind_ok (gets data) _ s1 (data s1) s1 eq_refl) in Hrun.
  rewrite run_bind in Hrun.
  destruct (run (VCD.__create_update_element _ _ _ _ _ _ _) s1) as [[[]|?] s2]; [|done].
  rewrite run_bind in Hrun.
  match type of Hrun with
  | match run ?m s2 with _ => _ end = _ => destruct (run m s2) as [[[]|?] s3]; [|done]
  end.
  by injection Hrun as <- _.
Qed.

Lemma covers_union a b f :
  covers (FrameIntervals.get_dict (FrameIntervals.union a b)) f
  ↔ covers (FrameIntervals.get_dict a) f ∨ covers (FrameIntervals.get_dict b) f.
Proof.
  unfold FrameIntervals.union, FrameIntervals.get_dict.
  rewrite of_dicts_fis_dict, !covers_fuse, covers_app. tauto.
Qed.

Lemma of_get_covers x f :
  covers (FrameIntervals.get_dict (FrameIntervals.of_get x)) f ↔ covers (default [] x) f.
Proof.
  destruct x as [l|]; simpl; [|done].
  unfold FrameIntervals.get_dict. by rewrite of_dicts_fis_dict, covers_fuse.
Qed.

Lemma empty_get_dict_nil fi :
  coherent fi → FrameIntervals.empty fi = true → FrameIntervals.get_dict fi = [].
Proof.
  intros Hc He. unfold FrameIntervals.empty in He. apply orb_true_iff in He.
  unfold FrameIntervals.get_dict.
  destruct He as [H|H]; apply bool_decide_eq_true in H.
  - by apply length_zero_iff_nil.
  - rewrite Hc in H. unfold utils.as_frame_intervals_array_tuples in H.
    rewrite length_fmap in H. by apply length_zero_iff_nil.
Qed.

Lemma union_coherent a b : coherent (FrameIntervals.union a b).
Proof. unfold FrameIntervals.union. apply of_dicts_coherent. Qed.

(** X16. When [__update_element] (behind [update_object], [update_action]
    and [update_context]) returns for an element that exists under a numeric
    or UUID-shaped text UID, its result is [None]; the interval of the element
    then covers the frames it covered and those of the interval supplied,
    never fewer; its name, type and payloads are what they were, and so is
    every other root record. *)
Theorem update_element_extends_interval s s' element_type u fi e r :
  Py.isnumeric u = true ∨ Py.pattern_uuid_match u = true →
  element_at (data s) element_type (UidStr u) = Some e →
  run (VCD.__update_element element_type (UStr u) fi) s = (Ok r, s') →
  r = None
  ∧ ∃ e',
      element_at (data s') element_type (UidStr u) = Some e'
      ∧ (∀ f, covers (default [] (el_frame_intervals e')) f
              ↔ covers (default [] (el_frame_intervals e)) f
                ∨ covers (FrameIntervals.get_dict fi) f)
      ∧ el_name e' = el_name e
      ∧ el_type e' = el_type e
      ∧ el_data e' = el_data e
      ∧ ∀ element_type' k', (element_type', k') ≠ (element_type, UidStr u) →
          element_at (data s') element_type' k' = element_at (data s) element_type' k'.
Proof.
  intros Hu He Hrun. pose proof He as He0. unfold element_at in He.
  destruct (vcd_elements (data s) !! element_type) as [m|] eqn:Hm; [|done].
  unfold VCD.__update_element in Hrun.
  rewrite (run_bind_ok (gets data) _ s (data s) s eq_refl) in Hrun.
  rewrite Hm in Hrun.
  rewrite (run_bind_ok (subscript (Some m)) _ s m s eq_refl) in Hrun.
  rewrite He in Hrun.
  destruct (el_name e) as [name|] eqn:Hname; [|done].
  rewrite (run_bind_ok (subscript (Some name)) _ s name s eq_refl) in Hrun.
  destruct (el_type e) as [type|] eqn:Htype; [|done].
  rewrite (run_bind_ok (subscript (Some type)) _ s type s eq_refl) in Hrun.
  rewrite (run_bind_ok (gets data) _ s (data s) s eq_refl) in Hrun.
  rewrite run_bind in Hrun.
  set (U := FrameIntervals.union
              (VCD.get_element_frame_intervals (data s) element_type (UStr u)) fi) in Hrun.
  destruct (run (VCD.__add_element element_type (Some name) (Some type) U (UStr u)
                   (VCD.arg_of_text (el_ontology_uid e)) (el_stream e)) s)
    as [[k|?] s1] eqn:Hadd; [|done].
  injection Hrun as <- <-. split; [done|].
  pose proof (add_element_text_uid_key _ _ _ _ _ _ _ _ _ _ Hu Hadd) as ->.
  pose proof (add_element_record element_type (Some name) (Some type) U (UStr u)
                (el_ontology_uid e) (el_stream e) s s _ s1 eq_refl Hadd _ eq_refl)
    as Hrec.
  rewrite He0 in Hrec. simpl in Hrec. unfold doc_elements in Hrec.
  eexists. unfold element_at. rewrite Hrec.
  split; [apply with_element_lookup|].
  assert (HU : ∀ f, covers (FrameIntervals.get_dict U) f
                    ↔ covers (default [] (el_frame_intervals e)) f
                      ∨ covers (FrameIntervals.get_dict fi) f).
  { intros f. unfold U. rewrite covers_union.
    unfold VCD.get_element_frame_intervals. rewrite Hm. simpl. rewrite He.
    by rewrite of_get_covers. }
  split.
  { intros f. simpl. destruct (FrameIntervals.empty U) eqn:HeU.
    - pose proof (empty_get_dict_nil U (union_coherent _ _) HeU) as Hnil.
      specialize (HU f). rewrite Hnil in HU. rewrite covers_nil in HU. tauto.
    - simpl. apply HU. }
  split; [done|]. split; [done|]. split; [done|].
  intros element_type' k' Hne. by apply with_element_others.
Qed.

Lemma update_element_extends_interval_witness :
  ∃ e',
    element_at
      (data (exec (VCD.__update_element ElementType.object (UStr "0")
                     (FrameIntervals.init (FvTuple (3, 4))).1)
               (exec (VCD.add_object "a" "" (FvTuple (0, 1)) UNone UNone None)
                  (VCD.init (λ _, "")))))
      ElementType.object (UidStr "0") = Some e'
    ∧ el_name e' = Some "a".
Proof.
  destruct (update_element_extends_interval
              (exec (VCD.add_object "a" "" (FvTuple (0, 1)) UNone UNone None)
                 (VCD.init (λ _, "")))
              (exec (VCD.__update_element ElementType.object (UStr "0")
                       (FrameIntervals.init (FvTuple (3, 4))).1)
                 (exec (VCD.add_object "a" "" (FvTuple (0, 1)) UNone UNone None)
                    (VCD.init (λ _, ""))))
              ElementType.object "0" (FrameIntervals.init (FvTuple (3, 4))).1
              {| el_name := Some "a"; el_type := Some "";
                 el_frame_intervals := Some [FiDict 0 1]; el_ontology_uid := None;
                 el_stream := None; el_data := None; el_data_pointers := None |}
              None)
    as (_ & e' & He' & _ & Hname & _).
  - left. reflexivity.
  - vm_compute. reflexivity.
  - vm_compute. reflexivity.
  - exists e'. split; [exact He'|exact Hname].
Defined.

(** X17. The ways [__update_element] gives up.  A UID that is not a text
    makes it raise [AssertionError]; a document without elements of the type
    makes it raise [KeyError]; a record without a name or without a type makes
    it raise [KeyError]; the instance is left as it was in the three cases.
    For a text UID that names no element it warns and returns [False], the
    document being left as it was. *)
Theorem update_element_edge_cases s element_type uid fi :
  ((∀ u, uid ≠ UStr u) →
   run (VCD.__update_element element_type uid fi) s = (Raise Py.AssertionError, s))
  ∧ (∀ u, uid = UStr u →
       (vcd_elements (data s) !! element_type = None →
        run (VCD.__update_element element_type uid fi) s = (Raise Py.KeyError, s))
       ∧ (is_Some (vcd_elements (data s) !! element_type) →
          element_at (data s) element_type (UidStr u) = None →
          run (VCD.__update_element element_type uid fi) s
          = (Ok (Some false),
             set_warnings
               (warnings s ++ ["WARNING: trying to update a non-existing Element."]) s))
       ∧ (∀ e, element_at (data s) element_type (UidStr u) = Some e →
               el_name e = None ∨ el_type e = None →
               run (VCD.__update_element element_type uid fi) s = (Raise Py.KeyError, s))).
Proof.
  split.
  - intros Hne. destruct uid as [|n|u|u|]; try done. by destruct (Hne u).
  - intros u ->. unfold run, VCD.__update_element, bind, gets, subscript, element_at.
    split; [|split].
    + by intros ->.
    + intros [m Hm]. rewrite Hm. simpl. by intros ->.
    + intros e He Hnone.
      destruct (vcd_elements (data s) !! element_type) as [m|]; [|done]. simpl.
      rewrite He. destruct Hnone as [Hn|Ht].
      * by rewrite Hn.
      * rewrite Ht. by destruct (el_name e).
Qed.

(** X18. [update_relation] on a relation whose record has no interval, or
    an empty one, is ignored: it warns, returns [None] and leaves the document
    as it was, whatever the frame value; so is it, after the warning of the
    lookup, for a UID that names no relation of a document that has
    relations. *)
Theorem update_relation_ignored s uid fv m :
  vcd_elements (data s) !! ElementType.relation = Some m →
  (∀ k e, key_of_arg uid = Some k → m !! k = Some e →
          default [] (el_frame_intervals e) = [] →
          run (VCD.update_relation uid fv) s
          = (Ok None,
             set_warnings
               (warnings s
                ++ ["WARNING: Trying to update the frame information of a Relation "
                    ++ "defined as frame-less. Ignoring command."]) s))
  ∧ (key_of_arg uid ≫= (m !!.) = None →
     run (VCD.update_relation uid fv) s
     = (Ok None,
        set_warnings
          (warnings s
           ++ ["WARNING: trying to get non-existing relation with uid: "
               ++ VCD.str_of_arg uid]) s)).
Proof.
  intros Hm. split.
  - intros k e Hk He Hfi.
    unfold run, VCD.update_relation, VCD.relation_has_frame_intervals, VCD.get_relation,
      VCD.get_element, bind, gets.
    rewrite Hm, Hk. simpl. rewrite He. simpl. rewrite ?Hm, ?Hk. simpl. rewrite ?He. simpl.
    destruct (el_frame_intervals e) as [l|]; simpl in *.
    + subst l. reflexivity.
    + reflexivity.
  - intros Hnone.
    unfold run, VCD.update_relation, VCD.get_relation, VCD.get_element, bind, gets.
    rewrite Hm, Hnone. reflexivity.
Qed.

Lemma update_relation_ignored_witness :
  run (VCD.update_relation (UStr "0") (FvTuple (0, 5)))
    (exec (VCD.add_relation "isPartOf" "" FvNone UNone UNone) (VCD.init (λ _, "")))
  = (Ok None,
     set_warnings
       (warnings (exec (VCD.add_relation "isPartOf" "" FvNone UNone UNone)
                    (VCD.init (λ _, "")))
        ++ ["WARNING: Trying to update the frame information of a Relation "
            ++ "defined as frame-less. Ignoring command."])
       (exec (VCD.add_relation "isPartOf" "" FvNone UNone UNone) (VCD.init (λ _, "")))).
Proof.
  eapply (update_relation_ignored
            (exec (VCD.add_relation "isPartOf" "" FvNone UNone UNone) (VCD.init (λ _, "")))
            (UStr "0") (FvTuple (0, 5))).
  - vm_compute. reflexivity.
  - reflexivity.
  - vm_compute. reflexivity.
  - reflexivity.
Defined.

(** ** Payloads over an interval *)

Lemma run_put_frame s fs n fr :
  vcd_frames (data s) = Some fs →
  run (VCD.put_frame n fr) s
  = (Ok tt, set_data (set_vcd_frames (Some (<[n := fr]> fs)) (data s)) s).
Proof.
  intros Hfs. unfold VCD.put_frame, run, bind, gets, subscript. by rewrite Hfs.
Qed.

Lemma frame_data_body_run element_type uid x f s s' :
  run (frame_data_body element_type uid x f) s = (Ok tt, s') →
  ∃ fs,
    vcd_frames (data s) = Some fs
    ∧ s' = set_data
             (set_vcd_frames
                (Some (<[f := frame_with_payload element_type uid x
                                (default empty_frame (fs !! f))]> fs))
                (data s)) s.
Proof.
  intros Hrun. unfold frame_data_body in Hrun.
  rewrite (run_bind_ok (gets data) _ s (data s) s eq_refl) in Hrun.
  destruct (vcd_frames (data s)) as [fs|] eqn:Hfs.
  2:{ exfalso. unfold VCD.get_frame in Hrun at 1. rewrite Hfs in Hrun.
      unfold VCD.__add_frame in Hrun.
      unfold run, bind, gets, subscript in Hrun. by rewrite Hfs in Hrun. }
  exists fs. split; [done|].
  destruct (fs !! f) as [fr|] eqn:Hf.
  - assert (VCD.get_frame (data s) f = Some fr) as Hget.
    { unfold VCD.get_frame. by rewrite Hfs. }
    rewrite Hget in Hrun.
    rewrite (run_bind_ok (ret tt) _ s tt s eq_refl) in Hrun.
    rewrite (run_bind_ok (gets data) _ s (data s) s eq_refl) in Hrun.
    rewrite Hget in Hrun. cbv zeta in Hrun.
    rewrite (run_put_frame s fs) in Hrun by done.
    by injection Hrun as <-.
  - assert (VCD.get_frame (data s) f = None) as Hget.
    { unfold VCD.get_frame. by rewrite Hfs. }
    rewrite Hget in Hrun.
    rewrite (run_bind_ok _ _ s _ _ (run_add_frame_new s fs f Hfs Hf)) in Hrun.
    set (s1 := set_data (set_vcd_frames (Some (<[f := empty_frame]> fs)) (data s)) s)
      in Hrun.
    rewrite (run_bind_ok (gets data) _ s1 (data s1) s1 eq_refl) in Hrun.
    assert (VCD.get_frame (data s1) f = Some empty_frame) as Hget1.
    { unfold VCD.get_frame. simpl. apply lookup_insert_eq. }
    rewrite Hget1 in Hrun. cbv zeta in Hrun.
    rewrite (run_put_frame s1 (<[f := empty_frame]> fs)) in Hrun by done.
    injection Hrun as <-. simpl. rewrite insert_insert_eq.
    unfold s1. by destruct s.
Qed.

(** The frame made by one turn holds the payload, and keeps what it held
    for the other elements. *)
Lemma frame_with_payload_spec element_type uid x frame :
  let frame' := frame_with_payload element_type uid x frame in
  (∃ fe, match fr_elements frame' !! element_type with
         | Some m => m !! uid
         | None => None
         end = Some fe
         ∧ payload_named (ed_name x) (default [] (default ∅ (fe_data fe) !! ed_type x))
           = Some x)
  ∧ fr_properties frame' = fr_properties frame
  ∧ ∀ element_type' uid', (element_type', uid') ≠ (element_type, uid) →
      match fr_elements frame' !! element_type' with
      | Some m => m !! uid'
      | None => None
      end
      = match fr_elements frame !! element_type' with
        | Some m => m !! uid'
        | None => None
        end.
Proof.
  unfold frame_with_payload. cbv zeta.
  set (frame1 := VCD.frame_setdefault_element element_type uid frame).
  set (bucket := default ∅ (fr_elements frame1 !! element_type)).
  split; [|split].
  - eexists. simpl. rewrite !lookup_insert_eq. split; [done|]. simpl.
    unfold VCD.data_upsert. simpl. rewrite lookup_insert_eq. simpl.
    apply payload_named_upsert.
  - done.
  - intros element_type' uid' Hne. simpl.
    destruct (decide (element_type' = element_type)) as [->|Ht].
    + rewrite lookup_insert_eq. rewrite lookup_insert_ne by congruence.
      unfold bucket, frame1, VCD.frame_setdefault_element. simpl.
      rewrite lookup_insert_eq. simpl.
      destruct (fr_elements frame !! element_type) as [b|] eqn:Hb; simpl.
      * destruct (b !! uid); [done|]. apply lookup_insert_ne. congruence.
      * rewrite lookup_empty. rewrite lookup_insert_ne by congruence. done.
    + rewrite lookup_insert_ne by done.
      unfold frame1, VCD.frame_setdefault_element. simpl.
      by rewrite lookup_insert_ne.
Qed.

Lemma frame_holds_get_frame d d' f element_type uid x :
  VCD.get_frame d' f = VCD.get_frame d f →
  frame_holds d f element_type uid x → frame_holds d' f element_type uid x.
Proof.
  intros Hg (fe & Hfe & Hp). exists fe. split; [|exact Hp].
  by rewrite (shadow_at_get_frame d d').
Qed.

(** The dynamic branch of [__create_update_element_data]: when it returns,
    every frame of the interval holds the payload in the shadow of the
    element; the frames outside the interval and the shadows of the other
    elements are untouched, and so are the root records. *)
Lemma create_update_element_data_dynamic element_type uid x fi s s' :
  ed_in_stream x = None →
  FrameIntervals.empty fi = false →
  coherent fi →
  run (VCD.__create_update_element_data element_type uid x fi) s = (Ok tt, s') →
  (∀ f, covers (FrameIntervals.get_dict fi) f →
        frame_holds (data s') f element_type uid x)
  ∧ (∀ f, ¬ covers (FrameIntervals.get_dict fi) f →
          VCD.get_frame (data s') f = VCD.get_frame (data s) f)
  ∧ (∀ f element_type' uid', (element_type', uid') ≠ (element_type, uid) →
       shadow_at (data s') f element_type' uid'
       = shadow_at (data s) f element_type' uid')
  ∧ doc_elements s' = doc_elements s
  ∧ vcd_frame_intervals (data s') = vcd_frame_intervals (data s)
  ∧ allocator s' = allocator s.
Proof.
  intros Hin He Hc Hrun.
  set (I := λ s1 : State,
         (∀ f, ¬ covers (FrameIntervals.get_dict fi) f →
               VCD.get_frame (data s1) f = VCD.get_frame (data s) f)
         ∧ (∀ f element_type' uid', (element_type', uid') ≠ (element_type, uid) →
              shadow_at (data s1) f element_type' uid'
              = shadow_at (data s) f element_type' uid')
         ∧ doc_elements s1 = doc_elements s
         ∧ vcd_frame_intervals (data s1) = vcd_frame_intervals (data s)
         ∧ allocator s1 = allocator s).
  set (Q := λ (f : Z) (s1 : State), frame_holds (data s1) f element_type uid x).
  assert (Hbody : ∀ f s1 s2,
            run (frame_data_body element_type uid x f) s1 = (Ok tt, s2) →
            Q f s2
            ∧ (∀ f', f' ≠ f → VCD.get_frame (data s2) f' = VCD.get_frame (data s1) f')
            ∧ (∀ f' element_type' uid', (element_type', uid') ≠ (element_type, uid) →
                 shadow_at (data s2) f' element_type' uid'
                 = shadow_at (data s1) f' element_type' uid')
            ∧ doc_elements s2 = doc_elements s1
            ∧ vcd_frame_intervals (data s2) = vcd_frame_intervals (data s1)
            ∧ allocator s2 = allocator s1).
  { intros f s1 s2 Hb. apply frame_data_body_run in Hb as (fs & Hfs & ->).
    destruct (frame_with_payload_spec element_type uid x (default empty_frame (fs !! f)))
      as ((fe & Hfe & Hp) & _ & Hoth).
    split.
    { exists fe. split; [|exact Hp]. unfold shadow_at, VCD.get_frame. simpl.
      by rewrite lookup_insert_eq. }
    split.
    { intros f' Hne. unfold VCD.get_frame. simpl. rewrite Hfs.
      by rewrite lookup_insert_ne. }
    split; [|done].
    intros f' element_type' uid' Hne. unfold shadow_at, VCD.get_frame. simpl.
    rewrite Hfs. destruct (decide (f' = f)) as [->|Hf].
    - rewrite lookup_insert_eq. rewrite (Hoth element_type' uid' Hne).
      destruct (fs !! f); [done|]. simpl. by rewrite lookup_empty.
    - by rewrite lookup_insert_ne. }
  assert (Hcov : ∀ p f, p ∈ FrameIntervals.get fi → f ∈ Py.range_incl p.1 p.2 →
                        covers (FrameIntervals.get_dict fi) f).
  { intros p f Hp Hf. unfold FrameIntervals.get in Hp. rewrite Hc in Hp.
    apply list_elem_of_fmap in Hp as (d & -> & Hd). apply covers_ranges. by exists d. }
  assert (Hcov' : ∀ f, covers (FrameIntervals.get_dict fi) f →
                       ∃ p, p ∈ FrameIntervals.get fi ∧ f ∈ Py.range_incl p.1 p.2).
  { intros f Hf. apply covers_ranges in Hf as (d & Hd & Hf).
    exists (frame_start d, frame_end d). split; [|done].
    unfold FrameIntervals.get. rewrite Hc. apply list_elem_of_fmap. by exists d. }
  assert (H1 : ∀ f, covers (FrameIntervals.get_dict fi) f →
                    ensures I (frame_data_body element_type uid x f)
                      (λ _ s1, I s1 ∧ Q f s1)).
  { intros f Hf s1 [] s2 (Hout & Hoth & Hels & Hfi & Hal) Hb.
    apply Hbody in Hb as (Hq & Hout' & Hoth' & Hels' & Hfi' & Hal').
    split; [|exact Hq]. split.
    { intros f' Hf'. rewrite Hout'; [by apply Hout|]. by intros ->. }
    split.
    { intros f' et' k' Hne. rewrite Hoth' by done. by apply Hoth. }
    split; [congruence|]. split; congruence. }
  assert (H2 : ∀ f y, ensures (λ s1, I s1 ∧ Q y s1) (frame_data_body element_type uid x f)
                        (λ _ s1, Q y s1)).
  { intros f y s1 [] s2 [_ Hy] Hb.
    apply Hbody in Hb as (Hq & Hout' & _).
    destruct (decide (y = f)) as [->|Hne]; [exact Hq|].
    unfold Q in *. eapply frame_holds_get_frame; [|exact Hy]. by apply Hout'. }
  set (Q' := λ (p : Z * Z) (s1 : State), ∀ f, f ∈ Py.range_incl p.1 p.2 → Q f s1).
  assert (Hloop : ensures I
            (for_each (FrameIntervals.get fi) (λ p,
               for_each (Py.range_incl p.1 p.2) (frame_data_body element_type uid x)))
            (λ _ s1, I s1 ∧ ∀ p, p ∈ FrameIntervals.get fi → Q' p s1)).
  { apply (ensures_for_each_all I Q').
    - intros p Hp. apply (ensures_for_each_all I Q).
      + intros f Hf. apply H1. by eapply Hcov.
      + intros f y _. apply H2.
    - intros p y Hp.
      eapply ensures_weaken;
        [apply (ensures_for_each_inv (λ s1, I s1 ∧ Q' y s1))| |].
      + intros f Hf s1 [] s2 [Hs Hy] Hb. split.
        * by apply (H1 f (Hcov p f Hp Hf) s1 tt s2).
        * intros f' Hf'. apply (H2 f f' s1 tt s2); [|exact Hb]. split; [exact Hs|].
          by apply Hy.
      + by intros s1 Hs.
      + by intros a s1 [_ Hs]. }
  unfold VCD.__create_update_element_data in Hrun. rewrite Hin, He in Hrun.
  rewrite (run_bind_ok (ret true) _ s true s eq_refl) in Hrun. cbn [negb] in Hrun.
  assert (I s) as HI0 by (unfold I; done).
  destruct (Hloop s tt s' HI0 Hrun) as ((Hout & Hoth & Hels & Hfi & Hal) & Hall).
  split.
  { intros f Hf. apply Hcov' in Hf as (p & Hp & Hf). by apply (Hall p). }
  done.
Qed.

Lemma run_get_element_found s element_type uid k m e :
  key_of_arg uid = Some k →
  vcd_elements (data s) !! element_type = Some m →
  m !! k = Some e →
  run (VCD.get_element element_type uid) s = (Ok (Some e), s).
Proof.
  intros Hk Hm He. unfold run, VCD.get_element, bind, gets. rewrite Hm, Hk. simpl.
  by rewrite He.
Qed.

Lemma run_create_update_element_data_pointers s element_type k x fi m e :
  vcd_elements (data s) !! element_type = Some m →
  m !! k = Some e →
  run (VCD.__create_update_element_data_pointers element_type k x fi) s
  = (Ok tt,
     set_data
       (set_vcd_elements
          (<[element_type :=
               <[k := set_el_data_pointers
                        (Some (<[ed_name x :=
                                   {| edp_type := ed_type x;
                                      edp_frame_intervals := FrameIntervals.get_dict fi;
                                      edp_attributes :=
                                        VCD.flatten_attributes <$> ed_attributes x |}]>
                                 (default ∅ (el_data_pointers e)))) e]> m]>
             (vcd_elements (data s)))
          (data s)) s).
Proof.
  intros Hm He.
  unfold run, VCD.__create_update_element_data_pointers, VCD.update_element, bind, gets,
    subscript, modify_data, modify.
  rewrite Hm. simpl. rewrite He. simpl.
  rewrite (alter_as_insert _ (vcd_elements (data s)) element_type m Hm).
  by rewrite (alter_as_insert _ m k e He).
Qed.

(** X19. Attaching a payload that names no stream over a non-empty
    interval to an element that exists under a numeric or UUID-shaped text
    UID.  When the call returns, the interval of the element covers the frames
    it covered and those of the interval supplied; the pointer of the payload
    holds the kind, the interval supplied as it is, and the flattened
    attributes, so it is contained in the interval of the element; every frame
    of the interval holds the payload in the shadow of the element; and the
    name, the type and the root payloads of the element are what they
    were. *)
Theorem dynamic_payload_attached s s' element_type u x fv e :
  let fi := (FrameIntervals.init fv).1 in
  Py.isnumeric u = true ∨ Py.pattern_uuid_match u = true →
  element_at (data s) element_type (UidStr u) = Some e →
  ed_in_stream x = None →
  FrameIntervals.empty fi = false →
  run (VCD.__add_element_data element_type (UStr u) x fi) s = (Ok tt, s') →
  ∃ e',
    element_at (data s') element_type (UidStr u) = Some e'
    ∧ (∀ f, covers (default [] (el_frame_intervals e')) f
            ↔ covers (default [] (el_frame_intervals e)) f
              ∨ covers (FrameIntervals.get_dict fi) f)
    ∧ pointer_at e' (ed_name x)
      = Some {| edp_type := ed_type x;
                edp_frame_intervals := FrameIntervals.get_dict fi;
                edp_attributes := VCD.flatten_attributes <$> ed_attributes x |}
    ∧ contained (FrameIntervals.get_dict fi) (default [] (el_frame_intervals e'))
    ∧ (∀ f, covers (FrameIntervals.get_dict fi) f →
            frame_holds (data s') f element_type (UidStr u) x)
    ∧ el_name e' = el_name e
    ∧ el_type e' = el_type e
    ∧ el_data e' = el_data e.
Proof.
  intros fi Hu He Hin Hemp Hrun. pose proof He as He0. unfold element_at in He.
  destruct (vcd_elements (data s) !! element_type) as [m|] eqn:Hm; [|done].
  assert (VCD.has (data s) element_type (UStr u) = true) as Hhas.
  { unfold VCD.has. rewrite Hm. simpl. apply bool_decide_eq_true. by eexists. }
  unfold VCD.__add_element_data in Hrun.
  rewrite (run_bind_ok (gets data) _ s (data s) s eq_refl) in Hrun.
  rewrite Hhas, Hemp in Hrun. cbn [negb key_of_arg] in Hrun.
  rewrite run_bind in Hrun.
  match type of Hrun with
  | match run ?m s with _ => _ end = _ =>
      destruct (run m s) as [[[]|?] s1] eqn:Hstep; [|done]
  end.
  rewrite (run_bind_ok _ _ s _ _ (run_get_element_found s element_type (UStr u)
                                   (UidStr u) m e eq_refl Hm He)) in Hstep.
  cbv zeta in Hstep.
  rewrite (run_bind_ok (gets data) _ s (data s) s eq_refl) in Hstep.
  destruct (el_name e) as [name|] eqn:Hname; [|done].
  rewrite (run_bind_ok (subscript (Some name)) _ s name s eq_refl) in Hstep.
  destruct (el_type e) as [type|] eqn:Htype; [|done].
  rewrite (run_bind_ok (subscript (Some type)) _ s type s eq_refl) in Hstep.
  rewrite run_bind in Hstep.
  set (U := FrameIntervals.union
              (VCD.get_element_frame_intervals (data s) element_type (UStr u)) fi)
    in Hstep.
  destruct (run (VCD.__add_element element_type (Some name) (Some type) U (UStr u)
                   (VCD.arg_of_text (el_ontology_uid e)) (el_stream e)) s)
    as [[r|?] s1'] eqn:Hadd; [|done].
  injection Hstep as ->.
  pose proof (add_element_text_uid_key _ _ _ _ _ _ _ _ _ _ Hu Hadd) as ->.
  pose proof (add_element_record element_type (Some name) (Some type) U (UStr u)
                (el_ontology_uid e) (el_stream e) s s _ s1 eq_refl Hadd _ eq_refl)
    as Hrec.
  rewrite He0 in Hrec. simpl in Hrec.
  rewrite run_bind in Hrun.
  destruct (run (VCD.__create_update_element_data element_type (UidStr u) x fi) s1)
    as [[[]|?] s2] eqn:Hcu; [|done].
  destruct (create_update_element_data_dynamic element_type (UidStr u) x fi s1 s2 Hin
              Hemp (init_coherent fv) Hcu) as (Hholds & _ & _ & Hels2 & _).
  rewrite <- Hels2 in Hrec. unfold doc_elements in Hrec.
  set (e1 := upserted (data s) (Some name) (Some type) U (el_ontology_uid e) e) in Hrec.
  rewrite (run_create_update_element_data_pointers s2 element_type (UidStr u) x fi
             (<[UidStr u := e1]> (default ∅ (doc_elements s !! element_type))) e1)
    in Hrun.
  2:{ rewrite Hrec. apply lookup_insert_eq. }
  2:{ apply lookup_insert_eq. }
  apply (f_equal snd) in Hrun. cbn [snd] in Hrun. subst s'.
  assert (HU : ∀ f, covers (FrameIntervals.get_dict U) f
                    ↔ covers (default [] (el_frame_intervals e)) f
                      ∨ covers (FrameIntervals.get_dict fi) f).
  { intros f. unfold U. rewrite covers_union.
    unfold VCD.get_element_frame_intervals. rewrite Hm. simpl. rewrite He.
    by rewrite of_get_covers. }
  assert (HeU : FrameIntervals.empty U = false).
  { destruct (FrameIntervals.empty U) eqn:HeU; [|done]. exfalso.
    pose proof (empty_get_dict_nil U (union_coherent _ _) HeU) as Hnil.
    unfold U, FrameIntervals.union, FrameIntervals.get_dict in Hnil.
    rewrite of_dicts_fis_dict in Hnil.
    apply fuse_nil, fuse_nil, app_eq_nil in Hnil as [Hfi _].
    unfold FrameIntervals.empty in Hemp. apply orb_false_iff in Hemp as [Hemp _].
    apply bool_decide_eq_false in Hemp. apply Hemp.
    unfold FrameIntervals.get_dict in Hfi. by rewrite Hfi. }
  exists (set_el_data_pointers
            (Some (<[ed_name x :=
                       {| edp_type := ed_type x;
                          edp_frame_intervals := FrameIntervals.get_dict fi;
                          edp_attributes := VCD.flatten_attributes <$> ed_attributes x |}]>
                     (default ∅ (el_data_pointers e1)))) e1).
  unfold element_at, pointer_at.
  cbn [data set_data vcd_elements set_vcd_elements].
  rewrite lookup_insert_eq, lookup_insert_eq.
  split; [reflexivity|].
  cbn [el_frame_intervals el_data_pointers el_name el_type el_data set_el_data_pointers].
  unfold e1, upserted.
  cbn [el_frame_intervals el_data_pointers el_name el_type el_data].
  rewrite HeU.
  split; [exact HU|].
  split; [by rewrite lookup_insert_eq|].
  split; [intros f Hf; apply HU; by right|].
  split.
  { intros f Hf. eapply frame_holds_get_frame; [|by apply Hholds]. done. }
  done.
Qed.

Lemma dynamic_payload_attached_witness :
  ∃ e',
    element_at
      (data (exec (VCD.__add_element_data ElementType.object (UStr "0") text_color
                     (FrameIntervals.init (FvTuple (0, 1))).1)
               (exec (VCD.add_object "a" "" FvNone UNone UNone None)
                  (VCD.init (λ _, "")))))
      ElementType.object (UidStr "0") = Some e'
    ∧ contained (FrameIntervals.get_dict (FrameIntervals.init (FvTuple (0, 1))).1)
        (default [] (el_frame_intervals e')).
Proof.
  destruct (dynamic_payload_attached
              (exec (VCD.add_object "a" "" FvNone UNone UNone None) (VCD.init (λ _, "")))
              (exec (VCD.__add_element_data ElementType.object (UStr "0") text_color
                       (FrameIntervals.init (FvTuple (0, 1))).1)
                 (exec (VCD.add_object "a" "" FvNone UNone UNone None)
                    (VCD.init (λ _, ""))))
              ElementType.object "0" text_color (FvTuple (0, 1))
              (set_el_type (Some "") (set_el_name (Some "a") empty_element)))
    as (e' & He' & _ & _ & Hin & _).
  - left. reflexivity.
  - vm_compute. reflexivity.
  - reflexivity.
  - reflexivity.
  - vm_compute. reflexivity.
  - exists e'. split; [exact He'|exact Hin].
Defined.

(** ** Updating a payload *)

(** [__create_update_element_data] keeps the interval and the pointers of
    the root record. *)
Lemma create_update_element_data_keeps_pointers element_type uid x fi fi0 ptrs :
  ensures (λ s, element_has element_type uid fi0 ptrs (doc_elements s))
    (VCD.__create_update_element_data element_type uid x fi)
    (λ _ s, element_has element_type uid fi0 ptrs (doc_elements s)).
Proof.
  set (P := λ s : State, element_has element_type uid fi0 ptrs (doc_elements s)).
  assert (Hkeep : ∀ A (m : M A), preserves doc_elements m → ensures P m (λ _, P)).
  { intros A m Hm.
    apply (ensures_preserves doc_elements m (element_has element_type uid fi0 ptrs) Hm). }
  unfold VCD.__create_update_element_data.
  eapply ensures_bind with (Q := λ _, P).
  { apply Hkeep. destruct (ed_in_stream x); preserves_auto. apply has_stream_keeps. }
  intros proceed. destruct (negb proceed); [by apply ensures_ret|].
  destruct (FrameIntervals.empty fi).
  - eapply ensures_bind with (Q := λ _, P).
    { apply Hkeep. unfold VCD.get_element. preserves_auto. }
    intros [e|].
    + apply update_element_keeps_fields. by intros [].
    + apply Hkeep. preserves_auto.
  - apply Hkeep. unfold VCD.__add_frame, VCD.put_frame. preserves_auto.
Qed.

(** X20. [update_element_data] with a frame value.  For a payload name
    that has no pointer in the record of the element, or for a UID that names
    no element, the call returns and the document is left as it was: the
    payload is not added.  For a name that has a pointer, when the call
    returns for an element under a numeric or UUID-shaped UID, the pointer of
    the name holds the kind of the payload and the interval of the frame value
    as it is, whatever interval the pointer held before. *)
Theorem update_element_data_needs_pointer s element_type u x fv :
  fv ≠ FvNone →
  ((∀ e, element_at (data s) element_type (UidStr u) = Some e →
         pointer_at e (ed_name x) = None) →
   eval (VCD.update_element_data element_type (UStr u) x fv) s = Ok tt
   ∧ data (exec (VCD.update_element_data element_type (UStr u) x fv) s) = data s)
  ∧ (∀ e p s',
       Py.isnumeric u = true ∨ Py.pattern_uuid_match u = true →
       element_at (data s) element_type (UidStr u) = Some e →
       pointer_at e (ed_name x) = Some p →
       run (VCD.update_element_data element_type (UStr u) x fv) s = (Ok tt, s') →
       ∃ e', element_at (data s') element_type (UidStr u) = Some e'
             ∧ pointer_at e' (ed_name x)
               = Some {| edp_type := ed_type x;
                         edp_frame_intervals :=
                           FrameIntervals.get_dict (FrameIntervals.init fv).1;
                         edp_attributes :=
                           VCD.flatten_attributes <$> ed_attributes x |}).
Proof.
  intros Hfv. split.
  - intros Hnone. unfold element_at, pointer_at in Hnone.
    unfold VCD.update_element_data, eval, exec, VCD.get_element, bind, gets.
    destruct (vcd_elements (data s) !! element_type) as [m|] eqn:Hm;
      [|by destruct fv]. simpl.
    destruct (m !! UidStr u) as [e|] eqn:He; [|by destruct fv]. simpl.
    specialize (Hnone e eq_refl).
    destruct (el_data_pointers e) as [edps|]; [|by destruct fv].
    rewrite Hnone. by destruct fv.
  - intros e p s' Hu He Hp Hrun. pose proof He as He0. unfold element_at in He.
    destruct (vcd_elements (data s) !! element_type) as [m|] eqn:Hm; [|done].
    unfold pointer_at in Hp. destruct (el_data_pointers e) as [edps|] eqn:Hedps; [|done].
    unfold VCD.update_element_data in Hrun.
    rewrite (run_bind_ok _ _ s _ _ (run_get_element_found s element_type (UStr u)
                                     (UidStr u) m e eq_refl Hm He)) in Hrun.
    assert (∀ A (a b : M A), match fv with FvNone => a | _ => b end = b) as Hmatch.
    { intros A a b. by destruct fv. }
    cbv beta in Hrun. rewrite Hmatch in Hrun. rewrite Hedps, Hp in Hrun.
    destruct (el_frame_intervals e) as [l|] eqn:Hl; [|done].
    rewrite (run_bind_ok (subscript (Some l)) _ s l s eq_refl) in Hrun.
    rewrite (run_bind_ok _ _ s _ _ (run_new_FrameIntervals fv s)) in Hrun.
    set (sw := set_warnings (warnings s ++ (FrameIntervals.init fv).2) s) in Hrun.
    set (fi := (FrameIntervals.init fv).1) in *.
    cbv zeta in Hrun.
    destruct (el_name e) as [name|] eqn:Hname; [|done].
    rewrite (run_bind_ok (subscript (Some name)) _ sw name sw eq_refl) in Hrun.
    destruct (el_type e) as [type|] eqn:Htype; [|done].
    rewrite (run_bind_ok (subscript (Some type)) _ sw type sw eq_refl) in Hrun.
    rewrite run_bind in Hrun.
    set (U := FrameIntervals.union (FrameIntervals.of_dicts l) fi) in Hrun.
    destruct (run (VCD.__add_element element_type (Some name) (Some type) U (UStr u)
                     (VCD.arg_of_text (el_ontology_uid e)) (el_stream e)) sw)
      as [[r|?] s1] eqn:Hadd; [|done].
    pose proof (add_element_text_uid_key _ _ _ _ _ _ _ _ _ _ Hu Hadd) as ->.
    pose proof (upsert_record_exists _ _ _ _ _ _ _ _ _ _ Hadd) as Hrec.
    rewrite run_bind in Hrun.
    destruct (run (VCD.__create_update_element_data element_type (UidStr u) x fi) s1)
      as [[[]|?] s2] eqn:Hcu; [|done].
    destruct Hrec as (e1 & He1).
    assert (element_has element_type (UidStr u) (el_frame_intervals e1)
              (el_data_pointers e1) (doc_elements s2)) as (m2 & e2 & Hm2 & He2 & _ & Hp2).
    { eapply (create_update_element_data_keeps_pointers element_type (UidStr u) x fi);
        [|exact Hcu].
      unfold element_at in He1. unfold doc_elements.
      destruct (vcd_elements (data s1) !! element_type) as [m1|] eqn:Hm1; [|done].
      by exists m1, e1. }
    rewrite (run_create_update_element_data_pointers s2 element_type (UidStr u) x fi
               m2 e2 Hm2 He2) in Hrun.
    apply (f_equal snd) in Hrun. cbn [snd] in Hrun. subst s'.
    eexists. unfold element_at, pointer_at.
    cbn [data set_data vcd_elements set_vcd_elements].
    rewrite lookup_insert_eq, lookup_insert_eq. split; [reflexivity|].
    cbn [el_data_pointers set_el_data_pointers]. apply lookup_insert_eq.
Qed.

Lemma update_element_data_needs_pointer_witness :
  FvInt 3 ≠ FvNone
  ∧ eval (VCD.update_element_data ElementType.object (UStr "0") text_color (FvInt 3))
      (exec (VCD.add_object "a" "" FvNone UNone UNone None) (VCD.init (λ _, "")))
    = Ok tt.
Proof.
  split; [done|].
  destruct (update_element_data_needs_pointer
              (exec (VCD.add_object "a" "" FvNone UNone UNone None) (VCD.init (λ _, "")))
              ElementType.object "0" text_color (FvInt 3)) as [Hignored _]; [done|].
  apply Hignored. intros e He. vm_compute in He. by injection He as <-.
Defined.

(** ** Automatic and explicit UIDs together *)

Lemma string_of_uint_digits d :
  Py.all_chars Py.is_digit (NilEmpty.string_of_uint d) = true.
Proof. induction d; simpl; try done; by rewrite IHd. Qed.

(** [str(n)] is numeric for every [n >= 0]. *)
Lemma str_of_int_numeric n : 0 <= n → Py.isnumeric (Py.str_of_int n) = true.
Proof.
  intros Hn. unfold Py.str_of_int. destruct n as [|p|p]; [done| |lia].
  simpl. pose proof (Unsigned.to_uint_nonnil p) as Hnil.
  pose proof (string_of_uint_digits (Pos.to_uint p)) as Hd.
  unfold NilZero.string_of_uint. destruct (Pos.to_uint p) eqn:E; try done.
Qed.

Lemma upsert_record_name
    s s' element_type name semantic_type frame_intervals uid_ ont_uid stream k :
  run (VCD.__add_element element_type (Some name) semantic_type frame_intervals uid_
         (VCD.arg_of_text ont_uid) stream) s = (Ok (Some k), s') →
  el_name <$> element_at (data s') element_type k = Some (Some name).
Proof.
  intros Hrun.
  pose proof (add_element_record element_type (Some name) semantic_type frame_intervals
                uid_ ont_uid stream s s (Some k) s' eq_refl Hrun k eq_refl) as Hels.
  unfold doc_elements in Hels. unfold element_at. rewrite Hels.
  by rewrite with_element_lookup.
Qed.

(** X21. In the integer mode, a UID supplied as the decimal text of the
    counter plus one is accepted without moving the counter, so the next
    upsert without a UID is given the same UID: both calls return it, and the
    second rewrites the record that the first made. *)
Theorem automatic_uid_reuses_explicit s element_type a b n fi :
  let u := Py.str_of_int (n + 1) in
  use_uuid s = false →
  lastUID s !! element_type = Some n →
  -1 <= n →
  FrameIntervals.empty fi = true →
  ∃ s1 s2,
    run (VCD.__add_element element_type (Some a) None fi (UStr u) UNone None) s
    = (Ok (Some (UidStr u)), s1)
    ∧ run (VCD.__add_element element_type (Some b) None fi UNone UNone None) s1
      = (Ok (Some (UidStr u)), s2)
    ∧ el_name <$> element_at (data s1) element_type (UidStr u) = Some (Some a)
    ∧ el_name <$> element_at (data s2) element_type (UidStr u) = Some (Some b).
Proof.
  intros u Hmode Hl Hn He.
  assert (run (VCD.__get_uid_to_assign element_type (VCD.arg_of_text (Some u))) s
          = (Ok (UidStr u), s)) as Hget1.
  { unfold run, VCD.__get_uid_to_assign, VCD.arg_of_text, u.
    by rewrite (str_of_int_numeric (n + 1)) by lia. }
  destruct (add_element_returns_uid element_type (Some a) None fi (Some u) None s _ _
              He Hget1) as (s1 & Hrun1 & Hal1).
  unfold allocator in Hal1.
  assert (use_uuid s1 = false) as Hmode1 by congruence.
  assert (lastUID s1 !! element_type = Some n) as Hl1.
  { replace (lastUID s1) with (lastUID s); [done|]. by inversion Hal1. }
  assert (run (VCD.__get_uid_to_assign element_type (VCD.arg_of_text None)) s1
          = (Ok (UidStr u),
             set_lastUID (<[element_type := n + 1]> (lastUID s1)) s1)) as Hget2.
  { unfold run, VCD.__get_uid_to_assign, bind, gets, subscript. simpl.
    by rewrite Hmode1, Hl1. }
  destruct (add_element_returns_uid element_type (Some b) None fi None None s1 _ _
              He Hget2) as (s2 & Hrun2 & _).
  exists s1, s2. split; [exact Hrun1|]. split; [exact Hrun2|].
  split.
  - by apply (upsert_record_name s s1 element_type a None fi (UStr u) None None).
  - by apply (upsert_record_name s1 s2 element_type b None fi UNone None None).
Qed.

Lemma automatic_uid_reuses_explicit_witness :
  ∃ s1 s2,
    run (VCD.__add_element ElementType.object (Some "a") None
           (FrameIntervals.init FvNone).1 (UStr (Py.str_of_int (-1 + 1))) UNone None)
      (VCD.init (λ _, ""))
    = (Ok (Some (UidStr (Py.str_of_int (-1 + 1)))), s1)
    ∧ run (VCD.__add_element ElementType.object (Some "b") None
             (FrameIntervals.init FvNone).1 UNone UNone None) s1
      = (Ok (Some (UidStr (Py.str_of_int (-1 + 1)))), s2).
Proof.
  destruct (automatic_uid_reuses_explicit (VCD.init (λ _, "")) ElementType.object
              "a" "b" (-1) (FrameIntervals.init FvNone).1)
    as (s1 & s2 & Hrun1 & Hrun2 & _).
  - reflexivity.
  - reflexivity.
  - lia.
  - reflexivity.
  - by exists s1, s2.
Defined.

(** ** Changing the interval of an element *)

Lemma run_rm_frame_present s fs f fr :
  vcd_frames (data s) = Some fs → fs !! f = Some fr →
  ∃ l, run (VCD.__rm_frame f) s
       = (Ok tt,
          set_data (set_vcd_frame_intervals (Some l)
                      (set_vcd_frames (Some (delete f fs)) (data s))) s).
Proof.
  intros Hfs Hf. unfold run, VCD.__rm_frame, bind, gets, modify_data, modify.
  rewrite Hfs, Hf. simpl. eexists. destruct s. reflexivity.
Qed.

(** [remove_shadow], when it returns, has removed the shadow of the element
    from the frame, and touched no other frame and no root record. *)
Lemma remove_shadow_run element_type uid k f s s' :
  key_of_arg uid = Some k →
  run (VCD.remove_shadow element_type uid f) s = (Ok tt, s') →
  shadow_at (data s') f element_type k = None
  ∧ (∀ f', f' ≠ f → VCD.get_frame (data s') f' = VCD.get_frame (data s) f')
  ∧ doc_elements s' = doc_elements s
  ∧ allocator s' = allocator s.
Proof.
  intros Hk Hrun. unfold VCD.remove_shadow in Hrun.
  rewrite (run_bind_ok (gets data) _ s (data s) s eq_refl) in Hrun.
  destruct (vcd_frames (data s)) as [fs|] eqn:Hfs; [|done].
  rewrite (run_bind_ok (subscript (Some fs)) _ s fs s eq_refl) in Hrun.
  destruct (fs !! f) as [frame|] eqn:Hf; [|done].
  rewrite (run_bind_ok (subscript (Some frame)) _ s frame s eq_refl) in Hrun.
  destruct (fr_elements frame !! element_type) as [bucket|] eqn:Hb; [|done].
  rewrite (run_bind_ok (subscript (Some bucket)) _ s bucket s eq_refl) in Hrun.
  rewrite Hk in Hrun.
  rewrite (run_bind_ok (subscript (Some k)) _ s k s eq_refl) in Hrun.
  destruct (bucket !! k) as [fe|] eqn:Hfe; [|done].
  rewrite (run_bind_ok (subscript (Some fe)) _ s fe s eq_refl) in Hrun.
  cbv zeta in Hrun.
  rewrite (run_bind_ok _ _ s _ _ (run_put_frame s fs f _ Hfs)) in Hrun.
  set (frame' := set_fr_elements (<[element_type := delete k bucket]> (fr_elements frame))
                   frame) in Hrun.
  set (s1 := set_data (set_vcd_frames (Some (<[f := frame']> fs)) (data s)) s) in Hrun.
  destruct (bool_decide (size (delete k bucket) = 0%nat)).
  - set (frame'' := set_fr_elements (delete element_type (fr_elements frame)) frame)
      in Hrun.
    rewrite (run_bind_ok _ _ s1 _ _ (run_put_frame s1 (<[f := frame']> fs) f frame''
                                       eq_refl)) in Hrun.
    set (s2 := set_data (set_vcd_frames (Some (<[f := frame'']> (<[f := frame']> fs)))
                           (data s1)) s1) in Hrun.
    destruct (bool_decide (frame_len frame'' = 0%nat)).
    + destruct (run_rm_frame_present s2 (<[f := frame'']> (<[f := frame']> fs)) f frame''
                  eq_refl (lookup_insert_eq _ _ _)) as [l Hrm].
      rewrite Hrm in Hrun. apply (f_equal snd) in Hrun. cbn [snd] in Hrun. subst s'.
      unfold shadow_at, VCD.get_frame, s2, s1, run, ret.
      cbn [snd data set_data vcd_frames set_vcd_frames set_vcd_frame_intervals].
      rewrite lookup_delete_eq.
      split; [done|]. split; [|done].
      intros f' Hne. rewrite lookup_delete_ne by done.
      rewrite !lookup_insert_ne by done. by rewrite Hfs.
    + apply (f_equal snd) in Hrun. cbn [snd] in Hrun. subst s'.
      unfold shadow_at, VCD.get_frame, s2, s1, run, ret.
      cbn [snd data set_data vcd_frames set_vcd_frames].
      rewrite lookup_insert_eq. unfold frame''. cbn [fr_elements set_fr_elements].
      rewrite lookup_delete_eq.
      split; [done|]. split; [|done].
      intros f' Hne. rewrite !lookup_insert_ne by done. by rewrite Hfs.
  - apply (f_equal snd) in Hrun. cbn [snd] in Hrun. subst s'.
    unfold shadow_at, VCD.get_frame, s1, run, ret.
    cbn [snd data set_data vcd_frames set_vcd_frames].
    rewrite lookup_insert_eq. unfold frame'. cbn [fr_elements set_fr_elements].
    rewrite lookup_insert_eq, lookup_delete_eq.
    split; [done|]. split; [|done].
    intros f' Hne. rewrite !lookup_insert_ne by done. by rewrite Hfs.
Qed.

Lemma add_frames_body_ensures element_type uid_s f s s' :
  run (add_frames_body element_type uid_s f) s = (Ok tt, s') →
  is_Some (shadow_at (data s') f element_type (UidStr uid_s))
  ∧ frames_extend (data s) (data s')
  ∧ (∀ f', f' ≠ f → VCD.get_frame (data s') f' = VCD.get_frame (data s) f')
  ∧ doc_elements s' = doc_elements s
  ∧ vcd_frame_intervals (data s') = vcd_frame_intervals (data s)
  ∧ allocator s' = allocator s.
Proof.
  intros Hrun.
  destruct (vcd_frames (data s)) as [fs|] eqn:Hfs.
  - destruct (add_frames_body_run element_type uid_s f s fs Hfs)
      as (s1 & Hrun1 & _ & Hq & Hkeep & Hother & Hprops & Hels & Hfi & Hal).
    assert (s1 = s') as -> by congruence.
    split; [exact Hq|]. split; [|done].
    split; [exact Hkeep|].
    intros f' fr Hfr. destruct (decide (f' = f)) as [->|Hne].
    + by apply Hprops.
    + exists fr. by rewrite Hother.
  - exfalso. unfold add_frames_body, VCD.__add_frame, run, bind, gets, subscript in Hrun.
    by rewrite Hfs in Hrun.
Qed.

(** [__add_frames] for a text UID, when it returns. *)
Lemma add_frames_ensures element_type uid_s fi s s' :
  coherent fi →
  run (VCD.__add_frames fi element_type (UStr uid_s)) s = (Ok tt, s') →
  (∀ f, covers (FrameIntervals.get_dict fi) f →
        is_Some (shadow_at (data s') f element_type (UidStr uid_s)))
  ∧ frames_extend (data s) (data s')
  ∧ (∀ f, ¬ covers (FrameIntervals.get_dict fi) f →
          VCD.get_frame (data s') f = VCD.get_frame (data s) f)
  ∧ doc_elements s' = doc_elements s
  ∧ vcd_frame_intervals (data s') = vcd_frame_intervals (data s)
  ∧ allocator s' = allocator s.
Proof.
  intros Hc Hrun. unfold VCD.__add_frames in Hrun.
  destruct (FrameIntervals.empty fi) eqn:He.
  { injection Hrun as <-. split.
    - intros f Hf. rewrite (empty_get_dict_nil fi Hc He) in Hf. by apply covers_nil in Hf.
    - split; [apply frames_extend_refl|done]. }
  set (I := λ s1 : State,
         frames_extend (data s) (data s1)
         ∧ (∀ f, ¬ covers (FrameIntervals.get_dict fi) f →
                 VCD.get_frame (data s1) f = VCD.get_frame (data s) f)
         ∧ doc_elements s1 = doc_elements s
         ∧ vcd_frame_intervals (data s1) = vcd_frame_intervals (data s)
         ∧ allocator s1 = allocator s).
  set (Q := λ (f : Z) (s1 : State),
         is_Some (shadow_at (data s1) f element_type (UidStr uid_s))).
  assert (Hcov : ∀ p f, p ∈ FrameIntervals.get fi → f ∈ Py.range_incl p.1 p.2 →
                        covers (FrameIntervals.get_dict fi) f).
  { intros p f Hp Hf. unfold FrameIntervals.get in Hp. rewrite Hc in Hp.
    apply list_elem_of_fmap in Hp as (d & -> & Hd). apply covers_ranges. by exists d. }
  assert (Hcov' : ∀ f, covers (FrameIntervals.get_dict fi) f →
                       ∃ p, p ∈ FrameIntervals.get fi ∧ f ∈ Py.range_incl p.1 p.2).
  { intros f Hf. apply covers_ranges in Hf as (d & Hd & Hf).
    exists (frame_start d, frame_end d). split; [|done].
    unfold FrameIntervals.get. rewrite Hc. apply list_elem_of_fmap. by exists d. }
  assert (H1 : ∀ f, covers (FrameIntervals.get_dict fi) f →
                    ensures I (add_frames_body element_type uid_s f)
                      (λ _ s1, I s1 ∧ Q f s1)).
  { intros f Hf s1 [] s2 (Hext & Hout & Hels & Hfi & Hal) Hb.
    apply add_frames_body_ensures in Hb as (Hq & Hext' & Hout' & Hels' & Hfi' & Hal').
    split; [|exact Hq]. split; [by eapply frames_extend_trans|].
    split.
    { intros f' Hf'. rewrite Hout'; [by apply Hout|]. by intros ->. }
    split; [congruence|]. split; congruence. }
  assert (H2 : ∀ f y, ensures (λ s1, I s1 ∧ Q y s1) (add_frames_body element_type uid_s f)
                        (λ _ s1, Q y s1)).
  { intros f y s1 [] s2 [_ [x Hy]] Hb.
    apply add_frames_body_ensures in Hb as (_ & [Hkeep _] & _).
    exists x. by apply Hkeep. }
  set (Q' := λ (p : Z * Z) (s1 : State), ∀ f, f ∈ Py.range_incl p.1 p.2 → Q f s1).
  assert (Hloop : ensures I
            (for_each (FrameIntervals.get fi) (λ p,
               for_each (Py.range_incl p.1 p.2) (add_frames_body element_type uid_s)))
            (λ _ s1, I s1 ∧ ∀ p, p ∈ FrameIntervals.get fi → Q' p s1)).
  { apply (ensures_for_each_all I Q').
    - intros p Hp. apply (ensures_for_each_all I Q).
      + intros f Hf. apply H1. by eapply Hcov.
      + intros f y _. apply H2.
    - intros p y Hp.
      eapply ensures_weaken;
        [apply (ensures_for_each_inv (λ s1, I s1 ∧ Q' y s1))| |].
      + intros f Hf s1 [] s2 [Hs Hy] Hb. split.
        * by apply (H1 f (Hcov p f Hp Hf) s1 tt s2).
        * intros f' Hf'. apply (H2 f f' s1 tt s2); [|exact Hb]. split; [exact Hs|].
          by apply Hy.
      + by intros s1 Hs.
      + by intros a s1 [_ Hs]. }
  assert (I s) as HI0.
  { unfold I. split; [apply frames_extend_refl|done]. }
  destruct (Hloop s tt s' HI0 Hrun) as (HI & Hall).
  split; [|exact HI].
  intros f Hf. apply Hcov' in Hf as (p & Hp & Hf). by apply (Hall p).
Qed.

Lemma update_vcd_frame_intervals_keeps_frames fi :
  preserves (λ s, (vcd_frames (data s), doc_elements s, allocator s))
    (VCD.__update_vcd_frame_intervals fi).
Proof.
  unfold VCD.__update_vcd_frame_intervals, VCD.__set_vcd_frame_intervals.
  preserves_auto.
Qed.

Lemma covers_single_frame f f' :
  covers (FrameIntervals.get_dict (FrameIntervals.init (FvInt f)).1) f' ↔ f' = f.
Proof.
  simpl. unfold FrameIntervals.get_dict. simpl. rewrite covers_cons, covers_nil.
  unfold inside. simpl. lia.
Qed.

Section interval_change.

Context (element_type : ElementType.t) (u : string) (fis_old fis_new : FrameIntervals.t).
Context (Hold : coherent fis_old) (Hnew : coherent fis_new).

(** The first loop of step 3.1 of [__add_element]: the frames of the new
    interval that the old one leaves out get a shadow of the element. *)
Lemma add_new_frames_ensures s s' :
  run (for_each (FrameIntervals.get fis_new) (λ fi,
         for_each (Py.range_incl fi.1 fi.2) (λ f,
           let is_inside := FrameIntervals.has_frame fis_old f in
           if negb is_inside then
             let fi_ := (FrameIntervals.init (FvInt f)).1 in
             VCD.__add_frames fi_ element_type (UStr u) ;;;
             VCD.__update_vcd_frame_intervals fi_
           else ret tt))) s = (Ok tt, s') →
  (∀ f, covers (FrameIntervals.get_dict fis_new) f → ¬ covers (FrameIntervals.get_dict fis_old) f →
        is_Some (shadow_at (data s') f element_type (UidStr u)))
  ∧ (∀ f, ¬ (covers (FrameIntervals.get_dict fis_new) f ∧ ¬ covers (FrameIntervals.get_dict fis_old) f) →
          VCD.get_frame (data s') f = VCD.get_frame (data s) f)
  ∧ doc_elements s' = doc_elements s
  ∧ allocator s' = allocator s.
Proof.
  intros Hrun.
  set (old := FrameIntervals.get_dict fis_old).
  set (new := FrameIntervals.get_dict fis_new).
  set (body := λ f : Z,
         let is_inside := FrameIntervals.has_frame fis_old f in
         if negb is_inside then
           let fi_ := (FrameIntervals.init (FvInt f)).1 in
           VCD.__add_frames fi_ element_type (UStr u) ;;;
           VCD.__update_vcd_frame_intervals fi_
         else ret tt).
  set (I := λ s1 : State,
         (∀ f, ¬ (covers new f ∧ ¬ covers old f) →
               VCD.get_frame (data s1) f = VCD.get_frame (data s) f)
         ∧ doc_elements s1 = doc_elements s
         ∧ allocator s1 = allocator s).
  set (Q := λ (f : Z) (s1 : State),
         ¬ covers old f → is_Some (shadow_at (data s1) f element_type (UidStr u))).
  assert (Hbody : ∀ f s1 s2, run (body f) s1 = (Ok tt, s2) →
            (¬ covers old f → is_Some (shadow_at (data s2) f element_type (UidStr u)))
            ∧ frames_extend (data s1) (data s2)
            ∧ (∀ f', f' ≠ f ∨ covers old f →
                     VCD.get_frame (data s2) f' = VCD.get_frame (data s1) f')
            ∧ doc_elements s2 = doc_elements s1
            ∧ allocator s2 = allocator s1).
  { intros f s1 s2 Hb. unfold body in Hb. cbv zeta in Hb.
    destruct (FrameIntervals.has_frame fis_old f) eqn:Hin; cbn [negb] in Hb.
    - injection Hb as <-. apply (has_frame_covers fis_old f Hold) in Hin.
      split; [done|]. split; [apply frames_extend_refl|done].
    - assert (¬ covers old f) as Hout.
      { intros Hc. apply (has_frame_covers fis_old f Hold) in Hc. congruence. }
      rewrite run_bind in Hb.
      destruct (run (VCD.__add_frames _ element_type (UStr u)) s1) as [[[]|?] s1'] eqn:Hadd;
        [|done].
      apply add_frames_ensures in Hadd as (Hsh & Hext & Hoth & Hels & _ & Hal);
        [|apply init_coherent].
      pose proof (update_vcd_frame_intervals_keeps_frames
                    (FrameIntervals.init (FvInt f)).1 s1') as Hupd.
      unfold exec in Hupd.
      fold (run (VCD.__update_vcd_frame_intervals (FrameIntervals.init (FvInt f)).1) s1')
        in Hupd.
      rewrite Hb in Hupd. cbn [snd] in Hupd.
      assert (vcd_frames (data s2) = vcd_frames (data s1')) as Hfs by congruence.
      split.
      { intros _. rewrite (shadow_at_same_frames (data s1')) by done.
        apply Hsh. by apply covers_single_frame. }
      split.
      { by apply (frames_extend_same_frames (data s1) (data s1) (data s1') (data s2)). }
      split.
      { intros f' [Hne|Hc]; [|done].
        rewrite (get_frame_same_frames (data s1')) by done.
        apply Hoth. by rewrite covers_single_frame. }
      split; congruence. }
  assert (Hcov : ∀ p f, p ∈ FrameIntervals.get fis_new → f ∈ Py.range_incl p.1 p.2 →
                        covers new f).
  { intros p f Hp Hf. unfold FrameIntervals.get in Hp. rewrite Hnew in Hp.
    apply list_elem_of_fmap in Hp as (d & -> & Hd). apply covers_ranges. by exists d. }
  assert (Hcov' : ∀ f, covers new f →
                       ∃ p, p ∈ FrameIntervals.get fis_new ∧ f ∈ Py.range_incl p.1 p.2).
  { intros f Hf. apply covers_ranges in Hf as (d & Hd & Hf).
    exists (frame_start d, frame_end d). split; [|done].
    unfold FrameIntervals.get. rewrite Hnew. apply list_elem_of_fmap. by exists d. }
  assert (H1 : ∀ f, covers new f → ensures I (body f) (λ _ s1, I s1 ∧ Q f s1)).
  { intros f Hf s1 [] s2 (Hout & Hels & Hal) Hb.
    apply Hbody in Hb as (Hq & _ & Hoth & Hels' & Hal').
    split; [|exact Hq]. split.
    { intros f' Hf'. rewrite Hoth; [by apply Hout|].
      destruct (decide (f' = f)) as [->|Hne]; [|by left]. right.
      destruct (decide (covers old f)); [done|]. exfalso. apply Hf'. by split.
    }
    split; congruence. }
  assert (H2 : ∀ f y, ensures (λ s1, I s1 ∧ Q y s1) (body f) (λ _ s1, Q y s1)).
  { intros f y s1 [] s2 [_ Hy] Hb Hout.
    apply Hbody in Hb as (_ & [Hkeep _] & _).
    destruct (Hy Hout) as [x Hx]. exists x. by apply Hkeep. }
  set (Q' := λ (p : Z * Z) (s1 : State), ∀ f, f ∈ Py.range_incl p.1 p.2 → Q f s1).
  assert (Hloop : ensures I
            (for_each (FrameIntervals.get fis_new) (λ p,
               for_each (Py.range_incl p.1 p.2) body))
            (λ _ s1, I s1 ∧ ∀ p, p ∈ FrameIntervals.get fis_new → Q' p s1)).
  { apply (ensures_for_each_all I Q').
    - intros p Hp. apply (ensures_for_each_all I Q).
      + intros f Hf. apply H1. by eapply Hcov.
      + intros f y _. apply H2.
    - intros p y Hp.
      eapply ensures_weaken;
        [apply (ensures_for_each_inv (λ s1, I s1 ∧ Q' y s1))| |].
      + intros f Hf s1 [] s2 [Hs Hy] Hb. split.
        * by apply (H1 f (Hcov p f Hp Hf) s1 tt s2).
        * intros f' Hf'. apply (H2 f f' s1 tt s2); [|exact Hb]. split; [exact Hs|].
          by apply Hy.
      + by intros s1 Hs.
      + by intros a s1 [_ Hs]. }
  assert (I s) as HI0 by (unfold I; done).
  destruct (Hloop s tt s' HI0 Hrun) as ((Hout & Hels & Hal) & Hall).
  split; [|done].
  intros f Hf Hnot. apply Hcov' in Hf as (p & Hp & Hf). by apply (Hall p Hp f Hf).
Qed.


(** The second loop of step 3.1 of [__add_element]: the frames of the old
    interval that the new one leaves out lose the shadow of the element. *)
Lemma remove_old_frames_ensures s s' :
  run (for_each (FrameIntervals.get fis_old) (λ fi,
         for_each (Py.range_incl fi.1 fi.2) (λ f,
           let is_inside := FrameIntervals.has_frame fis_new f in
           if negb is_inside then VCD.remove_shadow element_type (UStr u) f
           else ret tt))) s = (Ok tt, s') →
  (∀ f, covers (FrameIntervals.get_dict fis_old) f →
        ¬ covers (FrameIntervals.get_dict fis_new) f →
        shadow_at (data s') f element_type (UidStr u) = None)
  ∧ (∀ f, ¬ (covers (FrameIntervals.get_dict fis_old) f
             ∧ ¬ covers (FrameIntervals.get_dict fis_new) f) →
          VCD.get_frame (data s') f = VCD.get_frame (data s) f)
  ∧ doc_elements s' = doc_elements s
  ∧ allocator s' = allocator s.
Proof.
  intros Hrun.
  set (old := FrameIntervals.get_dict fis_old).
  set (new := FrameIntervals.get_dict fis_new).
  set (body := λ f : Z,
         let is_inside := FrameIntervals.has_frame fis_new f in
         if negb is_inside then VCD.remove_shadow element_type (UStr u) f
         else ret tt).
  set (I := λ s1 : State,
         (∀ f, ¬ (covers old f ∧ ¬ covers new f) →
               VCD.get_frame (data s1) f = VCD.get_frame (data s) f)
         ∧ doc_elements s1 = doc_elements s
         ∧ allocator s1 = allocator s).
  set (Q := λ (f : Z) (s1 : State),
         ¬ covers new f → shadow_at (data s1) f element_type (UidStr u) = None).
  assert (Hbody : ∀ f s1 s2, run (body f) s1 = (Ok tt, s2) →
            (¬ covers new f → shadow_at (data s2) f element_type (UidStr u) = None)
            ∧ (∀ f', f' ≠ f ∨ covers new f →
                     VCD.get_frame (data s2) f' = VCD.get_frame (data s1) f')
            ∧ doc_elements s2 = doc_elements s1
            ∧ allocator s2 = allocator s1).
  { intros f s1 s2 Hb. unfold body in Hb. cbv zeta in Hb.
    destruct (FrameIntervals.has_frame fis_new f) eqn:Hin; cbn [negb] in Hb.
    - injection Hb as <-. apply (has_frame_covers fis_new f Hnew) in Hin. done.
    - assert (¬ covers new f) as Hout.
      { intros Hc. apply (has_frame_covers fis_new f Hnew) in Hc. congruence. }
      apply (remove_shadow_run element_type (UStr u) (UidStr u) f s1 s2 eq_refl) in Hb
        as (Hnone & Hoth & Hels & Hal).
      split; [done|]. split; [|done].
      intros f' [Hne|Hc]; [by apply Hoth|done]. }
  assert (Hcov : ∀ p f, p ∈ FrameIntervals.get fis_old → f ∈ Py.range_incl p.1 p.2 →
                        covers old f).
  { intros p f Hp Hf. unfold FrameIntervals.get in Hp. rewrite Hold in Hp.
    apply list_elem_of_fmap in Hp as (d & -> & Hd). apply covers_ranges. by exists d. }
  assert (Hcov' : ∀ f, covers old f →
                       ∃ p, p ∈ FrameIntervals.get fis_old ∧ f ∈ Py.range_incl p.1 p.2).
  { intros f Hf. apply covers_ranges in Hf as (d & Hd & Hf).
    exists (frame_start d, frame_end d). split; [|done].
    unfold FrameIntervals.get. rewrite Hold. apply list_elem_of_fmap. by exists d. }
  assert (H1 : ∀ f, covers old f → ensures I (body f) (λ _ s1, I s1 ∧ Q f s1)).
  { intros f Hf s1 [] s2 (Hout & Hels & Hal) Hb.
    apply Hbody in Hb as (Hq & Hoth & Hels' & Hal').
    split; [|exact Hq]. split.
    { intros f' Hf'. rewrite Hoth; [by apply Hout|].
      destruct (decide (f' = f)) as [->|Hne]; [|by left]. right.
      destruct (decide (covers new f)); [done|]. exfalso. apply Hf'. by split. }
    split; congruence. }
  assert (H2 : ∀ f y, ensures (λ s1, I s1 ∧ Q y s1) (body f) (λ _ s1, Q y s1)).
  { intros f y s1 [] s2 [_ Hy] Hb Hout.
    apply Hbody in Hb as (Hq & Hoth & _).
    destruct (decide (y = f)) as [->|Hne]; [by apply Hq|].
    rewrite <- (Hy Hout). apply shadow_at_get_frame. apply Hoth. by left. }
  set (Q' := λ (p : Z * Z) (s1 : State), ∀ f, f ∈ Py.range_incl p.1 p.2 → Q f s1).
  assert (Hloop : ensures I
            (for_each (FrameIntervals.get fis_old) (λ p,
               for_each (Py.range_incl p.1 p.2) body))
            (λ _ s1, I s1 ∧ ∀ p, p ∈ FrameIntervals.get fis_old → Q' p s1)).
  { apply (ensures_for_each_all I Q').
    - intros p Hp. apply (ensures_for_each_all I Q).
      + intros f Hf. apply H1. by eapply Hcov.
      + intros f y _. apply H2.
    - intros p y Hp.
      eapply ensures_weaken;
        [apply (ensures_for_each_inv (λ s1, I s1 ∧ Q' y s1))| |].
      + intros f Hf s1 [] s2 [Hs Hy] Hb. split.
        * by apply (H1 f (Hcov p f Hp Hf) s1 tt s2).
        * intros f' Hf'. apply (H2 f f' s1 tt s2); [|exact Hb]. split; [exact Hs|].
          by apply Hy.
      + by intros s1 Hs.
      + by intros a s1 [_ Hs]. }
  assert (I s) as HI0 by (unfold I; done).
  destruct (Hloop s tt s' HI0 Hrun) as ((Hout & Hels & Hal) & Hall).
  split; [|done].
  intros f Hf Hnot. apply Hcov' in Hf as (p & Hp & Hf). by apply (Hall p Hp f Hf).
Qed.

End interval_change.

Lemma of_get_coherent x : coherent (FrameIntervals.of_get x).
Proof. destruct x; [apply of_dicts_coherent|done]. Qed.

(** X22. Giving a new non-empty interval to an element that exists, under
    a text UID.  When the upsert returns, every frame of the new interval that
    the old one left out holds a shadow of the element, no frame of the old
    interval that the new one leaves out holds one any more, and the frames
    that are in both intervals or in neither are what they were. *)
Theorem interval_change_moves_shadows
    s s' element_type u name semantic_type fv ont_uid stream e r :
  let fi := (FrameIntervals.init fv).1 in
  let old := default [] (el_frame_intervals e) in
  let new := FrameIntervals.get_dict fi in
  element_at (data s) element_type (UidStr u) = Some e →
  FrameIntervals.empty fi = false →
  run (VCD.__add_element element_type name semantic_type fi (UStr u)
         (VCD.arg_of_text ont_uid) stream) s = (Ok r, s') →
  (∀ f, covers new f → ¬ covers old f →
        is_Some (shadow_at (data s') f element_type (UidStr u)))
  ∧ (∀ f, covers old f → ¬ covers new f →
          shadow_at (data s') f element_type (UidStr u) = None)
  ∧ (∀ f, (covers old f ↔ covers new f) →
          VCD.get_frame (data s') f = VCD.get_frame (data s) f).
Proof.
  intros fi old new He Hemp Hrun. unfold element_at in He.
  destruct (vcd_elements (data s) !! element_type) as [m|] eqn:Hm; [|done].
  assert (VCD.has (data s) element_type (UStr u) = true) as Hhas.
  { unfold VCD.has. rewrite Hm. simpl. apply bool_decide_eq_true. by eexists. }
  set (fis_old := FrameIntervals.of_get (el_frame_intervals e)).
  assert (VCD.get_element_frame_intervals (data s) element_type (UStr u) = fis_old)
    as Hfis.
  { unfold VCD.get_element_frame_intervals. rewrite Hm. simpl. by rewrite He. }
  assert (Hcold : ∀ f, covers (FrameIntervals.get_dict fis_old) f ↔ covers old f).
  { intros f. apply of_get_covers. }
  unfold VCD.__add_element in Hrun.
  rewrite (coerce_uid_text ont_uid) in Hrun.
  change (VCD.coerce_uid (UStr u))
    with (@ret (option (option string)) (Some (Some u))) in Hrun.
  rewrite (run_bind_ok (ret (Some (Some u))) _ s (Some (Some u)) s eq_refl) in Hrun.
  rewrite (run_bind_ok (ret (Some ont_uid)) _ s (Some ont_uid) s eq_refl) in Hrun.
  rewrite (run_bind_ok (gets data) _ s (data s) s eq_refl) in Hrun.
  cbn [VCD.arg_of_text] in Hrun. rewrite Hhas, Hemp in Hrun. cbn [negb] in Hrun.
  rewrite run_bind in Hrun.
  destruct (run (VCD.__get_uid_to_assign element_type (UStr u)) s) as [[k|?] s1] eqn:Hget;
    [|done].
  assert (data s1 = data s) as Hd1.
  { pose proof (get_uid_to_assign_keeps_data element_type (UStr u) s) as H.
    unfold exec in H. fold (run (VCD.__get_uid_to_assign element_type (UStr u)) s) in H.
    by rewrite Hget in H. }
  rewrite (run_bind_ok (gets data) _ s1 (data s1) s1 eq_refl) in Hrun.
  rewrite Hd1, Hfis in Hrun.
  rewrite run_bind in Hrun.
  destruct (run (VCD.__create_update_element element_type name semantic_type fi k
                   ont_uid stream) s1) as [[[]|?] s2] eqn:Hcu; [|done].
  assert (vcd_frames (data s2) = vcd_frames (data s)) as Hfs2.
  { pose proof (create_update_element_keeps_span element_type name semantic_type fi k
                  ont_uid stream s1) as H.
    unfold exec in H.
    fold (run (VCD.__create_update_element element_type name semantic_type fi k
                 ont_uid stream) s1) in H.
    rewrite Hcu in H. unfold doc_span in H. simpl in H. rewrite Hd1 in H.
    by inversion H. }
  rewrite run_bind in Hrun. cbv zeta in Hrun.
  match type of Hrun with
  | match run ?m s2 with _ => _ end = _ =>
      destruct (run m s2) as [[[]|?] s4] eqn:Htail; [|done]
  end.
  apply (f_equal snd) in Hrun. cbn [snd] in Hrun. unfold run, ret in Hrun.
  cbn [snd] in Hrun. subst s4.
  rewrite run_bind in Htail.
  match type of Htail with
  | match run ?m s2 with _ => _ end = _ =>
      destruct (run m s2) as [[[]|?] s3] eqn:Hloop1; [|done]
  end.
  apply (add_new_frames_ensures element_type u fis_old fi (of_get_coherent _)
           (init_coherent fv)) in Hloop1 as (Hadd & Hsame1 & _).
  apply (remove_old_frames_ensures element_type u fis_old fi (of_get_coherent _)
           (init_coherent fv)) in Htail as (Hrm & Hsame2 & _).
  fold new in Hadd, Hsame1, Hrm, Hsame2.
  split; [|split].
  - intros f Hnew Hnold.
    rewrite (shadow_at_get_frame (data s3)).
    + apply Hadd; [done|]. by rewrite Hcold.
    + apply Hsame2. rewrite Hcold. tauto.
  - intros f Hold Hnnew. apply Hrm; [by rewrite Hcold|done].
  - intros f Hiff. rewrite Hsame2 by (rewrite Hcold; tauto).
    rewrite Hsame1 by (rewrite Hcold; tauto).
    by apply get_frame_same_frames.
Qed.

Lemma interval_change_moves_shadows_witness :
  shadow_at
    (data (exec (VCD.__add_element ElementType.object None None
                   (FrameIntervals.init (FvTuple (1, 3))).1 (UStr "0")
                   (VCD.arg_of_text None) None)
             (exec (VCD.add_object "a" "" (FvTuple (0, 2)) UNone UNone None)
                (VCD.init (λ _, "")))))
    0 ElementType.object (UidStr "0") = None.
Proof.
  destruct (interval_change_moves_shadows
              (exec (VCD.add_object "a" "" (FvTuple (0, 2)) UNone UNone None)
                 (VCD.init (λ _, "")))
              (exec (VCD.__add_element ElementType.object None None
                       (FrameIntervals.init (FvTuple (1, 3))).1 (UStr "0")
                       (VCD.arg_of_text None) None)
                 (exec (VCD.add_object "a" "" (FvTuple (0, 2)) UNone UNone None)
                    (VCD.init (λ _, ""))))
              ElementType.object "0" None None (FvTuple (1, 3)) None None
              {| el_name := Some "a"; el_type := Some "";
                 el_frame_intervals := Some [FiDict 0 2]; el_ontology_uid := None;
                 el_stream := None; el_data := None; el_data_pointers := None |}
              (Some (UidStr "0")))
    as (_ & Hgone & _).
  - vm_compute. reflexivity.
  - reflexivity.
  - vm_compute. reflexivity.
  - apply Hgone.
    + simpl. apply covers_cons. left. unfold inside. simpl. lia.
    + simpl. unfold FrameIntervals.get_dict. simpl. intros Hc.
      apply covers_cons in Hc as [Hc|Hc]; [unfold inside in Hc; simpl in Hc; lia|].
      by apply covers_nil in Hc.
Defined.


(** ** Reading pointers *)

(** X23. The three readers of a data pointer, on an element that exists:
    [get_element_data_pointer] returns the pointer of the name, or [None];
    [get_frames_with_element_data_name] returns the interval of that pointer,
    or [None]; [get_element_data_frame_intervals] returns the same interval,
    but raises [TypeError] where the other two return [None].  None of them
    changes the instance.  On a document without elements of the type the
    first warns and returns [None], the second raises [KeyError], and the
    third raises [TypeError] after the warning. *)
Theorem pointer_readers s element_type uid data_name :
  (∀ k e, key_of_arg uid = Some k → element_at (data s) element_type k = Some e →
     run (VCD.get_element_data_pointer element_type uid data_name) s
     = (Ok (pointer_at e data_name), s)
     ∧ run (VCD.get_frames_with_element_data_name element_type uid data_name) s
       = (Ok ((λ p, FrameIntervals.of_dicts (edp_frame_intervals p))
                <$> pointer_at e data_name), s)
     ∧ run (VCD.get_element_data_frame_intervals element_type uid data_name) s
       = match pointer_at e data_name with
         | Some p => (Ok (FrameIntervals.of_dicts (edp_frame_intervals p)), s)
         | None => (Raise Py.TypeError, s)
         end)
  ∧ (vcd_elements (data s) !! element_type = None →
     let warned :=
       set_warnings
         (warnings s ++ ["WARNING: Asking element data from a non-existing Element."])
         s in
     run (VCD.get_element_data_pointer element_type uid data_name) s = (Ok None, warned)
     ∧ run (VCD.get_frames_with_element_data_name element_type uid data_name) s
       = (Raise Py.KeyError, s)
     ∧ run (VCD.get_element_data_frame_intervals element_type uid data_name) s
       = (Raise Py.TypeError, warned)).
Proof.
  split.
  - intros k e Hk He. unfold element_at in He.
    destruct (vcd_elements (data s) !! element_type) as [m|] eqn:Hm; [|done].
    assert (VCD.has (data s) element_type uid = true) as Hhas.
    { unfold VCD.has. rewrite Hm, Hk. apply bool_decide_eq_true. by eexists. }
    assert (run (VCD.get_element_data_pointer element_type uid data_name) s
            = (Ok (pointer_at e data_name), s)) as Hptr.
    { unfold run, VCD.get_element_data_pointer, bind, gets, subscript, pointer_at.
      rewrite Hhas, Hm, Hk. simpl. rewrite He. simpl.
      by destruct (el_data_pointers e). }
    split; [exact Hptr|]. split.
    + unfold run, VCD.get_frames_with_element_data_name, bind, gets, subscript, pointer_at.
      rewrite Hm, Hk. simpl. rewrite He.
      destruct (el_data_pointers e) as [edps|]; [|done].
      by destruct (edps !! data_name).
    + unfold VCD.get_element_data_frame_intervals. rewrite run_bind, Hptr.
      by destruct (pointer_at e data_name).
  - intros Hnone warned.
    assert (VCD.has (data s) element_type uid = false) as Hhas.
    { unfold VCD.has. by rewrite Hnone. }
    assert (run (VCD.get_element_data_pointer element_type uid data_name) s
            = (Ok None, warned)) as Hptr.
    { unfold run, VCD.get_element_data_pointer, bind, gets. by rewrite Hhas. }
    split; [exact Hptr|]. split.
    + unfold run, VCD.get_frames_with_element_data_name, bind, gets, subscript.
      by rewrite Hnone.
    + unfold VCD.get_element_data_frame_intervals. by rewrite run_bind, Hptr.
Qed.

(** ** Flattened attributes *)

Lemma flatten_kind_lookup (kind : string) (attrs : list Attribute)
    (acc : gmap string string) n :
  foldl (λ acc' attr, <[attr_name attr := kind]> acc') acc attrs !! n
  = if decide (n ∈ attr_name <$> attrs) then Some kind else acc !! n.
Proof.
  revert acc. induction attrs as [|a r IH]; intros acc.
  - destruct (decide (n ∈ attr_name <$> [])) as [H|H]; [|done].
    by apply elem_of_nil in H.
  - change (foldl (λ acc' attr, <[attr_name attr := kind]> acc') acc (a :: r))
      with (foldl (λ acc' attr, <[attr_name attr := kind]> acc')
              (<[attr_name a := kind]> acc) r).
    rewrite IH. rewrite fmap_cons.
    destruct (decide (n ∈ attr_name <$> r)) as [Hin|Hnin].
    + rewrite decide_True; [done|]. by right.
    + destruct (decide (n = attr_name a)) as [->|Hne].
      * rewrite decide_True by left. apply lookup_insert_eq.
      * rewrite decide_False.
        -- by apply lookup_insert_ne.
        -- intros Hin. apply elem_of_cons in Hin as [?|?]; done.
Qed.

Lemma flatten_attributes_snoc l kind attrs :
  VCD.flatten_attributes (l ++ [(kind, attrs)])
  = foldl (λ acc' attr, <[attr_name attr := kind]> acc') (VCD.flatten_attributes l) attrs.
Proof. unfold VCD.flatten_attributes. by rewrite foldl_app. Qed.

(** X24. The flattened attribute map of a payload, whose attributes are
    listed kind by kind.  A name that no kind lists is not in the map; a
    name that some kind lists is mapped to the last kind that lists it,
    whatever is listed before it and after it. *)
Theorem flatten_attributes_lookup (attributes : list (string * list Attribute)) n :
  ((∀ kind attrs, (kind, attrs) ∈ attributes → n ∉ attr_name <$> attrs) →
   VCD.flatten_attributes attributes !! n = None)
  ∧ (∀ before kind attrs after,
       attributes = (before ++ (kind, attrs) :: after)%list →
       n ∈ attr_name <$> attrs →
       (∀ kind' attrs', (kind', attrs') ∈ after → n ∉ attr_name <$> attrs') →
       VCD.flatten_attributes attributes !! n = Some kind).
Proof.
  split.
  - induction attributes as [|[k attrs] l IH] using rev_ind; intros Hno.
    + unfold VCD.flatten_attributes. simpl. by rewrite lookup_empty.
    + rewrite flatten_attributes_snoc, flatten_kind_lookup.
      destruct (decide (n ∈ attr_name <$> attrs)) as [Hin|Hnin].
      * exfalso. apply (Hno k attrs); [|exact Hin]. apply elem_of_app. right. by left.
      * apply IH. intros kind attrs' Hin. apply (Hno kind). apply elem_of_app. by left.
  - intros before kind attrs after -> Hin.
    induction after as [|[k' attrs'] l IH] using rev_ind; intros Hlast.
    + rewrite flatten_attributes_snoc, flatten_kind_lookup. by rewrite decide_True.
    + rewrite app_comm_cons, app_assoc.
      rewrite flatten_attributes_snoc, flatten_kind_lookup.
      rewrite decide_False.
      * apply IH. intros kind' attrs'' Hin'. apply (Hlast kind'). apply elem_of_app. by left.
      * apply (Hlast k' attrs'). apply elem_of_app. right. by left.
Qed.

(** ** Frame properties *)

Lemma run_add_frame_touches s fs n :
  vcd_frames (data s) = Some fs →
  ∃ fr', run (VCD.__add_frame n) s
         = (Ok tt, set_data (set_vcd_frames (Some (<[n := fr']> fs)) (data s)) s)
         ∧ fr_elements fr' = default ∅ (fr_elements <$> fs !! n).
Proof.
  intros Hfs. destruct (fs !! n) as [fr|] eqn:Hn.
  - exists fr. split; [|done].
    unfold VCD.__add_frame, run, bind, gets, subscript. rewrite Hfs. cbn [ret].
    rewrite Hn, (insert_id _ _ _ Hn). cbn [ret]. f_equal.
    destruct s as [? ? d ? ? ?]. unfold set_data. cbn [data] in *. f_equal.
    destruct d. unfold set_vcd_frames. cbn in *. by subst.
  - exists empty_frame. split; [by apply run_add_frame_new|done].
Qed.

Lemma run_update_frame_touched s fs n fr' g :
  run (VCD.update_frame n g)
    (set_data (set_vcd_frames (Some (<[n := fr']> fs)) (data s)) s)
  = (Ok tt, set_data (set_vcd_frames (Some (<[n := g fr']> fs)) (data s)) s).
Proof.
  rewrite (run_update_frame _ (<[n := fr']> fs) n fr' g);
    [|reflexivity|by rewrite lookup_insert_eq].
  by rewrite insert_insert_eq.
Qed.

(** X25. [add_frame_properties] and [add_odometry], on a document that has
    a frames map, return, and all they change of the instance is the entry
    of the frame in the frames map: it exists afterwards, with the element
    buckets it had (none when it is new) and with a [frame_properties] map.
    The other frames, the root records, the document-wide interval list
    and the counters are what they were. *)
Theorem frame_properties_touch_one_frame
    s fs frame_num timestamp properties odometry :
  vcd_frames (data s) = Some fs →
  let touched (m : M unit) :=
    ∃ fr', run m s
           = (Ok tt, set_data (set_vcd_frames (Some (<[frame_num := fr']> fs)) (data s)) s)
           ∧ fr_elements fr' = default ∅ (fr_elements <$> fs !! frame_num)
           ∧ is_Some (fr_properties fr') in
  touched (VCD.add_frame_properties frame_num timestamp properties)
  ∧ touched (VCD.add_odometry frame_num odometry).
Proof.
  intros Hfs touched.
  destruct (run_add_frame_touches s fs frame_num Hfs) as (fr0 & Hadd & Hel).
  split.
  - unfold touched, VCD.add_frame_properties.
    rewrite (run_bind_ok _ _ s _ _ Hadd).
    rewrite (run_bind_ok _ _ _ _ _ (run_update_frame_touched s fs frame_num fr0 _)).
    destruct timestamp as [t|], properties as [props|].
    + rewrite (run_bind_ok _ _ _ _ _ (run_update_frame_touched s fs frame_num _ _)).
      eexists. split; [apply run_update_frame_touched|]. split; [exact Hel|by eexists].
    + rewrite (run_bind_ok _ _ _ _ _ (run_update_frame_touched s fs frame_num _ _)).
      eexists. split; [reflexivity|]. split; [exact Hel|by eexists].
    + eexists. split; [apply run_update_frame_touched|]. split; [exact Hel|by eexists].
    + eexists. split; [reflexivity|]. split; [exact Hel|by eexists].
  - unfold touched, VCD.add_odometry.
    rewrite (run_bind_ok _ _ s _ _ Hadd).
    rewrite (run_bind_ok _ _ _ _ _ (run_update_frame_touched s fs frame_num fr0 _)).
    eexists. split; [apply run_update_frame_touched|]. split; [exact Hel|by eexists].
Qed.

Lemma frame_properties_touch_one_frame_witness :
  ∃ fr', run (VCD.add_frame_properties 3 (Some "t0") None) (VCD.init (λ _, ""))
         = (Ok tt, set_data (set_vcd_frames (Some (<[3 := fr']> ∅))
                               (data (VCD.init (λ _, "")))) (VCD.init (λ _, "")))
         ∧ fr_elements fr' = ∅.
Proof.
  destruct (frame_properties_touch_one_frame (VCD.init (λ _, "")) ∅ 3 (Some "t0") None
              {| VCD.odometry_data := ∅ |} eq_refl) as [(fr' & Hrun & Hel & _) _].
  exists fr'. split; [exact Hrun|exact Hel].
Defined.

(** ** Reset *)

(** X26. [reset] followed by an upsert without a UID, an interval or a
    stream, on an instance in the integer mode, whatever it held: the UID
    returned is ["0"], the document holds that one record and nothing else
    (no frame, an empty interval list), the record has the name and the type
    supplied and no ontology reference, no ontology being registered any
    more, and the counters are the initial ones but for the one of the
    element type. *)
Theorem reset_restarts_numbering
    s element_type name semantic_type frame_intervals ont_uid :
  use_uuid s = false →
  FrameIntervals.empty frame_intervals = true →
  ∃ s',
    run (VCD.reset ;;;
         VCD.__add_element element_type name semantic_type frame_intervals UNone
           (VCD.arg_of_text ont_uid) None) s
    = (Ok (Some (UidStr "0")), s')
    ∧ vcd_elements (data s')
      = {[ element_type :=
             {[ UidStr "0" :=
                  {| el_name := name; el_type := semantic_type;
                     el_frame_intervals := None; el_ontology_uid := None;
                     el_stream := None; el_data := None;
                     el_data_pointers := None |} ]} ]}
    ∧ vcd_frames (data s') = Some ∅
    ∧ vcd_frame_intervals (data s') = Some []
    ∧ lastUID s' = <[element_type := 0]> VCD.fresh_lastUID
    ∧ use_uuid s' = false.
Proof.
  intros Hu He.
  set (s0 := set_lastUID VCD.fresh_lastUID (set_data VCD.fresh_data s)).
  assert (run VCD.reset s = (Ok tt, s0)) as Hreset by reflexivity.
  assert (run (VCD.__get_uid_to_assign element_type (VCD.arg_of_text None)) s0
          = (Ok (UidStr "0"), set_lastUID (<[element_type := 0]> VCD.fresh_lastUID) s0))
    as Hget.
  { unfold run, VCD.__get_uid_to_assign, bind, gets, subscript. simpl.
    rewrite Hu. by destruct element_type. }
  destruct (add_element_returns_uid element_type name semantic_type frame_intervals
              None ont_uid s0 _ _ He Hget) as (s' & Hrun & Hal).
  cbn [VCD.arg_of_text] in Hrun.
  exists s'. split; [by rewrite (run_bind_ok _ _ s _ _ Hreset)|].
  pose proof (add_element_record element_type name semantic_type frame_intervals UNone
                ont_uid None s0 s0 _ s' eq_refl Hrun _ eq_refl) as Hels.
  pose proof (add_element_without_interval_keeps_span element_type name semantic_type
                frame_intervals UNone (VCD.arg_of_text ont_uid) None He s0) as Hsp.
  unfold exec in Hsp.
  fold (run (VCD.__add_element element_type name semantic_type frame_intervals UNone
               (VCD.arg_of_text ont_uid) None) s0) in Hsp.
  rewrite Hrun in Hsp. cbn [snd] in Hsp. unfold doc_span in Hsp.
  unfold allocator in Hal. cbn in Hal.
  split.
  - unfold doc_elements in Hels. rewrite Hels. unfold with_element, upserted.
    rewrite He. cbn. rewrite lookup_empty. cbn. rewrite !insert_empty.
    do 2 f_equal. destruct name, semantic_type, ont_uid; reflexivity.
  - split; [by inversion Hsp|]. split; [by inversion Hsp|].
    split; [by inversion Hal|]. inversion Hal. congruence.
Qed.

Lemma reset_restarts_numbering_witness :
  ∃ s',
    run (VCD.reset ;;;
         VCD.__add_element ElementType.object (Some "a") (Some "car")
           (FrameIntervals.init FvNone).1 UNone (VCD.arg_of_text None) None)
      (set_lastUID (<[ElementType.object := 7]> VCD.fresh_lastUID) (VCD.init (λ _, "")))
    = (Ok (Some (UidStr "0")), s')
    ∧ lastUID s' = <[ElementType.object := 0]> VCD.fresh_lastUID.
Proof.
  destruct (reset_restarts_numbering
              (set_lastUID (<[ElementType.object := 7]> VCD.fresh_lastUID)
                 (VCD.init (λ _, "")))
              ElementType.object (Some "a") (Some "car") (FrameIntervals.init FvNone).1 None)
    as (s' & Hrun & _ & _ & _ & Hlast & _).
  - reflexivity.
  - reflexivity.
  - exists s'. split; [exact Hrun|exact Hlast].
Defined.

(** ** Counting elements *)

(** X27. [get_num_elements] and upserts.  On a document that never held an
    element of the type, it raises [KeyError] instead of answering zero.
    After an upsert that returned a UID, it answers one more than the number
    of elements of the type there were when the UID is new, and the same
    number when the UID named an element already; the counts of the other
    types are what they were. *)
Theorem get_num_elements_after_upsert :
  (∀ s element_type,
     vcd_elements (data s) !! element_type = None →
     run (VCD.get_num_elements element_type) s = (Raise Py.KeyError, s))
  ∧ (∀ s s' element_type name semantic_type frame_intervals uid_ ont_uid stream k,
       run (VCD.__add_element element_type name semantic_type frame_intervals uid_
              (VCD.arg_of_text ont_uid) stream) s = (Ok (Some k), s') →
       let before := size (default ∅ (vcd_elements (data s) !! element_type)) in
       run (VCD.get_num_elements element_type) s'
       = (Ok match element_at (data s) element_type k with
             | Some _ => before
             | None => S before
             end, s')
       ∧ ∀ element_type', element_type' ≠ element_type →
           eval (VCD.get_num_elements element_type') s'
           = eval (VCD.get_num_elements element_type') s).
Proof.
  split.
  - intros s element_type Hnone.
    unfold VCD.get_num_elements, run, bind, gets, subscript. by rewrite Hnone.
  - intros s s' element_type name semantic_type frame_intervals uid_ ont_uid stream k
      Hrun before.
    pose proof (add_element_record element_type name semantic_type frame_intervals uid_
                  ont_uid stream s s (Some k) s' eq_refl Hrun k eq_refl) as Hels.
    unfold doc_elements, with_element in Hels. split.
    + unfold VCD.get_num_elements, run, bind, gets, subscript.
      rewrite Hels, lookup_insert_eq. cbn [ret]. do 2 f_equal.
      rewrite map_size_insert. rewrite element_at_default.
      fold before. by destruct (element_at (data s) element_type k).
    + intros element_type' Hne.
      unfold eval, VCD.get_num_elements, bind, gets, subscript.
      rewrite Hels, lookup_insert_ne by done.
      by destruct (vcd_elements (data s) !! element_type').
Qed.

(** ** The class [FrameIntervals] *)

(** X28. [intersection] gives the empty instance whatever its operands:
    the overlaps that its helper emits are lists, which the constructor takes
    neither for tuples nor for records, so that the result has no frame and
    [empty] answers [True] of it.  [union], on instances that the constructor
    built, has the frames of either operand and no other. *)
Theorem intersection_is_always_empty :
  (∀ a b,
     FrameIntervals.intersection a b = (FrameIntervals.init FvNone).1
     ∧ FrameIntervals.empty (FrameIntervals.intersection a b) = true
     ∧ ∀ f, FrameIntervals.has_frame (FrameIntervals.intersection a b) f = false)
  ∧ (∀ fv1 fv2 f,
       let a := (FrameIntervals.init fv1).1 in
       let b := (FrameIntervals.init fv2).1 in
       FrameIntervals.has_frame (FrameIntervals.union a b) f
       = FrameIntervals.has_frame a f || FrameIntervals.has_frame b f).
Proof.
  split.
  - intros a b. rewrite intersection_empty. by split.
  - intros fv1 fv2 f a b. apply eq_true_iff_eq.
    rewrite orb_true_iff, !has_frame_covers
      by (apply init_coherent || apply of_dicts_coherent).
    unfold FrameIntervals.union, FrameIntervals.get_dict.
    rewrite of_dicts_fis_dict, !covers_fuse, covers_app. tauto.
Qed.
